(** * Candidate-fit dashboard: response extraction, AI route, prompt and PDF report

    A shallow embedding of the four pieces of the dashboard that carry
    logic of their own:

    - [parseAIResponse] and [generateCandidateFitPrompt] of [src/lib/ai.ts];
    - the [POST] handler of [src/app/api/ai/route.ts];
    - [generateAnalysisPDF] of [src/app/jobs/[id]/page.tsx].

    Part II adds what surrounds them: the label tables and the badge of
    [src/lib/ai.ts], the theme colours and the fit-analysis dialog of
    the job page, the search proxy of [src/app/api/search/route.ts] and
    the client of [src/lib/torre-api.ts].

    JavaScript strings are written with Rocq's [string] (one character per
    code unit below 256; the bullet of the page footer is its three UTF-8
    bytes), the lengths and positions of the page layout with [Q], the
    numbers of the prompt's percentage with the binary64 values of
    [SpecFloat] and their rounded arithmetic, thrown values with an
    explicit [completion] type.  What the host provides
    ([JSON.parse], the text-generation SDK, jsPDF's page size and text
    wrapping, the clock) is an interface here, a type class whose methods
    the embedded functions call; a small reference implementation of each
    interface is given so that every function can be run on concrete
    inputs. *)

From Stdlib Require Import Bool Ascii String List ZArith QArith Qround.
From Stdlib Require Import Lia Lqa DecimalString.
From Stdlib Require Import SpecFloat.
Import ListNotations.

Set Warnings "-register-all".
Local Open Scope string_scope.

(* ================================================================== *)
(** * Part I: the program *)
(* ================================================================== *)

(** ** Strings, the way the sources use them *)

Module Str.

(** [\s] of a JavaScript regular expression, on the code units this
    model has: tab, line feed, vertical tab, form feed, carriage return,
    space and the no-break space. *)
Definition is_space (c : ascii) : bool :=
  let n := nat_of_ascii c in
  (((9 <=? n) && (n <=? 13)) || (n =? 32) || (n =? 160))%nat.

(** [s.replace(/\s+/g, "_")]: every maximal run of white space becomes
    one underscore.  [in_run] tells that the previous character was
    white space, whose underscore is already out. *)
Fixpoint replace_ws_from (in_run : bool) (s : string) : string :=
  match s with
  | EmptyString => EmptyString
  | String c r =>
      if is_space c
      then (if in_run then replace_ws_from true r
            else String "_" (replace_ws_from true r))
      else String c (replace_ws_from false r)
  end.

Definition replace_ws (s : string) : string := replace_ws_from false s.

(** [s.substring(0, n)]. *)
Definition substring0 (n : nat) (s : string) : string := substring 0 n s.

(** [s.includes(needle)]. *)
Fixpoint includes (s needle : string) : bool :=
  prefix needle s ||
  match s with
  | EmptyString => false
  | String _ r => includes r needle
  end.

(** Truthiness of a string: the empty string is falsy. *)
Definition nonempty (s : string) : bool :=
  match s with EmptyString => false | _ => true end.

(** [`${n}`] for a non-negative integer and for an integer. *)
Definition of_nat (n : nat) : string := NilZero.string_of_uint (Nat.to_uint n).
Definition of_Z (z : Z) : string := NilZero.string_of_int (Z.to_int z).

(** The suffix of [s] that starts at the first occurrence of [c]. *)
Fixpoint from_first (c : ascii) (s : string) : option string :=
  match s with
  | EmptyString => None
  | String a r => if Ascii.eqb a c then Some s else from_first c r
  end.

(** The prefix of [s] that ends at the last occurrence of [c]. *)
Fixpoint upto_last (c : ascii) (s : string) : option string :=
  match s with
  | EmptyString => None
  | String a r =>
      match upto_last c r with
      | Some p => Some (String a p)
      | None => if Ascii.eqb a c then Some (String a EmptyString) else None
      end
  end.

(** [text.match(/\{[\s\S]*\}/)]: the regular expression is tried at the
    leftmost position first, so the match starts at the first opening
    brace, and [[\s\S]*] is greedy over every character, so it ends at
    the last closing brace that follows.  [None] is JavaScript's [null]
    (no closing brace after the first opening one); the result is
    [jsonMatch[0]]. *)
Definition match_braces (text : string) : option string :=
  match from_first "{" text with
  | Some (String open r) =>
      match upto_last "}" r with
      | Some p => Some (String open p)
      | None => None
      end
  | _ => None
  end.

(** No character of [s] satisfies [p]. *)
Fixpoint free_of (p : ascii -> bool) (s : string) : bool :=
  match s with
  | EmptyString => true
  | String c r => negb (p c) && free_of p r
  end.

Definition is_brace (c : ascii) : bool :=
  Ascii.eqb c "{" || Ascii.eqb c "}".

(** [n] copies of [s], to build long inputs. *)
Fixpoint repeat (s : string) (n : nat) : string :=
  match n with
  | O => EmptyString
  | S k => s ++ repeat s k
  end.

End Str.

(** ** JSON values and what a JavaScript function can complete with *)

Module JSON.

(** A parsed JSON text.  Numbers are the integers; an object keeps its
    members in the order of the text. *)
Inductive json : Type :=
| JNull
| JBool (b : bool)
| JNumber (n : Z)
| JString (s : string)
| JArray (items : list json)
| JObject (members : list (string * json)).

Definition is_object (v : json) : bool :=
  match v with JObject _ => true | _ => false end.

(** [!!v] for a value that came out of JSON. *)
Definition truthy (v : json) : bool :=
  match v with
  | JNull => false
  | JBool b => b
  | JNumber n => negb (Z.eqb n 0)
  | JString s => Str.nonempty s
  | JArray _ | JObject _ => true
  end.

(** [obj.key], [None] being [undefined].  When a text repeats a key,
    [JSON.parse] keeps the last value. *)
Fixpoint lookup (key : string) (members : list (string * json)) : option json :=
  match members with
  | [] => None
  | (k, v) :: r =>
      match lookup key r with
      | Some v' => Some v'
      | None => if String.eqb k key then Some v else None
      end
  end.

(** [!!v] for a value that may be [undefined]. *)
Definition truthy_opt (v : option json) : bool :=
  match v with Some x => truthy x | None => false end.

(** [a || b]. *)
Definition or_else (a : option json) (b : json) : json :=
  match a with
  | Some v => if truthy v then v else b
  | None => b
  end.

(** What a [throw] carries: an [Error] object (its [name] tells
    [SyntaxError], [TypeError] and so on apart), or any other value. *)
Inductive thrown : Type :=
| ErrorObject (name message : string)
| NotAnError.

Inductive completion (A : Type) : Type :=
| Return (a : A)
| Throw (e : thrown).
Arguments Return {A} a.
Arguments Throw {A} e.

(** The host's [JSON] object. *)
Class Host : Type := {
  JSON_parse : string -> completion json;
  JSON_stringify : json -> string
}.

End JSON.
Export JSON.

(** ** [src/lib/ai.ts]: [parseAIResponse] *)

Module AI.

(** [[
    try { return JSON.parse(text); }
    catch {
      const jsonMatch = text.match(/\{[\s\S]*\}/);
      if (jsonMatch) { return JSON.parse(jsonMatch[0]); }
      throw new Error("Failed to parse AI response");
    }
    ]]
    The second [JSON.parse] runs inside the [catch] block: what it
    throws leaves the function as it is. *)
Definition parseAIResponse `{Host} (text : string) : completion json :=
  match JSON_parse text with
  | Return v => Return v
  | Throw _ =>
      match Str.match_braces text with
      | Some m => JSON_parse m
      | None => Throw (ErrorObject "Error" "Failed to parse AI response")
      end
  end.

End AI.

(** ** A reference [JSON] host

    A reader and a writer for the JSON texts this model has values for
    (integers for numbers, the two-character escapes in strings), to run
    the functions above on concrete texts. *)

Module RefJSON.

Definition is_ws (c : ascii) : bool :=
  let n := nat_of_ascii c in
  ((n =? 32) || (n =? 9) || (n =? 10) || (n =? 13))%nat.

Fixpoint skip_ws (s : string) : string :=
  match s with
  | String c r => if is_ws c then skip_ws r else s
  | EmptyString => s
  end.

(** The double quote. *)
Definition dquote : ascii := "034"%char.

Definition digit_of (c : ascii) : option Z :=
  let n := nat_of_ascii c in
  if ((48 <=? n) && (n <=? 57))%nat then Some (Z.of_nat n - 48)%Z else None.

Fixpoint read_digits (acc : Z) (s : string) : Z * string :=
  match s with
  | String c r =>
      match digit_of c with
      | Some d => read_digits (acc * 10 + d)%Z r
      | None => (acc, s)
      end
  | EmptyString => (acc, s)
  end.

(** An integer literal: [0] or a digit sequence without leading zero.
    A fraction or an exponent is not read. *)
Definition read_nat_literal (s : string) : option (Z * string) :=
  match s with
  | String c r =>
      match digit_of c with
      | Some d =>
          let '(n, rest) := if (d =? 0)%Z then (0%Z, r) else read_digits d r in
          match rest with
          | String x _ =>
              if (Ascii.eqb x "." || Ascii.eqb x "e" || Ascii.eqb x "E"
                  || match digit_of x with Some _ => true | None => false end)%bool
              then None else Some (n, rest)
          | EmptyString => Some (n, rest)
          end
      | None => None
      end
  | EmptyString => None
  end.

Definition unescape (c : ascii) : option ascii :=
  if Ascii.eqb c dquote then Some dquote
  else if Ascii.eqb c "\" then Some "\"%char
  else if Ascii.eqb c "/" then Some "/"%char
  else if Ascii.eqb c "b" then Some (ascii_of_nat 8)
  else if Ascii.eqb c "f" then Some (ascii_of_nat 12)
  else if Ascii.eqb c "n" then Some (ascii_of_nat 10)
  else if Ascii.eqb c "r" then Some (ascii_of_nat 13)
  else if Ascii.eqb c "t" then Some (ascii_of_nat 9)
  else None.

(** The characters of a string literal, after its opening quote. *)
Fixpoint read_string_body (s : string) : option (string * string) :=
  match s with
  | EmptyString => None
  | String c r =>
      if Ascii.eqb c dquote then Some (EmptyString, r)
      else if Ascii.eqb c "\" then
        match r with
        | String e r' =>
            match unescape e, read_string_body r' with
            | Some ch, Some (body, rest) => Some (String ch body, rest)
            | _, _ => None
            end
        | EmptyString => None
        end
      else if (nat_of_ascii c <? 32)%nat then None
      else
        match read_string_body r with
        | Some (body, rest) => Some (String c body, rest)
        | None => None
        end
  end.

Definition expect (word : string) (s : string) : option string :=
  if prefix word s
  then Some (substring (String.length word) (String.length s) s)
  else None.

(** The text after the character [c], when [s] starts with it. *)
Definition after (c : ascii) (s : string) : option string :=
  match s with
  | String a r => if Ascii.eqb a c then Some r else None
  | EmptyString => None
  end.

(** Recursive descent, [fuel] bounding the nesting and the number of
    items read. *)
Fixpoint read_value (fuel : nat) (s : string) : option (json * string) :=
  match fuel with
  | O => None
  | S fuel' =>
      match skip_ws s with
      | EmptyString => None
      | String c r =>
          if Ascii.eqb c "n" then option_map (pair JNull) (expect "ull" r)
          else if Ascii.eqb c "t" then option_map (pair (JBool true)) (expect "rue" r)
          else if Ascii.eqb c "f" then option_map (pair (JBool false)) (expect "alse" r)
          else if Ascii.eqb c dquote then
            match read_string_body r with
            | Some (body, rest) => Some (JString body, rest)
            | None => None
            end
          else if Ascii.eqb c "-" then
            match read_nat_literal r with
            | Some (n, rest) => Some (JNumber (- n), rest)
            | None => None
            end
          else if Ascii.eqb c "[" then
            match after "]" (skip_ws r) with
            | Some rest => Some (JArray [], rest)
            | None =>
                match read_items fuel' r with
                | Some (items, rest) => Some (JArray items, rest)
                | None => None
                end
            end
          else if Ascii.eqb c "{" then
            match after "}" (skip_ws r) with
            | Some rest => Some (JObject [], rest)
            | None =>
                match read_members fuel' r with
                | Some (members, rest) => Some (JObject members, rest)
                | None => None
                end
            end
          else
            match read_nat_literal (String c r) with
            | Some (n, rest) => Some (JNumber n, rest)
            | None => None
            end
      end
  end

with read_items (fuel : nat) (s : string) : option (list json * string) :=
  match fuel with
  | O => None
  | S fuel' =>
      match read_value fuel' s with
      | Some (v, rest) =>
          match after "," (skip_ws rest) with
          | Some rest' =>
              match read_items fuel' rest' with
              | Some (vs, rest'') => Some (v :: vs, rest'')
              | None => None
              end
          | None =>
              match after "]" (skip_ws rest) with
              | Some rest' => Some ([v], rest')
              | None => None
              end
          end
      | None => None
      end
  end

with read_members (fuel : nat) (s : string)
  : option (list (string * json) * string) :=
  match fuel with
  | O => None
  | S fuel' =>
      match after dquote (skip_ws s) with
      | Some r =>
          match read_string_body r with
          | Some (key, rest) =>
              match after ":" (skip_ws rest) with
              | Some rest' =>
                  match read_value fuel' rest' with
                  | Some (v, rest'') =>
                      match after "," (skip_ws rest'') with
                      | Some r2 =>
                          match read_members fuel' r2 with
                          | Some (ms, r3) => Some ((key, v) :: ms, r3)
                          | None => None
                          end
                      | None =>
                          match after "}" (skip_ws rest'') with
                          | Some r2 => Some ([(key, v)], r2)
                          | None => None
                          end
                      end
                  | None => None
                  end
              | None => None
              end
          | None => None
          end
      | None => None
      end
  end.

Definition syntax_error : thrown :=
  ErrorObject "SyntaxError" "Unexpected token in JSON".

Definition parse (text : string) : completion json :=
  match read_value (2 * String.length text + 2) text with
  | Some (v, rest) =>
      match skip_ws rest with
      | EmptyString => Return v
      | _ => Throw syntax_error
      end
  | None => Throw syntax_error
  end.

Definition escape (c : ascii) : string :=
  let n := nat_of_ascii c in
  if Ascii.eqb c dquote then String "\" (String dquote EmptyString)
  else if Ascii.eqb c "\" then "\\"
  else if (n =? 8)%nat then "\b"
  else if (n =? 12)%nat then "\f"
  else if (n =? 10)%nat then "\n"
  else if (n =? 13)%nat then "\r"
  else if (n =? 9)%nat then "\t"
  else String c EmptyString.

Fixpoint quote_body (s : string) : string :=
  match s with
  | EmptyString => String dquote EmptyString
  | String c r => escape c ++ quote_body r
  end.

Definition quote (s : string) : string := String dquote (quote_body s).

Fixpoint stringify (v : json) : string :=
  match v with
  | JNull => "null"
  | JBool true => "true"
  | JBool false => "false"
  | JNumber n => Str.of_Z n
  | JString s => quote s
  | JArray items => "[" ++ String.concat "," (map stringify items) ++ "]"
  | JObject members =>
      "{" ++ String.concat ","
               (map (fun kv => quote (fst kv) ++ ":" ++ stringify (snd kv)) members)
          ++ "}"
  end.

#[export] Instance host : Host :=
  {| JSON_parse := parse; JSON_stringify := stringify |}.

End RefJSON.


(** ** [src/app/api/ai/route.ts]: the [POST] handler *)

Module Route.

(** [process.env]. *)
Record env : Type := {
  GOOGLE_MODEL : option string;
  GOOGLE_GENERATIVE_AI_API_KEY : option string
}.

(** The argument of [generateText], with the model that [google(modelName)]
    names, and what the call resolves to. *)
Record generation_request : Type := {
  model : json;
  system : option json;
  prompt : option json
}.

Record generation : Type := {
  text : string;
  usage : option json;
  finishReason : string
}.

(** The text-generation SDK ([ai] and [@ai-sdk/google]).  It reads the
    credential from the environment when the call is made. *)
Class SDK : Type := {
  generateText : env -> generation_request -> completion generation
}.

Record response : Type := { body : json; status : Z }.

(** [NextResponse.json(body, { status })]. *)
Definition NextResponse_json (b : json) (st : Z) : response :=
  {| body := b; status := st |}.

Definition error_body (message : string) : json :=
  JObject [("error", JString message)].

(** [const { prompt, systemPrompt, model: modelId } = body;]
    Destructuring [null] throws; any other JSON value has properties to
    read, [undefined] when it is not an object with that key. *)
Definition destructure (b : json)
  : completion (option json * option json * option json) :=
  match b with
  | JNull =>
      Throw (ErrorObject "TypeError"
               "Cannot destructure property 'prompt' of 'body' as it is null.")
  | JObject members =>
      Return (lookup "prompt" members, lookup "systemPrompt" members,
              lookup "model" members)
  | _ => Return (None, None, None)
  end.

(** The [catch (error)] block ([console.error] left out). *)
Definition on_error (error : thrown) : response :=
  match error with
  | ErrorObject _ message =>
      if Str.includes message "API key"
      then NextResponse_json
             (error_body "Google API key not configured. Set GOOGLE_GENERATIVE_AI_API_KEY environment variable.")
             500
      else NextResponse_json (error_body message) 500
  | NotAnError =>
      NextResponse_json (error_body "An unexpected error occurred") 500
  end.

Definition success_body (g : generation) : json :=
  JObject ([("text", JString (text g))]
           ++ match usage g with Some u => [("usage", u)] | None => [] end
           ++ [("finishReason", JString (finishReason g))])%list.

(** The handler, given what [request.json()] completes with.  Next to
    the response it returns the calls it made to the SDK, in order. *)
Definition POST `{SDK} (e : env) (request_json : completion json)
  : response * list generation_request :=
  match request_json with
  | Throw error => (on_error error, [])
  | Return b =>
      match destructure b with
      | Throw error => (on_error error, [])
      | Return (prompt, systemPrompt, modelId) =>
          if negb (truthy_opt prompt)
          then (NextResponse_json (error_body "Prompt is required") 400, [])
          else
            let modelName :=
              or_else modelId
                (or_else (option_map JString (GOOGLE_MODEL e))
                   (JString "gemini-2.5-flash-lite")) in
            let call :=
              {| model := modelName; system := systemPrompt; prompt := prompt |} in
            match generateText e call with
            | Return result => (NextResponse_json (success_body result) 200, [call])
            | Throw error => (on_error error, [call])
            end
      end
  end.

End Route.

(** A reference SDK: the credential is looked at first, the way
    [@ai-sdk/google] loads it, then the service accepts one key only. *)

Module RefSDK.
Import Route.

Definition missing_key_message : string :=
  "Google Generative AI API key is missing. Pass it using the 'apiKey' parameter or the GOOGLE_GENERATIVE_AI_API_KEY environment variable.".

Definition invalid_key_message : string :=
  "API key not valid. Please pass a valid API key.".

Definition generate (e : env) (r : generation_request) : completion generation :=
  match GOOGLE_GENERATIVE_AI_API_KEY e with
  | None => Throw (ErrorObject "AI_LoadAPIKeyError" missing_key_message)
  | Some key =>
      if String.eqb key "valid-key"
      then
        match prompt r with
        | Some (JString p) =>
            Return {| text := "echo: " ++ p; usage := None; finishReason := "stop" |}
        | _ => Throw (ErrorObject "AI_InvalidPromptError" "Invalid prompt: prompt must be a string")
        end
      else Throw (ErrorObject "AI_APICallError" invalid_key_message)
  end.

#[export] Instance sdk : SDK := {| generateText := generate |}.

End RefSDK.

(** ** The records of [src/lib/torre-api.ts] that the report and the prompt read

    Every field the code reaches through [?.] or guards with [||] is
    optional here, [None] being [undefined]. *)

Module Torre.

Record Organization : Type := { org_name : option string }.

Record GenomePerson : Type := {
  name : option string;
  professionalHeadline : option string
}.

Record GenomeExperience : Type := {
  exp_name : string;
  exp_organizations : option (list Organization);
  fromMonth : option string;
  fromYear : option string;
  toMonth : option string;
  toYear : option string;
  remote : option bool;
  additionalInfo : option string
}.

Record GenomeResponse : Type := {
  person : GenomePerson;
  jobs : option (list GenomeExperience)
}.

Record JobDetails : Type := {
  objective : string;
  organizations : option (list Organization)
}.

(** [job.organizations?.[0]?.name]. *)
Definition first_organization_name (j : JobDetails) : option string :=
  match organizations j with
  | Some (o :: _) => org_name o
  | _ => None
  end.

(** [s || fallback] for an optional string. *)
Definition text_or (s : option string) (fallback : string) : string :=
  match s with
  | Some t => if Str.nonempty t then t else fallback
  | None => fallback
  end.

End Torre.

(** ** [src/lib/ai.ts]: the remote-work figures of [generateCandidateFitPrompt] *)

Module Prompt.
Import Torre.

Record CandidateFitAnalysisInput : Type := {
  job : JobDetails;
  genome : GenomeResponse
}.

(** The template literal around its remote-work line: the text before
    the line and the text after it, with their own interpolations.
    Neither reads the three figures computed below. *)
Class Template : Type := {
  before_remote_line : CandidateFitAnalysisInput -> string;
  after_remote_line : CandidateFitAnalysisInput -> string
}.

(** A JavaScript number: a binary64 value of IEEE 754, with the
    arithmetic that the standard library specifies for it (53 digits,
    infinities at exponent 1024, results rounded to nearest, ties to
    even). *)
Definition number : Type := spec_float.

Definition prec : Z := 53.
Definition emax : Z := 1024.

(** A count as a number: exact below 2^53. *)
Definition Number_of_nat (n : nat) : number :=
  binary_normalize prec emax (Z.of_nat n) 0 false.

(** [a / b] and [a * b]. *)
Definition divide (a b : number) : number := SFdiv prec emax a b.

Definition times (a b : number) : number := SFmul prec emax a b.

(** The rational that a finite number stands for. *)
Definition value (x : number) : Q :=
  match x with
  | S754_finite s m e =>
      match e with
      | Zneg k => Qmake (cond_Zopp s (Zpos m)) (2 ^ k)%positive
      | _ => inject_Z (cond_Zopp s (Zpos m) * 2 ^ e)%Z
      end
  | _ => 0
  end.

(** What [Math.round] gives: an integer, [NaN] or an infinity. *)
Inductive rounded : Type :=
| Integer (z : Z)
| NotANumber
| Infinite (negative : bool).

(** [Math.round]: the nearest integer, a half rounding up; [NaN] and
    the infinities stay. *)
Definition Math_round (x : number) : rounded :=
  match x with
  | S754_nan => NotANumber
  | S754_infinity s => Infinite s
  | _ => Integer (Qfloor (value x + (1 # 2))%Q)
  end.

(** [`${x}`], for an integer that prints in full (below 10^21). *)
Definition show (x : rounded) : string :=
  match x with
  | Integer z => Str.of_Z z
  | NotANumber => "NaN"
  | Infinite false => "Infinity"
  | Infinite true => "-Infinity"
  end.

Definition is_remote (j : GenomeExperience) : bool :=
  match remote j with Some b => b | None => false end.

(** [genome.jobs?.filter(j => j.remote).length || 0]. *)
Definition remoteJobsCount (g : GenomeResponse) : nat :=
  match jobs g with
  | Some js => List.length (filter is_remote js)
  | None => 0
  end.

(** [genome.jobs?.length || 0]. *)
Definition totalJobsCount (g : GenomeResponse) : nat :=
  match jobs g with
  | Some js => List.length js
  | None => 0
  end.

(** [totalJobsCount > 0
      ? Math.round((remoteJobsCount / totalJobsCount) * 100) : 0]. *)
Definition remoteExperiencePercent (g : GenomeResponse) : rounded :=
  if (0 <? totalJobsCount g)%nat
  then Math_round (times (divide (Number_of_nat (remoteJobsCount g))
                                 (Number_of_nat (totalJobsCount g)))
                         (Number_of_nat 100))
  else Integer 0.

Definition remote_line (g : GenomeResponse) : string :=
  "**Remote Work Experience:** " ++ Str.of_nat (remoteJobsCount g)
    ++ " out of " ++ Str.of_nat (totalJobsCount g)
    ++ " positions (" ++ show (remoteExperiencePercent g) ++ "%)".

Definition generateCandidateFitPrompt `{Template}
  (input : CandidateFitAnalysisInput) : string :=
  before_remote_line input ++ remote_line (genome input) ++ after_remote_line input.

End Prompt.

(** ** [src/app/jobs/[id]/page.tsx]: [generateAnalysisPDF] *)

Module Report.
Import Torre.

(** *** The analysis, as [CandidateFitAnalysisResult] declares it *)

Record CareerTrajectory : Type := {
  summary : option string;
  growthIndicators : option (list string);
  alignmentWithRole : option string
}.

Record LocationAndWorkStyle : Type := {
  locationCompatibility : option string;
  remoteWorkAlignment : option string;
  commitmentLevelMatch : option string;
  potentialConcerns : option (list string)
}.

Record ProfessionalCredibility : Type := {
  profileQuality : option string;
  professionalPresence : option (list string);
  credibilityIndicators : option (list string)
}.

Record CandidateFitAnalysisResult : Type := {
  jobSummary : option string;
  overallFitScore : option string;
  matchingSkillsAndStrengths : option (list string);
  areasForDevelopment : option (list string);
  recommendations : option (list string);
  careerTrajectory : option CareerTrajectory;
  locationAndWorkStyle : option LocationAndWorkStyle;
  professionalCredibility : option ProfessionalCredibility
}.

(** *** The jsPDF document *)

Definition rgb : Type := (Z * Z * Z)%type.

Inductive alignment : Type := AlignLeft | AlignCenter.

(** The text settings in force when a text is drawn. *)
Record text_state : Type := {
  fontName : string;
  fontStyle : string;
  fontSize : Q;
  textColor : rgb
}.

(** One drawing instruction on a page, with the settings it was drawn
    under.  A text is a list of lines; a single string is one line. *)
Inductive draw : Type :=
| Text (lines : list string) (x y : Q) (align : alignment) (st : text_state)
| Rect (x y w h : Q) (fill : rgb)
| RoundedRect (x y w h rx ry : Q) (fill : rgb)
| Circle (x y r : Q) (fill : rgb).

Record jsPDF : Type := {
  pages : list (list draw);     (* page 1 first *)
  currentPage : nat;            (* 1-based *)
  textState : text_state;
  fillColor : rgb
}.

(** What jsPDF and the browser decide: the page size, how a text is
    wrapped to a width under the current font, and today's date as
    [toLocaleDateString] prints it. *)
Class Canvas : Type := {
  pageWidth : Q;
  pageHeight : Q;
  splitTextToSize : text_state -> string -> Q -> list string;
  todayLongDate : string
}.

(** [new jsPDF()]: one empty page. *)
Definition new_jsPDF : jsPDF :=
  {| pages := [[]];
     currentPage := 1;
     textState := {| fontName := "helvetica"; fontStyle := "normal";
                     fontSize := 16; textColor := (0, 0, 0)%Z |};
     fillColor := (0, 0, 0)%Z |}.

Definition with_text_state (f : text_state -> text_state) (d : jsPDF) : jsPDF :=
  {| pages := pages d; currentPage := currentPage d;
     textState := f (textState d); fillColor := fillColor d |}.

Definition setFont (name style : string) : jsPDF -> jsPDF :=
  with_text_state (fun t =>
    {| fontName := name; fontStyle := style;
       fontSize := fontSize t; textColor := textColor t |}).

Definition setFontSize (size : Q) : jsPDF -> jsPDF :=
  with_text_state (fun t =>
    {| fontName := fontName t; fontStyle := fontStyle t;
       fontSize := size; textColor := textColor t |}).

Definition setTextColor (r g b : Z) : jsPDF -> jsPDF :=
  with_text_state (fun t =>
    {| fontName := fontName t; fontStyle := fontStyle t;
       fontSize := fontSize t; textColor := (r, g, b) |}).

Definition setFillColor (r g b : Z) (d : jsPDF) : jsPDF :=
  {| pages := pages d; currentPage := currentPage d;
     textState := textState d; fillColor := (r, g, b) |}.

(** Append [x] to the page at 0-based position [i]. *)
Fixpoint draw_at (i : nat) (x : draw) (ps : list (list draw)) : list (list draw) :=
  match ps, i with
  | [], _ => []
  | p :: r, O => (p ++ [x])%list :: r
  | p :: r, S k => p :: draw_at k x r
  end.

Definition put (x : draw) (d : jsPDF) : jsPDF :=
  {| pages := draw_at (currentPage d - 1) x (pages d);
     currentPage := currentPage d;
     textState := textState d; fillColor := fillColor d |}.

Definition text (lines : list string) (x y : Q) (a : alignment) (d : jsPDF) : jsPDF :=
  put (Text lines x y a (textState d)) d.

Definition rect (x y w h : Q) (d : jsPDF) : jsPDF :=
  put (Rect x y w h (fillColor d)) d.

Definition roundedRect (x y w h rx ry : Q) (d : jsPDF) : jsPDF :=
  put (RoundedRect x y w h rx ry (fillColor d)) d.

Definition circle (x y r : Q) (d : jsPDF) : jsPDF :=
  put (Circle x y r (fillColor d)) d.

(** [addPage()]: a new last page, which becomes the current one. *)
Definition addPage (d : jsPDF) : jsPDF :=
  {| pages := (pages d ++ [[]])%list;
     currentPage := S (List.length (pages d));
     textState := textState d; fillColor := fillColor d |}.

Definition setPage (n : nat) (d : jsPDF) : jsPDF :=
  {| pages := pages d; currentPage := n;
     textState := textState d; fillColor := fillColor d |}.

(** [pdf.internal.pages.length]: jsPDF numbers its pages from 1 and
    leaves index 0 of the array unused. *)
Definition internal_pages_length (d : jsPDF) : nat := S (List.length (pages d)).

(** *** The closure state: the document and the cursor [y] *)

Record builder : Type := { pdf : jsPDF; y : Q }.

Definition M (A : Type) : Type := builder -> A * builder.

Definition ret {A} (a : A) : M A := fun b => (a, b).

Definition bind {A B} (m : M A) (k : A -> M B) : M B :=
  fun b => let (a, b') := m b in k a b'.

Declare Scope pdf_scope.
Delimit Scope pdf_scope with pdf.
Notation "x <- m ;; k" := (bind m (fun x => k))
  (at level 61, m at next level, right associativity) : pdf_scope.
Notation "m ;; k" := (bind m (fun _ => k))
  (at level 61, right associativity) : pdf_scope.
Local Open Scope pdf_scope.

(** A call of a method of [pdf]. *)
Definition call (f : jsPDF -> jsPDF) : M unit :=
  fun b => (tt, {| pdf := f (pdf b); y := y b |}).

Definition get_y : M Q := fun b => (y b, b).

Definition set_y (v : Q) : M unit := fun b => (tt, {| pdf := pdf b; y := v |}).

(** [y += d]. *)
Definition advance (d : Q) : M unit := fun b => (tt, {| pdf := pdf b; y := y b + d |}).

(** [pdf.splitTextToSize(s, width)] under the current font. *)
Definition split `{Canvas} (s : string) (width : Q) : M (list string) :=
  fun b => (splitTextToSize (textState (pdf b)) s width, b).

Fixpoint forEach {A} (l : list A) (f : A -> M unit) : M unit :=
  match l with
  | [] => ret tt
  | x :: r => f x ;; forEach r f
  end.

Definition when (c : bool) (m : M unit) : M unit := if c then m else ret tt.

(** [if (s) { ... s ... }] for an optional string, and
    [if (l && l.length > 0) { ... l ... }] for an optional list. *)
Definition if_text (s : option string) (k : string -> M unit) : M unit :=
  match s with
  | Some t => when (Str.nonempty t) (k t)
  | None => ret tt
  end.

Definition if_items (l : option (list string)) (k : list string -> M unit) : M unit :=
  match l with
  | Some (i :: r) => k (i :: r)
  | _ => ret tt
  end.

Definition if_present {A} (o : option A) (k : A -> M unit) : M unit :=
  match o with
  | Some a => k a
  | None => ret tt
  end.

Definition count (l : list string) : Q := inject_Z (Z.of_nat (List.length l)).

(** [a > b] on numbers. *)
Definition gt (a b : Q) : bool := negb (Qle_bool a b).

Section Layout.
Context `{Canvas}.

Definition margin : Q := 20.
Definition contentWidth : Q := pageWidth - 2 * margin.

(** [[
    if (y + requiredHeight > pageHeight - margin) {
      pdf.addPage(); y = margin; return true;
    }
    return false;
    ]] *)
Definition addNewPageIfNeeded (requiredHeight : Q) : M bool :=
  y0 <- get_y ;;
  if gt (y0 + requiredHeight) (pageHeight - margin)
  then call addPage ;; set_y margin ;; ret true
  else ret false.

Definition addSectionTitle (title : string) : M unit :=
  addNewPageIfNeeded 20 ;;
  call (setFont "helvetica" "bold") ;;
  call (setFontSize 14) ;;
  call (setTextColor 80 80 80) ;;
  y0 <- get_y ;;
  call (text [title] margin y0 AlignLeft) ;;
  advance 8.

(** One page check for each item, for the height of its wrapped text. *)
Definition addBulletList (items : list string) (bulletColor : rgb) : M unit :=
  call (setFont "helvetica" "normal") ;;
  call (setFontSize 10) ;;
  call (setTextColor 60 60 60) ;;
  forEach items (fun item =>
    lines <- split item (contentWidth - 10) ;;
    let blockHeight := count lines * 5 + 3 in
    addNewPageIfNeeded blockHeight ;;
    let '(r, g, b) := bulletColor in
    call (setFillColor r g b) ;;
    y0 <- get_y ;;
    call (circle (margin + 2) (y0 - (3 # 2)) (3 # 2)) ;;
    call (text lines (margin + 8) y0 AlignLeft) ;;
    advance blockHeight) ;;
  advance 3.

Definition addParagraph (s : string) : M unit :=
  call (setFont "helvetica" "normal") ;;
  call (setFontSize 10) ;;
  call (setTextColor 60 60 60) ;;
  lines <- split s contentWidth ;;
  let blockHeight := count lines * 5 + 5 in
  addNewPageIfNeeded blockHeight ;;
  y0 <- get_y ;;
  call (text lines margin y0 AlignLeft) ;;
  advance blockHeight.

(** The label and the value are drawn at the cursor as it is on entry;
    the height is computed last, to advance the cursor. *)
Definition addKeyValue (label value : string) : M unit :=
  call (setFont "helvetica" "bold") ;;
  call (setFontSize 10) ;;
  call (setTextColor 100 100 100) ;;
  labelLines <- split (label ++ ":") 50 ;;
  y0 <- get_y ;;
  call (text labelLines margin y0 AlignLeft) ;;
  call (setFont "helvetica" "normal") ;;
  call (setTextColor 60 60 60) ;;
  valueLines <- split value (contentWidth - 55) ;;
  call (text valueLines (margin + 55) y0 AlignLeft) ;;
  advance (inject_Z (Z.of_nat (Nat.max (List.length labelLines)
                                       (List.length valueLines))) * 5 + 3).

(** The sub-heading that precedes a nested bullet list. *)
Definition addSubheading (title : string) (r g b : Z) : M unit :=
  call (setFont "helvetica" "bold") ;;
  call (setFontSize 11) ;;
  call (setTextColor r g b) ;;
  addNewPageIfNeeded 10 ;;
  y0 <- get_y ;;
  call (text [title] margin y0 AlignLeft) ;;
  advance 6.

(** The content pass: everything [generateAnalysisPDF] draws before
    its footer loop, in the order of the source. *)

Definition drawHeader : M unit :=
  call (setFillColor 245 245 250) ;;
  call (rect 0 0 pageWidth 45) ;;
  call (setFont "helvetica" "bold") ;;
  call (setFontSize 20) ;;
  call (setTextColor 30 30 35) ;;
  call (text ["Candidate Fit Analysis"] margin 20 AlignLeft) ;;
  call (setFont "helvetica" "normal") ;;
  call (setFontSize 10) ;;
  call (setTextColor 100 100 100) ;;
  call (text ["Generated on " ++ todayLongDate] margin 30 AlignLeft) ;;
  set_y 55.

Definition drawCandidateInfo (genome : GenomeResponse) : M unit :=
  call (setFillColor 250 250 255) ;;
  y0 <- get_y ;;
  call (roundedRect margin (y0 - 5) contentWidth 25 3 3) ;;
  call (setFont "helvetica" "bold") ;;
  call (setFontSize 12) ;;
  call (setTextColor 30 30 35) ;;
  call (text [text_or (name (person genome)) "Unknown Candidate"]
             (margin + 5) (y0 + 5) AlignLeft) ;;
  call (setFont "helvetica" "normal") ;;
  call (setFontSize 9) ;;
  call (setTextColor 100 100 100) ;;
  call (text [text_or (professionalHeadline (person genome)) EmptyString]
             (margin + 5) (y0 + 12) AlignLeft) ;;
  advance 30.

Definition drawJobInfo (job : JobDetails) : M unit :=
  call (setFont "helvetica" "bold") ;;
  call (setFontSize 10) ;;
  call (setTextColor 80 80 80) ;;
  y0 <- get_y ;;
  call (text ["Position:"] margin y0 AlignLeft) ;;
  call (setFont "helvetica" "normal") ;;
  call (setTextColor 30 30 35) ;;
  call (text [objective job] (margin + 25) y0 AlignLeft) ;;
  advance 6 ;;
  call (setFont "helvetica" "bold") ;;
  call (setTextColor 80 80 80) ;;
  y1 <- get_y ;;
  call (text ["Company:"] margin y1 AlignLeft) ;;
  call (setFont "helvetica" "normal") ;;
  call (setTextColor 30 30 35) ;;
  call (text [text_or (first_organization_name job) "Unknown"]
             (margin + 25) y1 AlignLeft) ;;
  advance 12.

Definition drawFitScore (score : string) : M unit :=
  call (setFillColor 230 245 230) ;;
  y0 <- get_y ;;
  call (roundedRect margin (y0 - 5) contentWidth 20 3 3) ;;
  call (setFont "helvetica" "bold") ;;
  call (setFontSize 12) ;;
  call (setTextColor 30 120 30) ;;
  call (text ["Overall Fit Score: " ++ score] (margin + 5) (y0 + 5) AlignLeft) ;;
  advance 25.

Definition drawCareerTrajectory (c : CareerTrajectory) : M unit :=
  addSectionTitle "Career Trajectory & Growth" ;;
  if_text (summary c) addParagraph ;;
  if_items (growthIndicators c) (fun items =>
    addSubheading "Growth Indicators:" 120 80 180 ;;
    addBulletList items (156, 39, 176)%Z) ;;
  if_text (alignmentWithRole c) (fun v =>
    addNewPageIfNeeded 15 ;;
    addKeyValue "Role Alignment" v).

Definition drawLocationAndWorkStyle (l : LocationAndWorkStyle) : M unit :=
  addSectionTitle "Location & Work Style" ;;
  if_text (locationCompatibility l) (addKeyValue "Location") ;;
  if_text (remoteWorkAlignment l) (addKeyValue "Remote Work") ;;
  if_text (commitmentLevelMatch l) (addKeyValue "Commitment") ;;
  if_items (potentialConcerns l) (fun items =>
    advance 3 ;;
    addSubheading "Potential Concerns:" 255 152 0 ;;
    addBulletList items (255, 152, 0)%Z).

Definition drawProfessionalCredibility (p : ProfessionalCredibility) : M unit :=
  addSectionTitle "Professional Credibility" ;;
  if_text (profileQuality p) (addKeyValue "Profile Quality") ;;
  if_items (professionalPresence p) (fun items =>
    advance 3 ;;
    addSubheading "Professional Presence:" 0 150 136 ;;
    addBulletList items (0, 150, 136)%Z) ;;
  if_items (credibilityIndicators p) (fun items =>
    advance 3 ;;
    addSubheading "Credibility Indicators:" 0 150 136 ;;
    addBulletList items (0, 150, 136)%Z).

Definition drawContent (analysis : CandidateFitAnalysisResult)
  (genome : GenomeResponse) (job : JobDetails) : M unit :=
  drawHeader ;;
  drawCandidateInfo genome ;;
  drawJobInfo job ;;
  if_text (overallFitScore analysis) drawFitScore ;;
  if_text (jobSummary analysis) (fun s =>
    addSectionTitle "Job Summary" ;;
    addParagraph s ;;
    advance 5) ;;
  if_items (matchingSkillsAndStrengths analysis) (fun items =>
    addSectionTitle "Matching Skills & Strengths" ;;
    addBulletList items (76, 175, 80)%Z) ;;
  if_items (areasForDevelopment analysis) (fun items =>
    addSectionTitle "Areas for Development" ;;
    addBulletList items (255, 193, 7)%Z) ;;
  if_items (recommendations analysis) (fun items =>
    addSectionTitle "Recommendations" ;;
    addBulletList items (66, 165, 245)%Z) ;;
  if_present (careerTrajectory analysis) drawCareerTrajectory ;;
  if_present (locationAndWorkStyle analysis) drawLocationAndWorkStyle ;;
  if_present (professionalCredibility analysis) drawProfessionalCredibility.

(** The footer pass. *)

Definition footerText (i totalPages : nat) : string :=
  "Page " ++ Str.of_nat i ++ " of " ++ Str.of_nat totalPages
    ++ " • Torre Candidate Fit Analysis".

Definition stampFooter (totalPages i : nat) : M unit :=
  call (setPage i) ;;
  call (setFont "helvetica" "normal") ;;
  call (setFontSize 8) ;;
  call (setTextColor 150 150 150) ;;
  call (text [footerText i totalPages] (pageWidth / 2) (pageHeight - 10) AlignCenter).

(** [[
    const totalPages = pdf.internal.pages.length - 1;
    for (let i = 1; i <= totalPages; i++) { ... }
    ]] *)
Definition drawFooters : M unit :=
  fun b =>
    let totalPages := (internal_pages_length (pdf b) - 1)%nat in
    forEach (seq 1 totalPages) (stampFooter totalPages) b.

(** The name of the saved file:
    [[
    `Candidate_Fit_${genome.person.name?.replace(/\s+/g, "_") || "Unknown"}_${
       job.objective.replace(/\s+/g, "_").substring(0, 30)}.pdf`
    ]] *)
Definition fileName (genome : GenomeResponse) (job : JobDetails) : string :=
  "Candidate_Fit_"
    ++ text_or (option_map Str.replace_ws (name (person genome))) "Unknown"
    ++ "_" ++ Str.substring0 30 (Str.replace_ws (objective job)) ++ ".pdf".

Definition start : builder := {| pdf := new_jsPDF; y := margin |}.

(** The state after the content pass, and the whole function: what
    [pdf.save(fileName)] is given. *)
Definition contentPass (analysis : CandidateFitAnalysisResult)
  (genome : GenomeResponse) (job : JobDetails) : builder :=
  snd (drawContent analysis genome job start).

Definition generateAnalysisPDF (analysis : CandidateFitAnalysisResult)
  (genome : GenomeResponse) (job : JobDetails) : string * jsPDF :=
  let b := snd ((drawContent analysis genome job ;; drawFooters) start) in
  (fileName genome job, pdf b).

End Layout.

End Report.

(** A reference canvas: an A4 page in millimetres, as [new jsPDF()] makes
    it, and a wrapping that gives every character two millimetres. *)

Module RefCanvas.
Import Report.

(** [n] characters a line; an empty text is one empty line. *)
Fixpoint chunks (fuel n : nat) (s : string) : list string :=
  match fuel with
  | O => [s]
  | S k =>
      if (String.length s <=? n)%nat then [s]
      else substring 0 n s :: chunks k n (substring n (String.length s) s)
  end.

Definition wrap (_ : text_state) (s : string) (width : Q) : list string :=
  let n := Z.to_nat (Qfloor (width / 2)) in
  match n with
  | O => [s]
  | _ => chunks (String.length s) n s
  end.

#[export] Instance a4 : Canvas :=
  {| pageWidth := 210;
     pageHeight := 297;
     splitTextToSize := wrap;
     todayLongDate := "November 2, 2026" |}.

End RefCanvas.

(* ================================================================== *)
(** * Part II: the rest of the program *)
(* ================================================================== *)

(** ** Letter case and words, as the label helpers use them *)

Module Words.

(** [\w] of a regular expression without flags. *)
Definition is_word (c : ascii) : bool :=
  let n := nat_of_ascii c in
  (((48 <=? n) && (n <=? 57)) || ((65 <=? n) && (n <=? 90))
   || ((97 <=? n) && (n <=? 122)) || (n =? 95))%nat.

(** [c.toUpperCase()] for a character that [\w] matched. *)
Definition to_upper (c : ascii) : ascii :=
  let n := nat_of_ascii c in
  if ((97 <=? n) && (n <=? 122))%nat then ascii_of_nat (n - 32) else c.

(** [toLowerCase] on one code unit below 256: the letters A to Z and the
    capital letters of Latin-1 (192 to 222 but the multiplication sign). *)
Definition to_lower (c : ascii) : ascii :=
  let n := nat_of_ascii c in
  if (((65 <=? n) && (n <=? 90))
      || ((192 <=? n) && (n <=? 222) && negb (n =? 215)))%nat
  then ascii_of_nat (n + 32) else c.

Fixpoint map_chars (f : ascii -> ascii) (s : string) : string :=
  match s with
  | EmptyString => EmptyString
  | String c r => String (f c) (map_chars f r)
  end.

(** [s.toLowerCase()]. *)
Definition toLowerCase (s : string) : string := map_chars to_lower s.

(** [s.replace(/-/g, " ")]. *)
Definition hyphens_to_spaces (s : string) : string :=
  map_chars (fun c => if Ascii.eqb c "-" then " "%char else c) s.

(** [s.replace(/\b\w/g, c => c.toUpperCase())]: a word character is at a
    word boundary when the character before it is not a word character
    (or there is none).  [in_word] tells that the previous character was a
    word character. *)
Fixpoint capitalize_from (in_word : bool) (s : string) : string :=
  match s with
  | EmptyString => EmptyString
  | String c r =>
      String (if is_word c && negb in_word then to_upper c else c)
             (capitalize_from (is_word c) r)
  end.

Definition capitalize_words (s : string) : string := capitalize_from false s.

(** [s.trim()]. *)
Fixpoint trim_start (s : string) : string :=
  match s with
  | String c r => if Str.is_space c then trim_start r else s
  | EmptyString => s
  end.

Fixpoint trim_end (s : string) : string :=
  match s with
  | EmptyString => EmptyString
  | String c r =>
      match trim_end r with
      | EmptyString => if Str.is_space c then EmptyString else String c EmptyString
      | t => String c t
      end
  end.

Definition trim (s : string) : string := trim_end (trim_start s).

End Words.

(** ** Lookup tables written as object literals

    [table[key]] on an object literal finds the literal's own entries and,
    failing that, what every object inherits from [Object.prototype]:
    for those twelve names the result is a function (or the prototype
    itself), which is truthy and is not a string. *)

Module Table.

Definition Object_prototype_names : list string :=
  [ "constructor"; "__defineGetter__"; "__defineSetter__"; "hasOwnProperty";
    "__lookupGetter__"; "__lookupSetter__"; "isPrototypeOf";
    "propertyIsEnumerable"; "toString"; "valueOf"; "__proto__";
    "toLocaleString" ].

Definition inherited (key : string) : bool :=
  existsb (String.eqb key) Object_prototype_names.

Fixpoint own (table : list (string * string)) (key : string) : option string :=
  match table with
  | [] => None
  | (k, v) :: r => if String.eqb k key then Some v else own r key
  end.

(** The value of an expression [table[key] || fallback], or of a
    function that returns it: a string, or the inherited member [key]. *)
Inductive shown : Type :=
| Shown (label : string)
| InheritedMember (key : string).

(** [table[key] || fallback]. *)
Definition get_or (table : list (string * string)) (key : string)
  (fallback : string) : shown :=
  match own table key with
  | Some v => if Str.nonempty v then Shown v else Shown fallback
  | None => if inherited key then InheritedMember key else Shown fallback
  end.

End Table.

(** ** [src/lib/ai.ts]: the label helpers, the badge colours *)

Module Labels.
Import Words Table.

Definition typeMap : list (string * string) :=
  [ ("full-time-employment", "Full-time");
    ("part-time-employment", "Part-time");
    ("freelance", "Freelance");
    ("internship", "Internship");
    ("flexible-jobs", "Flexible");
    ("contract", "Contract");
    ("employee", "Employee");
    ("flexible-job", "Flexible") ].

(** [typeMap[type] || type.replace(/-/g, " ").replace(/\b\w/g, ...)]. *)
Definition formatType (type : string) : shown :=
  get_or typeMap type (capitalize_words (hyphens_to_spaces type)).

Definition profMap : list (string * string) :=
  [ ("no-experience-interested", "Interested");
    ("proficient", "Proficient");
    ("expert", "Expert");
    ("master", "Master");
    ("potential-to-develop", "Learning") ].

(** [profMap[p] || p?.replace(/\b\w/g, ...) || ""]: the hyphens stay. *)
Definition formatProficiency (proficiency : string) : shown :=
  get_or profMap proficiency (capitalize_words proficiency).

Definition fluencyMap : list (string * string) :=
  [ ("fully-fluent", "Fluent");
    ("conversational", "Conversational");
    ("reading", "Reading");
    ("native", "Native");
    ("basic", "Basic") ].

Definition formatFluency (fluency : string) : shown :=
  get_or fluencyMap fluency (capitalize_words (hyphens_to_spaces fluency)).

Definition commitMap : list (string * string) :=
  [ ("full-time", "Full-time");
    ("part-time", "Part-time");
    ("flexible", "Flexible");
    ("contract", "Contract") ].

(** [formatCommitment(commitment)], given [commitment.code]. *)
Definition formatCommitment (code : string) : shown :=
  get_or commitMap code (capitalize_words (hyphens_to_spaces code)).

(** The two classes of a badge. *)
Record badge : Type := { bg : string; text : string }.

Definition getFitScoreColor (score : string) : badge :=
  let scoreLower := toLowerCase score in
  if Str.includes scoreLower "strong"
  then {| bg := "bg-green-500/20"; text := "text-green-400" |}
  else if Str.includes scoreLower "good"
  then {| bg := "bg-emerald-500/20"; text := "text-emerald-400" |}
  else if Str.includes scoreLower "partial"
  then {| bg := "bg-yellow-500/20"; text := "text-yellow-400" |}
  else if (Str.includes scoreLower "needs" || Str.includes scoreLower "weak")%bool
  then {| bg := "bg-orange-500/20"; text := "text-orange-400" |}
  else {| bg := "bg-blue-500/20"; text := "text-blue-400" |}.

(** [getGeminiModel(modelId)]: the name given to [google(...)]. *)
Definition getGeminiModel_name (modelId : option string) (GOOGLE_MODEL : option string)
  : string :=
  Torre.text_or modelId (Torre.text_or GOOGLE_MODEL "gemini-2.5-flash-lite").

End Labels.

(** ** [src/app/jobs/[id]/page.tsx]: the theme colours *)

Module Theme.
Import Table.

Definition themeMap : list (string * string) :=
  [ ("deepPurple300", "#9575cd"); ("deepPurple200", "#b39ddb");
    ("deepPurple500", "#673ab7"); ("purple300", "#ba68c8");
    ("purple200", "#ce93d8"); ("purple500", "#9c27b0");
    ("blue300", "#64b5f6"); ("blue200", "#90caf9"); ("blue500", "#2196f3");
    ("cyan300", "#4dd0e1"); ("cyan500", "#00bcd4");
    ("teal300", "#4db6ac"); ("teal500", "#009688");
    ("green300", "#81c784"); ("green500", "#4caf50");
    ("lightGreen300", "#aed581"); ("lightGreen500", "#8bc34a");
    ("lime300", "#dce775"); ("lime500", "#cddc39");
    ("yellow300", "#fff176"); ("yellow500", "#ffeb3b");
    ("amber300", "#ffd54f"); ("amber500", "#ffc107");
    ("orange300", "#ffb74d"); ("orange400", "#ffa726");
    ("orange500", "#ff9800");
    ("red300", "#e57373"); ("red500", "#f44336");
    ("pink300", "#f06292"); ("pink500", "#e91e63") ].

(** [themeMap[theme] || "#cdff50"]. *)
Definition getThemeColor (theme : string) : shown :=
  get_or themeMap theme "#cdff50".

End Theme.

(** ** [src/lib/ai.ts]: the job description of the prompt *)

Module Description.

Record Detail : Type := { code : string; content : option string }.

(** [s] has the character [c]. *)
Definition contains (c : ascii) (s : string) : bool :=
  negb (Str.free_of (fun a => Ascii.eqb a c) s).

(** [s.replace(/<[^>]*>/g, " ")].  A match starts at an opening bracket
    that has a closing bracket somewhere after it and runs to the first
    such closing bracket; [in_tag] tells that the scan is inside a match,
    whose space is already out. *)
Fixpoint strip_from (in_tag : bool) (s : string) : string :=
  match s with
  | EmptyString => EmptyString
  | String c r =>
      if in_tag
      then (if Ascii.eqb c ">" then strip_from false r else strip_from true r)
      else if Ascii.eqb c "<" && contains ">" r
           then String " " (strip_from true r)
           else String c (strip_from false r)
  end.

Definition strip_tags (s : string) : string := strip_from false s.

(** [details?.find(d => d.code === "responsibilities")]. *)
Definition find_responsibilities (details : option (list Detail)) : option Detail :=
  match details with
  | Some l => find (fun d => String.eqb (code d) "responsibilities") l
  | None => None
  end.

(** [[
    job.details?.find(d => d.code === "responsibilities")?.content
       ?.replace(/<[^>]*>/g, " ").substring(0, 2000) || "Not available"
    ]] *)
Definition jobDescription (details : option (list Detail)) : string :=
  Torre.text_or
    (match find_responsibilities details with
     | Some d => option_map (fun c => Str.substring0 2000 (strip_tags c)) (content d)
     | None => None
     end)
    "Not available".

End Description.

(** ** HTTP, as [fetch] shows it *)

Module Http.

Record request : Type := {
  url : string;
  method : string;
  headers : list (string * string);
  body : option string
}.

(** A response: its status line, and what [response.json()] completes
    with. *)
Record response : Type := {
  status : Z;
  statusText : string;
  json : completion JSON.json
}.

(** [response.ok]. *)
Definition ok (r : response) : bool := ((200 <=? status r) && (status r <=? 299))%Z.

(** The network: what a [fetch] resolves to or rejects with. *)
Class Network : Type := { fetch : request -> completion response }.

Definition json_headers : list (string * string) :=
  [("Content-Type", "application/json")].

End Http.

(** ** [src/app/api/search/route.ts]: the search proxy *)

Module SearchRoute.
Import Http.

(** What building a response with a JSON body and a given status throws,
    if anything ([NextResponse.json] refuses the statuses that cannot
    carry a body and those out of range). *)
Class Next : Type := { response_init_error : Z -> option thrown }.

(** [searchParams.get(name)]: the first value of that name. *)
Fixpoint get (name : string) (params : list (string * string)) : option string :=
  match params with
  | [] => None
  | (k, v) :: r => if String.eqb k name then Some v else get name r
  end.

Definition upstream_url (size : string) : string :=
  "https://search.torre.co/opportunities/_search?currency=USD&periodicity=hourly&lang=en&size="
    ++ size ++ "&contextFeature=job_feed".

(** The [catch] block. *)
Definition on_error (error : thrown) : Route.response :=
  Route.NextResponse_json
    (Route.error_body
       (match error with
        | ErrorObject _ message => message
        | NotAnError => "Unknown error"
        end))
    500.

(** The handler, given what [request.json()] completes with and the
    parameters of the request's query string.  Next to the response it
    returns the requests it made upstream. *)
Definition POST `{Host} `{Network} `{Next}
  (request_json : completion JSON.json) (searchParams : list (string * string))
  : Route.response * list request :=
  match request_json with
  | Throw error => (on_error error, [])
  | Return body =>
      let size := Torre.text_or (get "size" searchParams) "10" in
      let upstream :=
        {| url := upstream_url size;
           method := "POST";
           headers := json_headers;
           body := Some (JSON_stringify body) |} in
      match fetch upstream with
      | Throw error => (on_error error, [upstream])
      | Return response =>
          match json response with
          | Throw error => (on_error error, [upstream])
          | Return data =>
              match response_init_error (status response) with
              | Some error => (on_error error, [upstream])
              | None => (Route.NextResponse_json data (status response), [upstream])
              end
          end
      end
  end.

End SearchRoute.

(** ** [src/lib/torre-api.ts]: the client *)

Module Client.
Import Http.

Record LanguageFilter : Type := { term : string; fluency : option string }.
Record SkillFilter : Type := { text : string; proficiency : option string }.

Record SearchFilters : Type := {
  keyword : option string;
  language : option LanguageFilter;
  skills : option (list SkillFilter);
  status : option string
}.

(** A number that [parseInt] can give. *)
Inductive number : Type := Int (z : Z) | NaN.

Definition Number_toString (n : number) : string :=
  match n with Int z => Str.of_Z z | NaN => "NaN" end.

Record SearchOptions : Type := {
  size : option number;
  currency : option string;
  periodicity : option string;
  lang : option string
}.

(** [new URLSearchParams(pairs).toString()]. *)
Class Url : Type := { URLSearchParams_toString : list (string * string) -> string }.

(** A destructuring default: it applies to [undefined] only. *)
Definition default {A} (o : option A) (d : A) : A :=
  match o with Some a => a | None => d end.

Definition entry (key : string) (fields : list (string * JSON.json)) : JSON.json :=
  JObject [(key, JObject fields)].

(** The [andFilters] array, built by the four [if] blocks in order. *)
Definition andFilters (filters : SearchFilters) (lang : string) : list JSON.json :=
  ((match keyword filters with
    | Some k =>
        if Str.nonempty k
        then [entry "keywords" [("term", JString k); ("locale", JString lang)]]
        else []
    | None => []
    end)
   ++ (match language filters with
       | Some l =>
           [entry "language"
              [("term", JString (term l));
               ("fluency", JString (Torre.text_or (fluency l) "conversational"))]]
       | None => []
       end)
   ++ (match skills filters with
       | Some l =>
           map (fun skill =>
                  entry "skill/role"
                    [("text", JString (text skill));
                     ("proficiency",
                      JString (Torre.text_or (proficiency skill) "proficient"))]) l
       | None => []
       end)
   ++ (match status filters with
       | Some st =>
           if Str.nonempty st then [entry "status" [("code", JString st)]] else []
       | None => []
       end))%list.

Section Methods.
Context `{Host} `{Network} `{Url}.

(** [this.baseUrl] of the singleton. *)
Definition baseUrl : string := EmptyString.

Definition search_request (filters : SearchFilters) (options : SearchOptions)
  : request :=
  let size := default (size options) (Int 10) in
  let currency := default (currency options) "USD" in
  let periodicity := default (periodicity options) "hourly" in
  let lang := default (lang options) "en" in
  let queryParams :=
    URLSearchParams_toString
      [("size", Number_toString size); ("currency", currency);
       ("periodicity", periodicity); ("lang", lang)] in
  {| url := baseUrl ++ "/api/search?" ++ queryParams;
     method := "POST";
     headers := json_headers;
     body := Some (JSON_stringify (JObject [("and", JArray (andFilters filters lang))])) |}.

(** After a [fetch]: [if (!response.ok) throw new Error(...)], then
    [return response.json()]. *)
Definition expect_ok (failure : string) (r : completion response)
  : completion JSON.json :=
  match r with
  | Throw error => Throw error
  | Return response =>
      if ok response then json response
      else Throw (ErrorObject "Error" (failure ++ ": " ++ statusText response))
  end.

Definition searchOpportunities (filters : SearchFilters) (options : SearchOptions)
  : completion JSON.json :=
  expect_ok "Search failed" (fetch (search_request filters options)).

Definition get_request (path : string) : request :=
  {| url := baseUrl ++ path; method := "GET"; headers := json_headers; body := None |}.

Definition getJobDetails (jobId : string) : completion JSON.json :=
  expect_ok "Failed to fetch job details" (fetch (get_request ("/api/jobs/" ++ jobId))).

Definition getGenome (username : string) : completion JSON.json :=
  expect_ok "Failed to fetch genome" (fetch (get_request ("/api/genome/" ++ username))).

End Methods.

End Client.

(** ** [src/app/jobs/[id]/page.tsx]: the fit-analysis dialog *)

Module Dialog.
Import Http.

Inductive step_name : Type := input | loading | result.

(** The five state variables of [FitAnalysisDialog]; [None] is [null]. *)
Record state : Type := {
  username : string;
  step : step_name;
  genome : option JSON.json;
  analysis : option JSON.json;
  error : option string
}.

Definition CANDIDATE_FIT_SYSTEM_PROMPT : string :=
  "You are an expert talent acquisition specialist and career advisor. Always respond with valid JSON only. Do not include any text outside the JSON object.".

(** What the page gives the dialog and what JavaScript's dynamic typing
    decides: the job on display; the fetched profile as the prompt
    template reads it (reading a member of a missing [person] throws);
    and what [parseAIResponse] does with a value that is not a string. *)
Class Page : Type := {
  job : Torre.JobDetails;
  read_genome : JSON.json -> completion Torre.GenomeResponse;
  parseAIResponse_of_other : option JSON.json -> completion JSON.json
}.

(** [v.name]: reading a member of [null] throws. *)
Definition member (v : JSON.json) (name : string) : completion (option JSON.json) :=
  match v with
  | JNull =>
      Throw (ErrorObject "TypeError"
               ("Cannot read properties of null (reading '" ++ name ++ "')"))
  | JObject members => Return (lookup name members)
  | _ => Return None
  end.

(** [String(v)], which is what [new Error(v)] keeps as its message. *)
Fixpoint ToString (v : JSON.json) : string :=
  match v with
  | JNull => "null"
  | JBool true => "true"
  | JBool false => "false"
  | JNumber n => Str.of_Z n
  | JString s => s
  | JArray items =>
      String.concat ","
        (map (fun x => match x with JNull => EmptyString | _ => ToString x end) items)
  | JObject _ => "[object Object]"
  end.

(** [err instanceof Error ? err.message : "An error occurred"]. *)
Definition message_of (err : thrown) : string :=
  match err with
  | ErrorObject _ message => message
  | NotAnError => "An error occurred"
  end.

(** [String(e || "AI analysis failed")]. *)
Definition error_text (e : option JSON.json) : string :=
  match e with
  | Some v => if truthy v then ToString v else "AI analysis failed"
  | None => "AI analysis failed"
  end.

(** A state variable set to a parsed value: [null] is [null]. *)
Definition stored (v : JSON.json) : option JSON.json :=
  match v with JNull => None | _ => Some v end.

Section Handlers.
Context `{Host} `{Network} `{Prompt.Template} `{Page}.

Definition genome_request (name : string) : request :=
  Client.get_request ("/api/genome/" ++ name).

Definition ai_request (prompt : string) : request :=
  {| url := "/api/ai";
     method := "POST";
     headers := json_headers;
     body := Some (JSON_stringify
                     (JObject [("prompt", JString prompt);
                               ("systemPrompt", JString CANDIDATE_FIT_SYSTEM_PROMPT)])) |}.

(** The [catch] block: the message is shown and the dialog is back at its
    input step.  [g] is the profile state at the time of the throw. *)
Definition failed (s : state) (g : option JSON.json) (err : thrown) : state :=
  {| username := username s; step := input; genome := g;
     analysis := analysis s; error := Some (message_of err) |}.

(** [parseAIResponse(aiData.text)]. *)
Definition parse_text (t : option JSON.json) : completion JSON.json :=
  match t with
  | Some (JString text) => AI.parseAIResponse text
  | other => parseAIResponse_of_other other
  end.

(** [handleAnalyze], from a state to the state when it is done, with the
    requests it made, in order. *)
Definition handleAnalyze (s : state) : state * list request :=
  let name := Words.trim (username s) in
  if negb (Str.nonempty name) then (s, [])
  else
    match Client.getGenome name with
    | Throw err => (failed s (genome s) err, [genome_request name])
    | Return genomeData =>
        let g := stored genomeData in
        match read_genome genomeData with
        | Throw err => (failed s g err, [genome_request name])
        | Return profile =>
            let prompt :=
              Prompt.generateCandidateFitPrompt
                {| Prompt.job := job; Prompt.genome := profile |} in
            let trace := [genome_request name; ai_request prompt] in
            match fetch (ai_request prompt) with
            | Throw err => (failed s g err, trace)
            | Return aiResponse =>
                if negb (ok aiResponse)
                then
                  match json aiResponse with
                  | Throw err => (failed s g err, trace)
                  | Return errorData =>
                      match member errorData "error" with
                      | Throw err => (failed s g err, trace)
                      | Return e =>
                          (failed s g (ErrorObject "Error" (error_text e)), trace)
                      end
                  end
                else
                  match json aiResponse with
                  | Throw err => (failed s g err, trace)
                  | Return aiData =>
                      match member aiData "text" with
                      | Throw err => (failed s g err, trace)
                      | Return t =>
                          match parse_text t with
                          | Throw err => (failed s g err, trace)
                          | Return parsed =>
                              ({| username := username s; step := result;
                                  genome := g; analysis := stored parsed;
                                  error := None |}, trace)
                          end
                      end
                  end
            end
        end
    end.

(** [handleClose], [onClose()] apart. *)
Definition handleClose (s : state) : state :=
  {| username := EmptyString; step := input; genome := None;
     analysis := None; error := None |}.

End Handlers.

End Dialog.

(** ** A reference network, to run the proxy, the client and the dialog

    Its [/api/ai] is the handler of [Route] behind the reference JSON
    reader and SDK; its profile service knows one user. *)

Module RefNet.
Import Http.

Definition reason (status : Z) : string :=
  if (status =? 200)%Z then "OK"
  else if (status =? 400)%Z then "Bad Request"
  else if (status =? 404)%Z then "Not Found"
  else "Internal Server Error".

Definition profile : JSON.json :=
  JObject [("person", JObject [("name", JString "Jane Doe");
                               ("professionalHeadline", JString "Product Designer")])].

Definition no_results : JSON.json :=
  JObject [("total", JNumber 0); ("size", JNumber 0); ("results", JArray [])].

Definition respond (status : Z) (data : JSON.json) : completion response :=
  Return {| status := status; statusText := reason status; json := Return data |}.

Definition serve (e : Route.env) (r : request) : completion response :=
  if String.eqb (url r) "/api/genome/janedoe" then respond 200 profile
  else if prefix "/api/genome/" (url r)
  then respond 404 (JObject [("message", JString "Not found")])
  else if String.eqb (url r) "/api/ai"
  then
    let answer :=
      fst (@Route.POST RefSDK.sdk e
             (match body r with
              | Some text => RefJSON.parse text
              | None => Throw RefJSON.syntax_error
              end)) in
    respond (Route.status answer) (Route.body answer)
  else if prefix "https://search.torre.co/" (url r)
  then respond 200 no_results
  else Throw (ErrorObject "TypeError" "fetch failed").

(** The network when the server has no credential, and when it has one. *)
Definition unconfigured : Network :=
  {| fetch := serve {| Route.GOOGLE_MODEL := None;
                       Route.GOOGLE_GENERATIVE_AI_API_KEY := None |} |}.

Definition configured : Network :=
  {| fetch := serve {| Route.GOOGLE_MODEL := None;
                       Route.GOOGLE_GENERATIVE_AI_API_KEY := Some "valid-key" |} |}.

Definition next : SearchRoute.Next :=
  {| SearchRoute.response_init_error := fun status =>
       if ((status <? 200) || (599 <? status))%Z
       then Some (ErrorObject "RangeError" "init[status] must be in the range of 200 to 599, inclusive.")
       else if ((status =? 204) || (status =? 205) || (status =? 304))%Z
       then Some (ErrorObject "TypeError" "Response constructor: Invalid response status code")
       else None |}.

(** Names and values that need no escaping. *)
Definition url : Client.Url :=
  {| Client.URLSearchParams_toString := fun pairs =>
       String.concat "&" (map (fun kv => fst kv ++ "=" ++ snd kv) pairs) |}.

Definition template : Prompt.Template :=
  {| Prompt.before_remote_line := fun _ => "Analyze the fit of the candidate. ";
     Prompt.after_remote_line := fun _ => " Respond with JSON only." |}.

Definition text_member (name : string) (v : JSON.json) : option string :=
  match v with
  | JObject members =>
      match lookup name members with
      | Some (JString s) => Some s
      | _ => None
      end
  | _ => None
  end.

Definition page : Dialog.Page :=
  {| Dialog.job := {| Torre.objective := "Senior Designer";
                      Torre.organizations := Some [{| Torre.org_name := Some "Acme" |}] |};
     Dialog.read_genome := fun data =>
       match data with
       | JObject members =>
           match lookup "person" members with
           | Some person =>
               Return {| Torre.person :=
                           {| Torre.name := text_member "name" person;
                              Torre.professionalHeadline :=
                                text_member "professionalHeadline" person |};
                         Torre.jobs := None |}
           | None =>
               Throw (ErrorObject "TypeError"
                        "Cannot read properties of undefined (reading 'name')")
           end
       | _ =>
           Throw (ErrorObject "TypeError"
                    "Cannot read properties of undefined (reading 'name')")
       end;
     Dialog.parseAIResponse_of_other := fun _ =>
       Throw (ErrorObject "TypeError" "text.match is not a function") |}.

End RefNet.

(* ================================================================== *)
(** * Part III: properties *)
(* ================================================================== *)

(** ** Strings *)

Module StrFacts.
Import Str.

Lemma append_assoc (a b c : string) : (a ++ b) ++ c = a ++ (b ++ c).
Proof. induction a as [|x a IH]; simpl; [reflexivity | now rewrite IH]. Qed.

Lemma append_empty_r (a : string) : a ++ EmptyString = a.
Proof. induction a as [|x a IH]; simpl; [reflexivity | now rewrite IH]. Qed.

Lemma length_append (a b : string) :
  String.length (a ++ b) = (String.length a + String.length b)%nat.
Proof. induction a as [|x a IH]; simpl; [reflexivity | now rewrite IH]. Qed.

Lemma prefix_append (a b : string) : prefix a (a ++ b) = true.
Proof.
  induction a as [|x a IH]; simpl.
  - now destruct b.
  - destruct (ascii_dec x x) as [_|n]; [exact IH | now elim n].
Qed.

Lemma includes_prefix (s needle : string) :
  prefix needle s = true -> includes s needle = true.
Proof. intros E. destruct s; simpl in *; rewrite E; reflexivity. Qed.

Lemma includes_append_l (a s needle : string) :
  includes s needle = true -> includes (a ++ s) needle = true.
Proof.
  intros E. induction a as [|x a IH]; simpl; [exact E|].
  rewrite IH. apply orb_true_r.
Qed.

(** A text contains each of its segments. *)
Lemma includes_middle (a b c : string) : includes (a ++ b ++ c) b = true.
Proof. apply includes_append_l, includes_prefix, prefix_append. Qed.

Lemma free_of_brace_open (a : ascii) :
  is_brace a = false -> Ascii.eqb a "{" = false /\ Ascii.eqb a "}" = false.
Proof. unfold is_brace. intros E. now apply orb_false_iff in E. Qed.

Lemma from_first_skip (pre r : string) :
  free_of is_brace pre = true ->
  from_first "{" (pre ++ String "{" r) = Some (String "{" r).
Proof.
  induction pre as [|a pre IH]; simpl; intros F; [reflexivity|].
  apply andb_true_iff in F as [Fa F].
  apply negb_true_iff, free_of_brace_open in Fa as [Fa _].
  rewrite Fa. now apply IH.
Qed.


Lemma upto_last_none (post : string) :
  free_of is_brace post = true -> upto_last "}" post = None.
Proof.
  induction post as [|a post IH]; simpl; intros F; [reflexivity|].
  apply andb_true_iff in F as [Fa F].
  apply negb_true_iff, free_of_brace_open in Fa as [_ Fa].
  rewrite (IH F), Fa. reflexivity.
Qed.

Lemma upto_last_close (mid post : string) :
  upto_last "}" post = None ->
  upto_last "}" (mid ++ String "}" post) = Some (mid ++ "}").
Proof.
  intros N. induction mid as [|a mid IH]; simpl.
  - rewrite N. reflexivity.
  - rewrite IH. reflexivity.
Qed.

(** The match of [/\{[\s\S]*\}/] in a brace-delimited text that sits
    between two stretches of prose without braces is that text. *)
Lemma match_braces_embedded (pre mid post : string) :
  free_of is_brace pre = true ->
  free_of is_brace post = true ->
  match_braces (pre ++ String "{" (mid ++ "}") ++ post)
  = Some (String "{" (mid ++ "}")).
Proof.
  intros Fpre Fpost. unfold match_braces.
  change (String "{" (mid ++ "}") ++ post) with (String "{" ((mid ++ "}") ++ post)).
  rewrite from_first_skip by assumption.
  rewrite append_assoc. simpl.
  rewrite upto_last_close by now apply upto_last_none.
  reflexivity.
Qed.


(** *** White space runs *)

Definition all_space (s : string) : bool := free_of (fun c => negb (is_space c)) s.

(** [s] is empty or starts with a character that is not white space. *)
Definition starts_solid (s : string) : bool :=
  match s with
  | EmptyString => true
  | String c _ => negb (is_space c)
  end.

Lemma replace_ws_from_solid (s : string) :
  starts_solid s = true -> replace_ws_from true s = replace_ws_from false s.
Proof.
  destruct s as [|c r]; simpl; [reflexivity|].
  intros S. apply negb_true_iff in S. now rewrite S.
Qed.

Lemma replace_ws_from_run (ws r : string) :
  all_space ws = true -> starts_solid r = true ->
  replace_ws_from true (ws ++ r) = replace_ws r.
Proof.
  intros A S. induction ws as [|c ws IH]; simpl.
  - now apply replace_ws_from_solid.
  - simpl in A. apply andb_true_iff in A as [Ac A].
    rewrite negb_involutive in Ac. rewrite Ac. now apply IH.
Qed.

(** A maximal run of white space becomes one underscore. *)
Lemma replace_ws_run (c : ascii) (ws r : string) :
  is_space c = true -> all_space ws = true -> starts_solid r = true ->
  replace_ws (String c ws ++ r) = String "_" (replace_ws r).
Proof.
  intros C A S. unfold replace_ws at 1. simpl. rewrite C.
  now rewrite replace_ws_from_run.
Qed.

(** Any other character stays. *)
Lemma replace_ws_solid (c : ascii) (r : string) :
  is_space c = false -> replace_ws (String c r) = String c (replace_ws r).
Proof. intros C. unfold replace_ws. simpl. now rewrite C. Qed.

(** No white space is left. *)
Lemma replace_ws_from_free (b : bool) (s : string) :
  free_of is_space (replace_ws_from b s) = true.
Proof.
  revert b. induction s as [|c r IH]; intros b; simpl; [reflexivity|].
  destruct (is_space c) eqn:C.
  - destruct b; simpl; now rewrite ?IH.
  - simpl. now rewrite C, IH.
Qed.

Lemma replace_ws_nonempty (s : string) : nonempty (replace_ws s) = nonempty s.
Proof.
  destruct s as [|c r]; [reflexivity|]. unfold replace_ws. simpl.
  now destruct (is_space c).
Qed.

Lemma substring0_length (n : nat) (s : string) :
  String.length (substring0 n s) = Nat.min n (String.length s).
Proof.
  unfold substring0. revert s.
  induction n as [|n IH]; intros [|c r]; simpl; auto.
Qed.

Lemma substring0_prefix (n : nat) (s : string) : prefix (substring0 n s) s = true.
Proof.
  unfold substring0. revert s.
  induction n as [|n IH]; intros [|c r]; simpl; auto.
  destruct (ascii_dec c c) as [_|N]; [apply IH | now elim N].
Qed.

Lemma free_of_prefix (p : ascii -> bool) (a s : string) :
  prefix a s = true -> free_of p s = true -> free_of p a = true.
Proof.
  revert s. induction a as [|x a IH]; intros [|c r]; simpl; try easy.
  destruct (ascii_dec x c) as [->|]; [|discriminate].
  intros P F. apply andb_true_iff in F as [Fc F]. rewrite Fc. simpl. eauto.
Qed.

End StrFacts.

(** ** The reference JSON host reads back what it writes *)

Module RefJSONFacts.
Import RefJSON StrFacts.

(** The characters a string may hold for the writer's text to be read
    back: everything from the space on, and the five control characters
    that have a two-character escape. *)
Definition writable (c : ascii) : bool :=
  let n := nat_of_ascii c in
  ((32 <=? n) || (n =? 8) || (n =? 9) || (n =? 10) || (n =? 12) || (n =? 13))%nat.

Definition writable_string (s : string) : bool :=
  Str.free_of (fun c => negb (writable c)) s.

(** The values of the fragment: no number, writable strings and keys. *)
Fixpoint readable (v : json) : bool :=
  match v with
  | JNull | JBool _ => true
  | JNumber _ => false
  | JString s => writable_string s
  | JArray items => forallb readable items
  | JObject members =>
      forallb (fun kv => writable_string (fst kv) && readable (snd kv)) members
  end.

(** The fuel that reading a value back takes. *)
Fixpoint need (v : json) : nat :=
  match v with
  | JArray items => S (list_sum (map (fun x => S (need x)) items))
  | JObject members => S (list_sum (map (fun kv => S (need (snd kv))) members))
  | _ => 1
  end.

Section Induction.
Variable P : json -> Prop.
Hypothesis Pnull : P JNull.
Hypothesis Pbool : forall b, P (JBool b).
Hypothesis Pnumber : forall n, P (JNumber n).
Hypothesis Pstring : forall s, P (JString s).
Hypothesis Parray : forall items, Forall P items -> P (JArray items).
Hypothesis Pobject :
  forall members, Forall (fun kv => P (snd kv)) members -> P (JObject members).

Fixpoint json_induction (v : json) : P v :=
  match v with
  | JNull => Pnull
  | JBool b => Pbool b
  | JNumber n => Pnumber n
  | JString s => Pstring s
  | JArray items =>
      Parray items
        ((fix all (l : list json) : Forall P l :=
            match l with
            | [] => Forall_nil P
            | x :: r => Forall_cons x (json_induction x) (all r)
            end) items)
  | JObject members =>
      Pobject members
        ((fix all (l : list (string * json)) : Forall (fun kv => P (snd kv)) l :=
            match l with
            | [] => Forall_nil _
            | kv :: r => Forall_cons kv (json_induction (snd kv)) (all r)
            end) members)
  end.
End Induction.

Lemma substring_all (m : nat) (s : string) :
  (String.length s <= m)%nat -> substring 0 m s = s.
Proof.
  revert m. induction s as [|c r IH]; intros [|m] L; simpl in *; try reflexivity; try lia.
  rewrite IH by lia. reflexivity.
Qed.

Lemma substring_skip (word rest : string) (m : nat) :
  (String.length rest <= m)%nat ->
  substring (String.length word) m (word ++ rest) = rest.
Proof.
  intros L. induction word as [|c w IH]; simpl.
  - now apply substring_all.
  - exact IH.
Qed.

Lemma expect_word (word rest : string) : expect word (word ++ rest) = Some rest.
Proof.
  unfold expect. rewrite prefix_append. f_equal.
  apply substring_skip. rewrite length_append. lia.
Qed.

(** Strings. *)
Lemma read_string_body_quote (s rest : string) :
  writable_string s = true ->
  read_string_body (quote_body s ++ rest) = Some (s, rest).
Proof.
  induction s as [|c r IH]; intros W.
  - reflexivity.
  - unfold writable_string in *. simpl in W.
    apply andb_true_iff in W as [Wc W]. rewrite negb_involutive in Wc.
    specialize (IH W).
    change (quote_body (String c r)) with (escape c ++ quote_body r).
    rewrite append_assoc.
    unfold escape.
    destruct (Ascii.eqb c dquote) eqn:E1.
    { apply Ascii.eqb_eq in E1. subst c. simpl. rewrite IH. reflexivity. }
    destruct (Ascii.eqb c "\") eqn:E2.
    { apply Ascii.eqb_eq in E2. subst c. simpl. rewrite IH. reflexivity. }
    destruct (nat_of_ascii c =? 8)%nat eqn:E3.
    { apply Nat.eqb_eq in E3. apply (f_equal ascii_of_nat) in E3.
      rewrite ascii_nat_embedding in E3. subst c. simpl. rewrite IH. reflexivity. }
    destruct (nat_of_ascii c =? 12)%nat eqn:E4.
    { apply Nat.eqb_eq in E4. apply (f_equal ascii_of_nat) in E4.
      rewrite ascii_nat_embedding in E4. subst c. simpl. rewrite IH. reflexivity. }
    destruct (nat_of_ascii c =? 10)%nat eqn:E5.
    { apply Nat.eqb_eq in E5. apply (f_equal ascii_of_nat) in E5.
      rewrite ascii_nat_embedding in E5. subst c. simpl. rewrite IH. reflexivity. }
    destruct (nat_of_ascii c =? 13)%nat eqn:E6.
    { apply Nat.eqb_eq in E6. apply (f_equal ascii_of_nat) in E6.
      rewrite ascii_nat_embedding in E6. subst c. simpl. rewrite IH. reflexivity. }
    destruct (nat_of_ascii c =? 9)%nat eqn:E7.
    { apply Nat.eqb_eq in E7. apply (f_equal ascii_of_nat) in E7.
      rewrite ascii_nat_embedding in E7. subst c. simpl. rewrite IH. reflexivity. }
    change (String c EmptyString ++ quote_body r ++ rest) with (String c (quote_body r ++ rest)).
    cbn [read_string_body]. rewrite E1, E2, IH.
    unfold writable in Wc. rewrite E3, E4, E5, E6, E7 in Wc.
    rewrite !orb_false_r in Wc. apply Nat.leb_le in Wc.
    destruct (nat_of_ascii c <? 32)%nat eqn:E8; [|reflexivity].
    apply Nat.ltb_lt in E8. lia.
Qed.

(** The first character of a text of the fragment. *)
Definition head_char (v : json) : ascii :=
  match v with
  | JNull => "n"
  | JBool true => "t"
  | JBool false => "f"
  | JNumber _ => "0"
  | JString _ => dquote
  | JArray _ => "["
  | JObject _ => "{"
  end.

Lemma stringify_head (v : json) :
  readable v = true -> exists t, stringify v = String (head_char v) t.
Proof.
  destruct v as [|[|]|n|s|items|members]; simpl; try discriminate;
    intros _; eexists; reflexivity.
Qed.

Definition reads_back (v : json) : Prop :=
  readable v = true ->
  forall fuel rest, (need v <= fuel)%nat ->
    read_value fuel (stringify v ++ rest) = Some (v, rest).

(** *** The reader, one step at a time *)

Lemma skip_ws_solid (c : ascii) (r : string) :
  is_ws c = false -> skip_ws (String c r) = String c r.
Proof. intros E. simpl. now rewrite E. Qed.

Lemma skip_ws_head (v : json) (rest : string) :
  readable v = true -> skip_ws (stringify v ++ rest) = stringify v ++ rest.
Proof.
  intros R. destruct (stringify_head v R) as [t ->].
  apply skip_ws_solid. now destruct v as [|[|]|n|s|items|members].
Qed.

Lemma after_head (c : ascii) (v : json) (rest : string) :
  readable v = true -> Ascii.eqb (head_char v) c = false ->
  after c (stringify v ++ rest) = None.
Proof.
  intros R E. destruct (stringify_head v R) as [t ->]. simpl. now rewrite E.
Qed.

Lemma read_value_null (f : nat) (r : string) :
  read_value (S f) (String "n" r) = option_map (pair JNull) (expect "ull" r).
Proof. reflexivity. Qed.

Lemma read_value_true (f : nat) (r : string) :
  read_value (S f) (String "t" r) = option_map (pair (JBool true)) (expect "rue" r).
Proof. reflexivity. Qed.

Lemma read_value_false (f : nat) (r : string) :
  read_value (S f) (String "f" r) = option_map (pair (JBool false)) (expect "alse" r).
Proof. reflexivity. Qed.

Lemma read_value_string (f : nat) (r : string) :
  read_value (S f) (String dquote r)
  = match read_string_body r with
    | Some (body, rest) => Some (JString body, rest)
    | None => None
    end.
Proof. reflexivity. Qed.

Lemma read_value_array (f : nat) (r : string) :
  read_value (S f) (String "[" r)
  = match after "]" (skip_ws r) with
    | Some rest => Some (JArray [], rest)
    | None =>
        match read_items f r with
        | Some (items, rest) => Some (JArray items, rest)
        | None => None
        end
    end.
Proof. reflexivity. Qed.

Lemma read_value_object (f : nat) (r : string) :
  read_value (S f) (String "{" r)
  = match after "}" (skip_ws r) with
    | Some rest => Some (JObject [], rest)
    | None =>
        match read_members f r with
        | Some (members, rest) => Some (JObject members, rest)
        | None => None
        end
    end.
Proof. reflexivity. Qed.

Lemma read_items_step (f : nat) (s : string) :
  read_items (S f) s
  = match read_value f s with
    | Some (v, rest) =>
        match after "," (skip_ws rest) with
        | Some rest' =>
            match read_items f rest' with
            | Some (vs, rest'') => Some (v :: vs, rest'')
            | None => None
            end
        | None =>
            match after "]" (skip_ws rest) with
            | Some rest' => Some ([v], rest')
            | None => None
            end
        end
    | None => None
    end.
Proof. reflexivity. Qed.

Lemma read_members_step (f : nat) (r : string) :
  read_members (S f) (String dquote r)
  = match read_string_body r with
    | Some (key, rest) =>
        match after ":" (skip_ws rest) with
        | Some rest' =>
            match read_value f rest' with
            | Some (v, rest'') =>
                match after "," (skip_ws rest'') with
                | Some r2 =>
                    match read_members f r2 with
                    | Some (ms, r3) => Some ((key, v) :: ms, r3)
                    | None => None
                    end
                | None =>
                    match after "}" (skip_ws rest'') with
                    | Some r2 => Some ([(key, v)], r2)
                    | None => None
                    end
                end
            | None => None
            end
        | None => None
        end
    | None => None
    end.
Proof. reflexivity. Qed.

(** *** Lists of items and of members *)

Definition items_text (items : list json) : string :=
  String.concat "," (map stringify items).

Definition member_text (kv : string * json) : string :=
  quote (fst kv) ++ ":" ++ stringify (snd kv).

Definition members_text (members : list (string * json)) : string :=
  String.concat "," (map member_text members).

Lemma items_text_cons (v w : json) (ws : list json) :
  items_text (v :: w :: ws) = stringify v ++ String "," (items_text (w :: ws)).
Proof. reflexivity. Qed.

Lemma members_text_cons (kv m : string * json) (ms : list (string * json)) :
  members_text (kv :: m :: ms) = member_text kv ++ String "," (members_text (m :: ms)).
Proof. reflexivity. Qed.

Lemma member_text_eq (k : string) (v : json) (rest : string) :
  member_text (k, v) ++ rest
  = String dquote (quote_body k ++ String ":" (stringify v ++ rest)).
Proof.
  unfold member_text, quote. cbn [fst snd append].
  now rewrite append_assoc.
Qed.

Lemma read_items_back (items : list json) :
  Forall reads_back items ->
  forallb readable items = true ->
  items <> [] ->
  forall fuel rest,
    (list_sum (map (fun x => S (need x)) items) <= fuel)%nat ->
    read_items fuel (items_text items ++ String "]" rest) = Some (items, rest).
Proof.
  induction 1 as [|v vs Hv Hvs IH]; intros R N fuel rest L; [now elim N|].
  cbn [forallb] in R. apply andb_true_iff in R as [Rv Rvs].
  cbn [map] in L. change (list_sum (?a :: ?l)) with (a + list_sum l)%nat in L.
  destruct fuel as [|f]; [lia|].
  rewrite read_items_step.
  destruct vs as [|w ws].
  - change (items_text [v]) with (stringify v).
    rewrite (Hv Rv f _ ltac:(lia)). reflexivity.
  - rewrite items_text_cons, append_assoc. cbn [append].
    rewrite (Hv Rv f _ ltac:(lia)).
    change (after "," (skip_ws (String "," ?r))) with (Some r). cbv beta iota.
    rewrite (IH Rvs ltac:(discriminate) f rest ltac:(lia)).
    reflexivity.
Qed.

Lemma read_members_back (members : list (string * json)) :
  Forall (fun kv => reads_back (snd kv)) members ->
  forallb (fun kv => writable_string (fst kv) && readable (snd kv)) members = true ->
  members <> [] ->
  forall fuel rest,
    (list_sum (map (fun kv => S (need (snd kv))) members) <= fuel)%nat ->
    read_members fuel (members_text members ++ String "}" rest) = Some (members, rest).
Proof.
  induction 1 as [|[k v] ms Hv Hms IH]; intros R N fuel rest L; [now elim N|].
  cbn [forallb fst snd] in R. apply andb_true_iff in R as [Rkv Rms].
  apply andb_true_iff in Rkv as [Rk Rv].
  cbn [map snd] in L. change (list_sum (?a :: ?l)) with (a + list_sum l)%nat in L.
  cbn [snd] in Hv.
  destruct fuel as [|f]; [lia|].
  destruct ms as [|m ms'].
  - change (members_text [(k, v)]) with (member_text (k, v)).
    rewrite member_text_eq, read_members_step.
    rewrite (read_string_body_quote k _ Rk).
    change (after ":" (skip_ws (String ":" ?r))) with (Some r). cbv beta iota.
    rewrite (Hv Rv f _ ltac:(lia)). reflexivity.
  - rewrite members_text_cons, append_assoc. cbn [append].
    rewrite member_text_eq, read_members_step.
    rewrite (read_string_body_quote k _ Rk).
    change (after ":" (skip_ws (String ":" ?r))) with (Some r). cbv beta iota.
    rewrite (Hv Rv f _ ltac:(lia)).
    change (after "," (skip_ws (String "," ?r))) with (Some r). cbv beta iota.
    rewrite (IH Rms ltac:(discriminate) f rest ltac:(lia)).
    reflexivity.
Qed.

(** *** Values *)

Lemma stringify_array (items : list json) (rest : string) :
  stringify (JArray items) ++ rest = String "[" (items_text items ++ String "]" rest).
Proof.
  change (stringify (JArray items)) with (String "[" (items_text items ++ "]")).
  cbn [append]. now rewrite append_assoc.
Qed.

Lemma stringify_object (members : list (string * json)) (rest : string) :
  stringify (JObject members) ++ rest
  = String "{" (members_text members ++ String "}" rest).
Proof.
  change (stringify (JObject members)) with (String "{" (members_text members ++ "}")).
  cbn [append]. now rewrite append_assoc.
Qed.

Lemma items_text_head (v : json) (vs : list json) (rest : string) :
  exists tail, items_text (v :: vs) ++ rest = stringify v ++ tail.
Proof.
  destruct vs as [|w ws].
  - now exists rest.
  - rewrite items_text_cons, append_assoc. now eexists.
Qed.

Lemma head_char_not (c : ascii) (v : json) :
  readable v = true ->
  c = "]"%char \/ c = "}"%char ->
  Ascii.eqb (head_char v) c = false.
Proof.
  intros R [-> | ->]; now destruct v as [|[|]|n|s|items|members].
Qed.

Theorem stringify_reads_back (v : json) : reads_back v.
Proof.
  induction v as [ |b|n|s|items IH|members IH] using json_induction;
    intros R fuel rest L; (destruct fuel as [|f]; [simpl in L; lia|]).
  - change (stringify JNull ++ rest) with (String "n" ("ull" ++ rest)).
    now rewrite read_value_null, expect_word.
  - destruct b.
    + change (stringify (JBool true) ++ rest) with (String "t" ("rue" ++ rest)).
      now rewrite read_value_true, expect_word.
    + change (stringify (JBool false) ++ rest) with (String "f" ("alse" ++ rest)).
      now rewrite read_value_false, expect_word.
  - discriminate.
  - change (stringify (JString s) ++ rest) with (String dquote (quote_body s ++ rest)).
    rewrite read_value_string, read_string_body_quote by exact R. reflexivity.
  - rewrite stringify_array, read_value_array.
    destruct items as [|v vs]; [reflexivity|].
    cbn [readable] in R.
    assert (Rv : readable v = true) by (simpl in R; now apply andb_true_iff in R).
    destruct (items_text_head v vs (String "]" rest)) as [tail E].
    rewrite E, (skip_ws_head v tail Rv),
      (after_head "]" v tail Rv (head_char_not _ v Rv (or_introl eq_refl))), <- E.
    rewrite (read_items_back (v :: vs) IH R ltac:(discriminate) f rest).
    + reflexivity.
    + cbn [need] in L. lia.
  - rewrite stringify_object, read_value_object.
    destruct members as [|[k v] ms]; [reflexivity|].
    cbn [readable] in R.
    destruct ms as [|m ms'].
    + change (members_text [(k, v)]) with (member_text (k, v)).
      rewrite member_text_eq.
      change (after "}" (skip_ws (String dquote ?r))) with (@None string).
      cbv beta iota. rewrite <- member_text_eq.
      change (member_text (k, v)) with (members_text [(k, v)]).
      rewrite (read_members_back [(k, v)] IH R ltac:(discriminate) f rest).
      * reflexivity.
      * cbn [need] in L. lia.
    + rewrite members_text_cons, append_assoc, member_text_eq.
      change (after "}" (skip_ws (String dquote ?r))) with (@None string).
      cbv beta iota. rewrite <- member_text_eq, <- append_assoc, <- members_text_cons.
      rewrite (read_members_back _ IH R ltac:(discriminate) f rest).
      * reflexivity.
      * cbn [need] in L. lia.
Qed.

(** The fuel that [parse] gives is enough. *)
Lemma length_items_text (items : list json) :
  Forall (fun v => (need v <= String.length (stringify v))%nat) items ->
  (list_sum (map (fun x => S (need x)) items) <= String.length (items_text items) + 1)%nat.
Proof.
  induction 1 as [|v vs Hv Hvs IH]; [simpl; lia|].
  cbn [map]. change (list_sum (?a :: ?l)) with (a + list_sum l)%nat.
  destruct vs as [|w ws].
  - change (items_text [v]) with (stringify v). simpl. lia.
  - rewrite items_text_cons, length_append. cbn [String.length]. lia.
Qed.

Lemma length_members_text (members : list (string * json)) :
  Forall (fun kv => (need (snd kv) <= String.length (stringify (snd kv)))%nat) members ->
  (list_sum (map (fun kv => S (need (snd kv))) members)
   <= String.length (members_text members) + 1)%nat.
Proof.
  induction 1 as [|[k v] ms Hv Hms IH]; [simpl; lia|].
  cbn [map snd]. change (list_sum (?a :: ?l)) with (a + list_sum l)%nat.
  cbn [snd] in Hv.
  assert (M : (String.length (stringify v) < String.length (member_text (k, v)))%nat).
  { unfold member_text, quote. cbn [fst snd append String.length].
    rewrite length_append. cbn [String.length]. lia. }
  destruct ms as [|m ms'].
  - change (members_text [(k, v)]) with (member_text (k, v)). simpl list_sum. lia.
  - rewrite members_text_cons, length_append. cbn [String.length]. lia.
Qed.

Lemma need_le_length (v : json) : (need v <= String.length (stringify v))%nat.
Proof.
  induction v as [ |b|n|s|items IH|members IH] using json_induction.
  - simpl. lia.
  - destruct b; simpl; lia.
  - cbn [need stringify]. unfold Str.of_Z.
    destruct (Z.to_int n) as [u|u]; destruct u; simpl; lia.
  - simpl. lia.
  - pose proof (length_items_text items IH) as L.
    change (stringify (JArray items)) with (String "[" (items_text items ++ "]")).
    cbn [need String.length]. rewrite length_append. simpl String.length. lia.
  - pose proof (length_members_text members IH) as L.
    change (stringify (JObject members)) with (String "{" (members_text members ++ "}")).
    cbn [need String.length]. rewrite length_append. simpl String.length. lia.
Qed.

(** The reference host reads back every value of the fragment. *)
Theorem parse_stringify (v : json) :
  readable v = true -> parse (stringify v) = Return v.
Proof.
  intros R. unfold parse.
  rewrite <- (append_empty_r (stringify v)) at 2.
  rewrite (stringify_reads_back v R _ EmptyString).
  - reflexivity.
  - pose proof (need_le_length v). lia.
Qed.

End RefJSONFacts.

(** ** [parseAIResponse] *)

Module AIFacts.
Import Str StrFacts AI.

(** The one sample object of this section, and its text. *)
Definition sample : json :=
  JObject [("jobSummary", JString "A design role at Acme.");
           ("overallFitScore", JString "Strong Match");
           ("matchingSkillsAndStrengths", JArray [JString "Figma"; JString "UX research"]);
           ("unexpected", JNumber 7)].

Definition sample_text : string := RefJSON.stringify sample.

(** The fallback, whatever the host's [JSON.parse] is: when the direct
    parse throws and the text has a brace span, the function completes
    the way [JSON.parse] does on that span. *)
Lemma parseAIResponse_fallback `{Host} (text m : string) (e : thrown) :
  JSON_parse text = Throw e ->
  match_braces text = Some m ->
  parseAIResponse text = JSON_parse m.
Proof. intros E B. unfold parseAIResponse. now rewrite E, B. Qed.

Lemma parseAIResponse_direct `{Host} (text : string) (v : json) :
  JSON_parse text = Return v -> parseAIResponse text = Return v.
Proof. intros E. unfold parseAIResponse. now rewrite E. Qed.

(** C2. A text that [JSON.parse] reads as an object comes back as that
    very object, whatever its members are: [parseAIResponse] completes
    exactly as [JSON.parse] does and checks no field. *)
Theorem parseAIResponse_valid_object `{Host} (s : string)
  (members : list (string * json)) :
  JSON_parse s = Return (JObject members) ->
  parseAIResponse s = JSON_parse s /\
  parseAIResponse s = Return (JObject members).
Proof.
  intros E. rewrite (parseAIResponse_direct s _ E). split; [symmetry|]; auto.
Qed.

Lemma parseAIResponse_valid_object_witness :
  @JSON_parse RefJSON.host sample_text = Return sample /\
  @parseAIResponse RefJSON.host sample_text = Return sample.
Proof.
  assert (E : @JSON_parse RefJSON.host sample_text = Return sample)
    by (vm_compute; reflexivity).
  split; [exact E|].
  exact (proj2 (@parseAIResponse_valid_object RefJSON.host sample_text _ E)).
Defined.

(** C3. Prose without braces around the text of an object: the direct
    parse throws, the brace span from the first opening brace to the
    last closing one is exactly the object's text, and parsing it gives
    the object back.  What is asked of the host is what [JSON.stringify]
    and [JSON.parse] do: the text of an object is enclosed in braces and
    parses to the object, and the text with the prose around it is not
    JSON. *)
Theorem parseAIResponse_brace_span `{Host}
  (members : list (string * json)) (pre post inner : string) (e : thrown) :
  JSON_stringify (JObject members) = String "{" (inner ++ "}") ->
  JSON_parse (JSON_stringify (JObject members)) = Return (JObject members) ->
  free_of is_brace pre = true ->
  free_of is_brace post = true ->
  JSON_parse (pre ++ JSON_stringify (JObject members) ++ post) = Throw e ->
  match_braces (pre ++ JSON_stringify (JObject members) ++ post)
  = Some (JSON_stringify (JObject members)) /\
  parseAIResponse (pre ++ JSON_stringify (JObject members) ++ post)
  = Return (JObject members).
Proof.
  intros Shape Round Fpre Fpost Direct.
  assert (B : match_braces (pre ++ JSON_stringify (JObject members) ++ post)
              = Some (JSON_stringify (JObject members))).
  { rewrite Shape. now apply match_braces_embedded. }
  split; [exact B|].
  rewrite (parseAIResponse_fallback _ _ _ Direct B). exact Round.
Qed.

Lemma parseAIResponse_brace_span_witness :
  @parseAIResponse RefJSON.host ("noise " ++ sample_text ++ " trailing")
  = Return sample.
Proof.
  refine (proj2 (@parseAIResponse_brace_span RefJSON.host
            (match sample with JObject ms => ms | _ => [] end)
            "noise " " trailing"
            (substring 1 (String.length sample_text - 2) sample_text)
            RefJSON.syntax_error _ _ _ _ _)); vm_compute; reflexivity.
Defined.

(** *** The reference host meets what C3 asks of a host *)

(** The text of an object is enclosed in braces. *)
Lemma stringify_object_shape (members : list (string * json)) :
  exists inner,
    RefJSON.stringify (JObject members) = String "{" (inner ++ "}").
Proof.
  eexists. change (RefJSON.stringify (JObject members))
    with (String "{" (String.concat ","
            (map (fun kv => RefJSON.quote (fst kv) ++ ":" ++ RefJSON.stringify (snd kv))
                 members) ++ "}")).
  reflexivity.
Qed.

(** A text that starts with the word [noise] is not JSON. *)
Lemma parse_noise (rest : string) :
  RefJSON.parse ("noise " ++ rest) = Throw RefJSON.syntax_error.
Proof. reflexivity. Qed.

(** With the reference host, every object of the fragment (no number,
    writable strings) comes out of its wrapping of prose. *)
Lemma parseAIResponse_reference_host (members : list (string * json)) :
  RefJSONFacts.readable (JObject members) = true ->
  @parseAIResponse RefJSON.host
    ("noise " ++ RefJSON.stringify (JObject members) ++ " trailing")
  = Return (JObject members).
Proof.
  intros R.
  destruct (stringify_object_shape members) as [inner Shape].
  rewrite (parseAIResponse_fallback (H := RefJSON.host) _
             (RefJSON.stringify (JObject members)) _ (parse_noise _)).
  - exact (RefJSONFacts.parse_stringify _ R).
  - rewrite Shape. now apply match_braces_embedded.
Qed.

(** *** What leaves the function when nothing parses *)







(** C8, as stated, fails.  The text [42] parses directly to a number,
    which is not an object, and the number is what the function
    returns. *)
Lemma parseAIResponse_returns_number :
  @JSON_parse RefJSON.host "42" = Return (JNumber 42) /\
  is_object (JNumber 42) = false /\
  @parseAIResponse RefJSON.host "42" = Return (JNumber 42).
Proof. repeat split; vm_compute; reflexivity. Qed.

(** C8, amended.  The value of the direct parse is returned whenever
    that parse succeeds, also when it is not an object: a number, a
    string, a boolean, [null] or an array comes back as it is. *)
Theorem parseAIResponse_any_value `{Host} (s : string) (v : json) :
  JSON_parse s = Return v ->
  is_object v = false ->
  parseAIResponse s = Return v.
Proof. intros E _. exact (parseAIResponse_direct s v E). Qed.

Lemma parseAIResponse_any_value_witness :
  @parseAIResponse RefJSON.host "null" = Return JNull.
Proof.
  apply (@parseAIResponse_any_value RefJSON.host "null" JNull);
    vm_compute; reflexivity.
Defined.

End AIFacts.

(** ** The [POST] handler *)

Module RouteFacts.
Import Route.

Definition bad_request : response :=
  NextResponse_json (error_body "Prompt is required") 400.

Definition not_configured : response :=
  NextResponse_json
    (error_body "Google API key not configured. Set GOOGLE_GENERATIVE_AI_API_KEY environment variable.")
    500.

(** The model name the handler settles on. *)
Definition chosen_model (e : env) (modelId : option json) : json :=
  or_else modelId
    (or_else (option_map JString (GOOGLE_MODEL e)) (JString "gemini-2.5-flash-lite")).

Definition request_of (e : env) (p s m : option json) : generation_request :=
  {| model := chosen_model e m; system := s; prompt := p |}.

(** A body with a prompt, sent while a credential is configured that
    the service does not accept. *)
Definition hello : json := JObject [("prompt", JString "Say hello")].
Definition no_prompt : json := JObject [("systemPrompt", JString "Be brief")].

Definition rejected_key : env :=
  {| GOOGLE_MODEL := None; GOOGLE_GENERATIVE_AI_API_KEY := Some "revoked-key" |}.
Definition no_key : env :=
  {| GOOGLE_MODEL := None; GOOGLE_GENERATIVE_AI_API_KEY := None |}.

(** C7, as stated, fails in its last part.  The credential is set, the
    service rejects it with its own message; that message mentions
    [API key], so the handler answers with the configuration message
    and not with the message of the error. *)
Lemma POST_hides_other_api_key_errors :
  GOOGLE_GENERATIVE_AI_API_KEY rejected_key <> None /\
  @generateText RefSDK.sdk rejected_key
     (request_of rejected_key (Some (JString "Say hello")) None None)
  = Throw (ErrorObject "AI_APICallError" RefSDK.invalid_key_message) /\
  fst (@POST RefSDK.sdk rejected_key (Return hello)) = not_configured /\
  fst (@POST RefSDK.sdk rejected_key (Return hello))
  <> NextResponse_json (error_body RefSDK.invalid_key_message) 500.
Proof.
  repeat split; try (vm_compute; reflexivity); vm_compute; discriminate.
Qed.

Lemma POST_after_call `{SDK} (e : env) (b : json) (p s m : option json) :
  destructure b = Return (p, s, m) ->
  truthy_opt p = true ->
  POST e (Return b)
  = match generateText e (request_of e p s m) with
    | Return result =>
        (NextResponse_json (success_body result) 200, [request_of e p s m])
    | Throw error => (on_error error, [request_of e p s m])
    end.
Proof. intros D T. unfold POST. rewrite D, T. reflexivity. Qed.

(** C7, amended.  For a body that destructures (any JSON value but
    [null]):
    - a missing or falsy [prompt] is answered 400, and no call to the
      SDK has been made;
    - otherwise one call is made, and when it throws an [Error] the
      answer is 500: with the configuration message when the error's
      message contains [API key] (which is how an unset credential
      shows), with the error's own message when it does not;
    - when it throws something that is not an [Error], the answer is
      500 with a fixed message. *)
Theorem POST_responses `{SDK} (e : env) (b : json) (p s m : option json) :
  destructure b = Return (p, s, m) ->
  (truthy_opt p = false -> POST e (Return b) = (bad_request, [])) /\
  (truthy_opt p = true ->
   forall kind message,
     generateText e (request_of e p s m) = Throw (ErrorObject kind message) ->
     POST e (Return b)
     = (if Str.includes message "API key" then not_configured
        else NextResponse_json (error_body message) 500,
        [request_of e p s m])) /\
  (truthy_opt p = true ->
   generateText e (request_of e p s m) = Throw NotAnError ->
   POST e (Return b)
   = (NextResponse_json (error_body "An unexpected error occurred") 500,
      [request_of e p s m])).
Proof.
  intros D. repeat split.
  - intros F. unfold POST. rewrite D, F. reflexivity.
  - intros T kind message G. rewrite (POST_after_call e b p s m D T), G.
    simpl. now destruct (Str.includes message "API key").
  - intros T G. rewrite (POST_after_call e b p s m D T), G. reflexivity.
Qed.

Lemma POST_responses_witness :
  @POST RefSDK.sdk no_key (Return no_prompt) = (bad_request, []) /\
  @POST RefSDK.sdk no_key (Return hello)
  = (not_configured, [request_of no_key (Some (JString "Say hello")) None None]).
Proof.
  split.
  - refine (proj1 (@POST_responses RefSDK.sdk no_key no_prompt
                     None (Some (JString "Be brief")) None _) _);
      vm_compute; reflexivity.
  - refine (proj1 (proj2 (@POST_responses RefSDK.sdk no_key hello
                     (Some (JString "Say hello")) None None _)) _
              "AI_LoadAPIKeyError" RefSDK.missing_key_message _);
      vm_compute; reflexivity.
Defined.

End RouteFacts.

(** ** Binary64 arithmetic, as far as the percentage needs it *)

Module DoubleFacts.
Import Prompt.
Local Open Scope Z_scope.

Lemma digits2_size (p : positive) : digits2_pos p = Pos.size p.
Proof. induction p; simpl; congruence. Qed.

Lemma digits_bounds (p : positive) :
  2 ^ (Zpos (digits2_pos p) - 1) <= Zpos p < 2 ^ Zpos (digits2_pos p).
Proof.
  rewrite digits2_size. split.
  - pose proof (Pos.size_le p) as L.
    assert (E : 2 ^ Zpos (Pos.size p) = 2 * 2 ^ (Zpos (Pos.size p) - 1)).
    { rewrite <- Z.pow_succ_r by lia. f_equal. lia. }
    assert (Zpos (2 ^ Pos.size p) <= Zpos p~0) by exact L.
    rewrite Pos2Z.inj_pow in H. lia.
  - pose proof (Pos.size_gt p) as L.
    assert (Zpos p < Zpos (2 ^ Pos.size p)) by exact L.
    now rewrite Pos2Z.inj_pow in H.
Qed.

(** Something was lost in the shifts so far. *)
Definition inexact (r : shr_record) : bool := shr_r r || shr_s r.

(** [b] is [a] shifted right by [k] digits. *)
Definition halved (k : Z) (a b : shr_record) : Prop :=
  0 <= shr_m a ->
  0 <= shr_m b /\ shr_m b = shr_m a / 2 ^ k /\
  (inexact a = false -> shr_m a mod 2 ^ k = 0 -> inexact b = false).

Lemma halved_shr_1 (a : shr_record) : halved 1 a (shr_1 a).
Proof.
  destruct a as [m r s]. unfold halved, inexact. simpl shr_m. intros P.
  destruct m as [|[p|p|]|p]; try lia; cbn [shr_1 shr_m shr_r shr_s].
  - repeat split; try reflexivity. intros H _. now rewrite H.
  - repeat split; try lia.
    + rewrite Pos2Z.inj_xI. change (2 ^ 1) with 2.
      apply Z.div_unique with 1; lia.
    + intros _ M. rewrite Pos2Z.inj_xI in M. change (2 ^ 1) with 2 in M.
      rewrite Z.add_comm, Z.mul_comm, Z.mod_add in M by lia. discriminate.
  - repeat split; try lia.
    + rewrite Pos2Z.inj_xO. change (2 ^ 1) with 2.
      apply Z.div_unique with 0; lia.
    + intros H _. now rewrite H.
  - repeat split; try lia. intros _ M. discriminate.
Qed.

Lemma halved_trans (j k : Z) (a b c : shr_record) :
  0 <= j -> 0 <= k -> halved j a b -> halved k b c -> halved (j + k) a c.
Proof.
  intros J K H1 H2 P. destruct (H1 P) as (P1 & E1 & X1).
  destruct (H2 P1) as (P2 & E2 & X2).
  assert (A : 0 < 2 ^ j) by (apply Z.pow_pos_nonneg; lia).
  assert (B : 0 < 2 ^ k) by (apply Z.pow_pos_nonneg; lia).
  rewrite Z.pow_add_r by lia.
  split; [exact P2|]. split.
  - rewrite E2, E1. apply Z.div_div; lia.
  - intros I M. rewrite Z.rem_mul_r in M by lia.
    pose proof (Z.mod_pos_bound (shr_m a) (2 ^ j) A).
    pose proof (Z.mod_pos_bound (shr_m a / 2 ^ j) (2 ^ k) B).
    apply X2; [apply X1; [exact I | nia] | rewrite E1; nia].
Qed.

Lemma halved_iter (n : positive) (a : shr_record) :
  halved (Zpos n) a (iter_pos shr_1 n a).
Proof.
  revert a. induction n as [n IH|n IH|]; intros a; cbn [iter_pos].
  - replace (Zpos n~1) with (1 + (Zpos n + Zpos n)) by lia.
    apply halved_trans with (shr_1 a); try lia; [apply halved_shr_1|].
    apply halved_trans with (iter_pos shr_1 n (shr_1 a)); try lia; apply IH.
  - replace (Zpos n~0) with (Zpos n + Zpos n) by lia.
    apply halved_trans with (iter_pos shr_1 n a); try lia; apply IH.
  - apply halved_shr_1.
Qed.

Lemma shr_spec (a : shr_record) (e n : Z) :
  0 <= shr_m a ->
  snd (shr a e n) = e + Z.max 0 n /\
  0 <= shr_m (fst (shr a e n)) /\
  shr_m (fst (shr a e n)) = shr_m a / 2 ^ Z.max 0 n /\
  (inexact a = false -> shr_m a mod 2 ^ Z.max 0 n = 0 ->
   inexact (fst (shr a e n)) = false).
Proof.
  intros P. destruct n as [|n|n]; cbn [shr fst snd].
  - change (Z.max 0 0) with 0. rewrite Z.add_0_r, Z.pow_0_r, Z.div_1_r. auto.
  - replace (Z.max 0 (Zpos n)) with (Zpos n) by lia.
    destruct (halved_iter n a P) as (P1 & E1 & X1). auto.
  - replace (Z.max 0 (Zneg n)) with 0 by lia.
    rewrite Z.add_0_r, Z.pow_0_r, Z.div_1_r. auto.
Qed.

Lemma inexact_of_loc (m : Z) (l : location) :
  shr_m (shr_record_of_loc m l) = m /\
  (l = loc_Exact -> inexact (shr_record_of_loc m l) = false).
Proof. split; [now destruct l as [|[]] | now intros ->]. Qed.

Lemma round_spec (a : shr_record) :
  shr_m a <= round_nearest_even (shr_m a) (loc_of_shr_record a) <= shr_m a + 1 /\
  (inexact a = false -> round_nearest_even (shr_m a) (loc_of_shr_record a) = shr_m a).
Proof.
  destruct a as [m [] []]; unfold inexact; cbn; try destruct (Z.even m);
    split; try lia; intros; try discriminate; reflexivity.
Qed.

Lemma fexp_normal (e : Z) : -1074 <= e - 53 -> fexp prec emax e = e - 53.
Proof. unfold fexp, emin, prec, emax. lia. Qed.

(** Rounding a positive value that does not pass [K], a number of the
    format, gives a finite number that does not pass [K]. *)
Lemma binary_round_aux_le (s : bool) (mx ex : Z) (lx : location) (K : Z) :
  0 < mx -> ex <= 0 -> 0 < K < 2 ^ 53 ->
  -1074 <= Zdigits2 mx + ex - 53 ->
  (match lx with loc_Exact => mx | _ => mx + 1 end) <= K * 2 ^ (- ex) ->
  exists m e,
    binary_round_aux prec emax s mx ex lx = S754_finite s m e /\
    ex <= e <= 0 /\ Zpos m <= K * 2 ^ (- e).
Proof.
  intros Pm Ee [PK UK] Nr U.
  destruct mx as [|p|p]; try lia. cbn [Zdigits2] in Nr.
  pose proof (digits_bounds p) as [D1 D2].
  set (d := Zpos (digits2_pos p)) in *.
  assert (Um : Zpos p <= K * 2 ^ (- ex)) by (destruct lx; lia).
  assert (X0 : 0 < 2 ^ (- ex)) by (apply Z.pow_pos_nonneg; lia).
  assert (Dd : d + ex - 53 <= 0).
  { assert (L : 2 ^ (d - 1) < 2 ^ (53 - ex)).
    { replace (53 - ex) with (53 + - ex) by lia. rewrite Z.pow_add_r by lia. nia. }
    apply Z.pow_lt_mono_r_iff in L; lia. }
  unfold binary_round_aux, shr_fexp. cbn [Zdigits2]. fold d.
  rewrite (fexp_normal (d + ex)) by lia.
  destruct (inexact_of_loc (Zpos p) lx) as [M0 I0].
  set (a := shr_record_of_loc (Zpos p) lx) in *.
  assert (P0 : 0 <= shr_m a) by lia.
  destruct (shr_spec a ex (d + ex - 53 - ex) P0) as (E1 & P1 & M1 & I1).
  destruct (shr a ex (d + ex - 53 - ex)) as [a1 e1]. cbn [fst snd] in *.
  set (N := Z.max 0 (d + ex - 53 - ex)) in *.
  assert (XN : 0 < 2 ^ N) by (apply Z.pow_pos_nonneg; lia).
  assert (Ee1 : ex <= e1 <= 0) by lia.
  destruct (round_spec a1) as [[R1 R2] R3].
  set (m1 := round_nearest_even (shr_m a1) (loc_of_shr_record a1)) in *.
  assert (S : 2 ^ (- ex) = 2 ^ (- e1) * 2 ^ N).
  { rewrite <- Z.pow_add_r by lia. f_equal. lia. }
  assert (X1 : 0 < 2 ^ (- e1)) by (apply Z.pow_pos_nonneg; lia).
  rewrite M0 in M1.
  assert (Pm1 : 0 < m1).
  { assert (2 ^ N <= Zpos p).
    { apply Z.le_trans with (2 ^ (d - 1)); [|exact D1].
      apply Z.pow_le_mono_r; lia. }
    assert (1 <= Zpos p / 2 ^ N) by (apply Z.div_le_lower_bound; lia).
    lia. }
  assert (Um1 : m1 <= K * 2 ^ (- e1)).
  { destruct (inexact a1) eqn:Ia.
    - assert (Zpos p < K * 2 ^ (- e1) * 2 ^ N).
      { destruct lx as [|c].
        - destruct (Z.eq_dec (Zpos p mod 2 ^ N) 0) as [Z0|Z0].
          + rewrite M0 in I1. pose proof (I1 (I0 eq_refl) Z0). congruence.
          + destruct (Z.eq_dec (Zpos p) (K * 2 ^ (- e1) * 2 ^ N)) as [Q|Q]; [|nia].
            rewrite Q, Z.mod_mul in Z0 by lia. congruence.
        - nia. }
      assert (Zpos p / 2 ^ N < K * 2 ^ (- e1)) by (apply Z.div_lt_upper_bound; nia).
      lia.
    - assert (E : m1 = shr_m a1) by (apply R3; reflexivity).
      rewrite E, M1. apply Z.div_le_upper_bound; nia. }
  destruct m1 as [|q|q] eqn:Em1; try lia.
  cbn [Zdigits2].
  pose proof (digits_bounds q) as [Q1 Q2].
  set (dq := Zpos (digits2_pos q)) in *.
  assert (Dq : dq + e1 - 53 <= 0).
  { assert (L : 2 ^ (dq - 1) < 2 ^ (53 - e1)).
    { replace (53 - e1) with (53 + - e1) by lia. rewrite Z.pow_add_r by lia. nia. }
    apply Z.pow_lt_mono_r_iff in L; lia. }
  assert (Nq : -1074 <= dq + e1 - 53).
  { assert (d - N <= dq); [|lia].
    assert (L : 2 ^ (d - 1 - N) < 2 ^ dq); [|apply Z.pow_lt_mono_r_iff in L; lia].
    apply Z.le_lt_trans with (Zpos q); [|exact Q2].
    apply Z.le_trans with (shr_m a1); [|lia].
    rewrite M1. apply Z.div_le_lower_bound; [lia|].
    rewrite <- Z.pow_add_r by lia. replace (N + (d - 1 - N)) with (d - 1) by lia.
    exact D1. }
  rewrite (fexp_normal (dq + e1)) by lia.
  destruct (inexact_of_loc (Zpos q) loc_Exact) as [M2 _].
  set (a2 := shr_record_of_loc (Zpos q) loc_Exact) in *.
  assert (P2 : 0 <= shr_m a2) by lia.
  destruct (shr_spec a2 e1 (dq + e1 - 53 - e1) P2) as (E3 & P3 & M3 & _).
  destruct (shr a2 e1 (dq + e1 - 53 - e1)) as [a3 e3]. cbn [fst snd] in *.
  set (N2 := Z.max 0 (dq + e1 - 53 - e1)) in *.
  assert (XN2 : 0 < 2 ^ N2) by (apply Z.pow_pos_nonneg; lia).
  assert (S2 : 2 ^ (- e1) = 2 ^ (- e3) * 2 ^ N2).
  { rewrite <- Z.pow_add_r by lia. f_equal. lia. }
  assert (X3 : 0 < 2 ^ (- e3)) by (apply Z.pow_pos_nonneg; lia).
  rewrite M2 in M3.
  assert (L3 : 1 <= shr_m a3).
  { rewrite M3. apply Z.div_le_lower_bound; [lia|].
    apply Z.le_trans with (2 ^ (dq - 1)); [|lia].
    rewrite Z.mul_1_r. apply Z.pow_le_mono_r; lia. }
  assert (U3 : shr_m a3 <= K * 2 ^ (- e3)).
  { rewrite M3. apply Z.div_le_upper_bound; nia. }
  destruct (shr_m a3) as [|m3|m3]; try lia.
  exists m3, e3.
  replace (e3 <=? emax - prec) with true
    by (symmetry; apply Z.leb_le; unfold emax, prec; lia).
  repeat split; try lia.
Qed.

Lemma iter_xO (p k : positive) :
  Zpos (Pos.iter xO p k) = Zpos p * 2 ^ Zpos k /\
  digits2_pos (Pos.iter xO p k) = (digits2_pos p + k)%positive.
Proof.
  induction k as [|k [IH1 IH2]] using Pos.peano_ind.
  - cbn. split; [lia|]. now rewrite Pos.add_1_r.
  - rewrite Pos.iter_succ. split.
    + rewrite Pos2Z.inj_xO, IH1, Pos2Z.inj_succ, Z.pow_succ_r by lia. lia.
    + cbn [digits2_pos]. rewrite IH2. lia.
Qed.

(** A number of 53 digits is in the format as it is. *)
Lemma binary_round_aux_exact (s : bool) (m : positive) (e : Z) :
  Zpos (digits2_pos m) = 53 -> -1074 <= e <= 971 ->
  binary_round_aux prec emax s (Zpos m) e loc_Exact = S754_finite s m e.
Proof.
  intros D E. unfold binary_round_aux, shr_fexp. cbn [Zdigits2].
  rewrite D, (fexp_normal (53 + e)) by lia.
  replace (53 + e - 53 - e) with 0 by lia.
  cbn [shr shr_record_of_loc shr_m loc_of_shr_record round_nearest_even Zdigits2].
  rewrite D, (fexp_normal (53 + e)) by lia.
  replace (53 + e - 53 - e) with 0 by lia.
  cbn [shr shr_record_of_loc shr_m].
  replace (e <=? emax - prec) with true
    by (symmetry; apply Z.leb_le; unfold emax, prec; lia).
  reflexivity.
Qed.

(** An integer below 2^53 is a number of the format: its mantissa has 53
    digits and nothing is lost. *)
Lemma Number_of_nat_exact (n : nat) :
  0 < Z.of_nat n < 2 ^ 53 ->
  exists m e,
    Number_of_nat n = S754_finite false m e /\
    Zpos (digits2_pos m) = 53 /\ -52 <= e <= 0 /\
    Zpos m = Z.of_nat n * 2 ^ (- e).
Proof.
  intros [P U]. unfold Number_of_nat.
  destruct (Z.of_nat n) as [|p|p]; try lia.
  cbn [binary_normalize]. unfold binary_round, shl_align.
  pose proof (digits_bounds p) as [D1 D2].
  set (d := Zpos (digits2_pos p)) in *.
  assert (Dd : 1 <= d <= 53).
  { split; [unfold d; lia|].
    assert (L : 2 ^ (d - 1) < 2 ^ 53) by lia.
    apply Z.pow_lt_mono_r_iff in L; lia. }
  rewrite Z.add_0_r, (fexp_normal d) by lia. rewrite Z.sub_0_r.
  destruct (d - 53) as [|k|k] eqn:K; try lia.
  - exists p, 0. rewrite binary_round_aux_exact by (fold d; lia).
    repeat split; try lia.
  - destruct (iter_xO p k) as [V G].
    exists (Pos.iter xO p k), (Zneg k).
    rewrite binary_round_aux_exact; [| rewrite G, Pos2Z.inj_add; fold d; lia | lia].
    repeat split; try lia.
    rewrite V. reflexivity.
Qed.

(** The quotient of two numbers of 53 digits, the first not greater
    than the second, is a finite number not greater than 1. *)
Lemma divide_le_1 (ma mb : positive) (ea eb : Z) (r t : Z) :
  Zpos (digits2_pos ma) = 53 -> Zpos (digits2_pos mb) = 53 ->
  -52 <= ea <= 0 -> -52 <= eb <= 0 ->
  Zpos ma = r * 2 ^ (- ea) -> Zpos mb = t * 2 ^ (- eb) ->
  r <= t ->
  exists m e,
    SFdiv prec emax (S754_finite false ma ea) (S754_finite false mb eb)
    = S754_finite false m e /\
    -105 <= e <= 0 /\ Zpos m <= 2 ^ (- e).
Proof.
  intros Da Db Ea Eb Va Vb L.
  pose proof (digits_bounds ma) as [A1 A2]. rewrite Da in A1, A2.
  pose proof (digits_bounds mb) as [B1 B2]. rewrite Db in B1, B2.
  assert (Xa : 0 < 2 ^ (- ea)) by (apply Z.pow_pos_nonneg; lia).
  assert (Xb : 0 < 2 ^ (- eb)) by (apply Z.pow_pos_nonneg; lia).
  assert (O : ea <= eb).
  { destruct (Z_le_gt_dec ea eb) as [|G]; [assumption|exfalso].
    assert (S : 2 ^ (- eb) = 2 ^ (- ea) * 2 ^ (ea - eb)).
    { rewrite <- Z.pow_add_r by lia. f_equal. lia. }
    assert (2 <= 2 ^ (ea - eb)).
    { change 2 with (2 ^ 1) at 1. apply Z.pow_le_mono_r; lia. }
    assert (0 < r) by nia.
    change (2 ^ (53 - 1)) with 4503599627370496 in *.
    change (2 ^ 53) with 9007199254740992 in *. nia. }
  assert (S : 2 ^ (- ea) = 2 ^ (- eb) * 2 ^ (eb - ea)).
  { rewrite <- Z.pow_add_r by lia. f_equal. lia. }
  assert (Xd : 0 < 2 ^ (eb - ea)) by (apply Z.pow_pos_nonneg; lia).
  assert (Lm : Zpos ma <= Zpos mb * 2 ^ (eb - ea)) by nia.
  unfold SFdiv, SFdiv_core_binary. cbn [Zdigits2]. rewrite Da, Db.
  replace (53 + ea - (53 + eb)) with (ea - eb) by lia.
  rewrite (fexp_normal (ea - eb)) by lia.
  replace (Z.min (ea - eb - 53) (ea - eb)) with (ea - eb - 53) by lia.
  replace (ea - eb - (ea - eb - 53)) with 53 by lia.
  rewrite Z.shiftl_mul_pow2 by lia.
  pose proof (Z_div_mod (Zpos ma * 2 ^ 53) (Zpos mb) eq_refl) as Q.
  destruct (Z.div_eucl (Zpos ma * 2 ^ 53) (Zpos mb)) as [q rem].
  destruct Q as [Q R].
  cbn [xorb].
  assert (P53 : 2 ^ 53 = 9007199254740992) by reflexivity.
  change (2 ^ (53 - 1)) with 4503599627370496 in *.
  assert (Pq : 0 < q) by nia.
  assert (T : 2 ^ (- (ea - eb - 53)) = 2 ^ 53 * 2 ^ (eb - ea)).
  { rewrite <- Z.pow_add_r by lia. f_equal. lia. }
  destruct (binary_round_aux_le false q (ea - eb - 53) (new_location (Zpos mb) rem) 1)
    as (m & e & E & Be & Bm).
  - exact Pq.
  - lia.
  - rewrite P53. lia.
  - destruct q as [|q|q]; try lia. cbn [Zdigits2]. lia.
  - rewrite T, Z.mul_1_l.
    destruct (Z.eq_dec rem 0) as [Z0|Z0].
    + assert (q <= 2 ^ 53 * 2 ^ (eb - ea)) by nia.
      subst rem. unfold new_location, new_location_even, new_location_odd.
      destruct (Z.even (Zpos mb)); exact H.
    + assert (q + 1 <= 2 ^ 53 * 2 ^ (eb - ea)) by nia.
      destruct (new_location (Zpos mb) rem) as [|c]; nia.
  - exists m, e. split; [exact E|]. split; [lia|]. lia.
Qed.

(** A hundred times a number not greater than 1 is a finite number not
    greater than 100. *)
Lemma times_hundred_le (mx : positive) (ex : Z) :
  -105 <= ex <= 0 -> Zpos mx <= 2 ^ (- ex) ->
  exists m e,
    SFmul prec emax (S754_finite false mx ex) (Number_of_nat 100)
    = S754_finite false m e /\
    e <= 0 /\ Zpos m <= 100 * 2 ^ (- e).
Proof.
  intros Ee U.
  change (Number_of_nat 100) with (S754_finite false 7036874417766400 (-46)).
  cbn [SFmul xorb].
  assert (Xe : 0 < 2 ^ (- ex)) by (apply Z.pow_pos_nonneg; lia).
  assert (T : 2 ^ (- (ex + -46)) = 2 ^ (- ex) * 70368744177664).
  { replace (- (ex + -46)) with (- ex + 46) by lia.
    rewrite Z.pow_add_r by lia. reflexivity. }
  destruct (binary_round_aux_le false (Zpos (mx * 7036874417766400)) (ex + -46)
              loc_Exact 100) as (m & e & E & Be & Bm).
  - lia.
  - lia.
  - split; [lia | reflexivity].
  - cbn [Zdigits2]. lia.
  - rewrite T, Pos2Z.inj_mul. nia.
  - exists m, e. split; [exact E|]. split; [lia | exact Bm].
Qed.

End DoubleFacts.

(** ** The remote-work percentage of the prompt *)

Module PromptFacts.
Import Torre Prompt.

Lemma remote_le_total (g : GenomeResponse) :
  (remoteJobsCount g <= totalJobsCount g)%nat.
Proof.
  unfold remoteJobsCount, totalJobsCount.
  destruct (jobs g) as [js|]; [apply filter_length_le | apply Nat.le_refl].
Qed.

Lemma round_bounds (q : Q) :
  0 <= q <= 100 -> (0 <= Qfloor (q + (1 # 2)) <= 100)%Z.
Proof.
  intros [L U]. split.
  - change 0%Z with (Qfloor 0). apply Qfloor_resp_le. lra.
  - change 100%Z with (Qfloor (100 + (1 # 2))). apply Qfloor_resp_le. lra.
Qed.

(** Rounding a finite number between 0 and 100 gives an integer between
    0 and 100. *)
Lemma Math_round_bounds (m : positive) (e : Z) :
  (e <= 0)%Z -> (Zpos m <= 100 * 2 ^ (- e))%Z ->
  exists p, Math_round (S754_finite false m e) = Integer p /\ (0 <= p <= 100)%Z.
Proof.
  intros E U. eexists. split; [reflexivity|]. apply round_bounds.
  destruct e as [|k|k]; try lia; cbn [value cond_Zopp].
  - change (2 ^ (- 0))%Z with 1%Z in U. change (2 ^ 0)%Z with 1%Z.
    unfold Qle. simpl. lia.
  - change (- Z.neg k)%Z with (Zpos k) in U.
    unfold Qle. cbn [Qnum Qden]. rewrite Pos2Z.inj_pow. lia.
Qed.

(** The percentage of [r] out of [t], for counts below 2^53 with
    [r <= t] and [t] positive: the divisor is a finite number that is not
    zero, and the rounded result is an integer between 0 and 100. *)
Lemma percent_bounds (r t : nat) :
  (r <= t)%nat -> (0 < t)%nat -> (Z.of_nat t < 2 ^ 53)%Z ->
  (exists m e, Number_of_nat t = S754_finite false m e) /\
  exists p,
    Math_round (times (divide (Number_of_nat r) (Number_of_nat t)) (Number_of_nat 100))
    = Integer p /\ (0 <= p <= 100)%Z.
Proof.
  intros L P U.
  destruct (DoubleFacts.Number_of_nat_exact t) as (mb & eb & Nt & Db & Eb & Vb); [lia|].
  split; [now exists mb, eb|]. rewrite Nt.
  destruct r as [|r].
  - exists 0%Z. split; [reflexivity | lia].
  - destruct (DoubleFacts.Number_of_nat_exact (S r)) as (ma & ea & Nr & Da & Ea & Va);
      [lia|].
    rewrite Nr.
    destruct (DoubleFacts.divide_le_1 ma mb ea eb (Z.of_nat (S r)) (Z.of_nat t)
                Da Db Ea Eb Va Vb) as (m & e & Q & Be & Bm); [lia|].
    unfold divide. rewrite Q.
    destruct (DoubleFacts.times_hundred_le m e Be Bm) as (m' & e' & T & Be' & Bm').
    unfold times. rewrite T.
    now apply Math_round_bounds.
Qed.

(** C10. For a job list of a length that an array can have (below
    2^32): the percentage is always an integer between 0 and 100,
    never [NaN] or an infinity.  It is 0 when there is no job list or an
    empty one, without any division; otherwise the division is by a
    finite number that is not zero and the percentage is
    [Math.round(remote / total * 100)] in the arithmetic of binary64.
    The prompt contains that integer, in decimal, in its remote-work
    line. *)
Theorem remoteExperiencePercent_defined (g : GenomeResponse) :
  (Z.of_nat (totalJobsCount g) < 2 ^ 32)%Z ->
  exists p : Z,
    remoteExperiencePercent g = Integer p /\
    (0 <= p <= 100)%Z /\
    (jobs g = None \/ jobs g = Some [] -> p = 0%Z) /\
    ((0 < totalJobsCount g)%nat ->
     (exists m e, Number_of_nat (totalJobsCount g) = S754_finite false m e) /\
     Math_round (times (divide (Number_of_nat (remoteJobsCount g))
                               (Number_of_nat (totalJobsCount g)))
                       (Number_of_nat 100))
     = Integer p) /\
    (forall (T : Template) (input : CandidateFitAnalysisInput),
        genome input = g ->
        Str.includes (generateCandidateFitPrompt input)
          ("**Remote Work Experience:** " ++ Str.of_nat (remoteJobsCount g)
             ++ " out of " ++ Str.of_nat (totalJobsCount g)
             ++ " positions (" ++ Str.of_Z p ++ "%)") = true).
Proof.
  intros B.
  destruct (Nat.ltb 0 (totalJobsCount g)) eqn:E.
  - apply Nat.ltb_lt in E.
    assert (U : (Z.of_nat (totalJobsCount g) < 2 ^ 53)%Z).
    { apply Z.lt_trans with (2 ^ 32)%Z; [exact B | reflexivity]. }
    destruct (percent_bounds _ _ (remote_le_total g) E U) as (F & p & M & Bp).
    exists p.
    assert (R : remoteExperiencePercent g = Integer p).
    { unfold remoteExperiencePercent.
      apply Nat.ltb_lt in E. now rewrite E. }
    split; [exact R|]. split; [exact Bp|]. split; [|split].
    + intros [N|N]; unfold totalJobsCount in E; rewrite N in E; simpl in E; lia.
    + intros _. split; [exact F | exact M].
    + intros T input G. unfold generateCandidateFitPrompt, remote_line.
      rewrite G, R. apply StrFacts.includes_middle.
  - exists 0%Z.
    assert (R : remoteExperiencePercent g = Integer 0).
    { unfold remoteExperiencePercent. now rewrite E. }
    apply Nat.ltb_ge in E.
    split; [exact R|]. split; [lia|]. split; [reflexivity|]. split; [lia|].
    intros T input G. unfold generateCandidateFitPrompt, remote_line.
    rewrite G, R. apply StrFacts.includes_middle.
Qed.

(** 23 remote jobs out of 40: the quotient is the number just below
    0.575, a hundred times it just below 57.5, and the percentage 57. *)
Definition experience (r : option bool) : GenomeExperience :=
  {| exp_name := "Designer"; exp_organizations := None;
     fromMonth := None; fromYear := None; toMonth := None; toYear := None;
     remote := r; additionalInfo := None |}.

Definition designer : GenomePerson :=
  {| name := Some "Jane Doe"; professionalHeadline := Some "Product Designer" |}.

Definition forty_jobs : GenomeResponse :=
  {| person := designer;
     jobs := Some (repeat (experience (Some true)) 23
                     ++ repeat (experience None) 17)%list |}.

Definition no_jobs : GenomeResponse := {| person := designer; jobs := None |}.

Lemma remoteExperiencePercent_defined_witness :
  remoteExperiencePercent forty_jobs = Integer 57 /\
  remoteExperiencePercent no_jobs = Integer 0.
Proof.
  split.
  - destruct (remoteExperiencePercent_defined forty_jobs) as (p & R & _ & _ & V & _).
    + vm_compute. reflexivity.
    + assert (P : (0 < totalJobsCount forty_jobs)%nat) by (vm_compute; lia).
      destruct (V P) as [_ Ep].
      assert (C : Math_round (times (divide (Number_of_nat (remoteJobsCount forty_jobs))
                                            (Number_of_nat (totalJobsCount forty_jobs)))
                                    (Number_of_nat 100))
                  = Integer 57) by (vm_compute; reflexivity).
      rewrite C in Ep. rewrite R. symmetry. exact Ep.
  - destruct (remoteExperiencePercent_defined no_jobs) as (p & R & _ & Z0 & _).
    + vm_compute. reflexivity.
    + rewrite (Z0 (or_introl eq_refl)) in R. exact R.
Defined.

End PromptFacts.

(** ** The report *)

Module ReportFacts.
Import Torre Report.
Local Open Scope pdf_scope.

(** *** The state monad *)

Lemma snd_bind {A B} (m : M A) (k : A -> M B) (b : builder) :
  snd (bind m k b) = snd (k (fst (m b)) (snd (m b))).
Proof. unfold bind. now destruct (m b). Qed.

(** [m] keeps the property [P] of the state. *)
Definition keeps (P : builder -> Prop) {A} (m : M A) : Prop :=
  forall b, P b -> P (snd (m b)).

Section Keeps.
Variable P : builder -> Prop.

Lemma keeps_ret {A} (a : A) : keeps P (ret a).
Proof. intros b Pb. exact Pb. Qed.

Lemma keeps_bind {A B} (m : M A) (k : A -> M B) :
  keeps P m -> (forall a, keeps P (k a)) -> keeps P (bind m k).
Proof. intros Km Kk b Pb. rewrite snd_bind. now apply Kk, Km. Qed.

Lemma keeps_get_y : keeps P get_y.
Proof. intros b Pb. exact Pb. Qed.

Lemma keeps_split `{Canvas} (s : string) (w : Q) : keeps P (split s w).
Proof. intros b Pb. exact Pb. Qed.

Lemma keeps_forEach {A} (l : list A) (f : A -> M unit) :
  (forall x, keeps P (f x)) -> keeps P (forEach l f).
Proof.
  intros Kf. induction l as [|x l IH]; simpl.
  - apply keeps_ret.
  - apply keeps_bind; [apply Kf | intros _; exact IH].
Qed.

Lemma keeps_when (c : bool) (m : M unit) : keeps P m -> keeps P (when c m).
Proof. intros K. destruct c; simpl; [exact K | apply keeps_ret]. Qed.

Lemma keeps_if_text (s : option string) (k : string -> M unit) :
  (forall t, keeps P (k t)) -> keeps P (if_text s k).
Proof.
  intros K. destruct s as [t|]; simpl; [apply keeps_when, K | apply keeps_ret].
Qed.

Lemma keeps_if_items (l : option (list string)) (k : list string -> M unit) :
  (forall t, keeps P (k t)) -> keeps P (if_items l k).
Proof.
  intros K. destruct l as [[|i r]|]; simpl; try apply keeps_ret. apply K.
Qed.

Lemma keeps_if_present {A} (o : option A) (k : A -> M unit) :
  (forall a, keeps P (k a)) -> keeps P (if_present o k).
Proof. intros K. destruct o; simpl; [apply K | apply keeps_ret]. Qed.
End Keeps.

(** *** Pages are never lost *)

Lemma draw_at_length (i : nat) (x : draw) (ps : list (list draw)) :
  List.length (draw_at i x ps) = List.length ps.
Proof.
  revert i. induction ps as [|p r IH]; intros [|k]; simpl; auto.
Qed.

Definition page_count (b : builder) : nat := List.length (pages (pdf b)).

Definition has_a_page (b : builder) : Prop := (1 <= page_count b)%nat.

(** A method of the document that removes no page. *)
Definition grows (f : jsPDF -> jsPDF) : Prop :=
  forall d, (List.length (pages d) <= List.length (pages (f d)))%nat.

Lemma grows_put (x : jsPDF -> draw) : grows (fun d => put (x d) d).
Proof. intros d. simpl. now rewrite draw_at_length. Qed.

Lemma grows_text lines x y a : grows (text lines x y a).
Proof. exact (grows_put (fun d => Text lines x y a (textState d))). Qed.

Lemma grows_rect x y w h : grows (rect x y w h).
Proof. exact (grows_put (fun d => Rect x y w h (fillColor d))). Qed.

Lemma grows_roundedRect x y w h rx ry : grows (roundedRect x y w h rx ry).
Proof. exact (grows_put (fun d => RoundedRect x y w h rx ry (fillColor d))). Qed.

Lemma grows_circle x y r : grows (circle x y r).
Proof. exact (grows_put (fun d => Circle x y r (fillColor d))). Qed.

Lemma grows_setFont n s : grows (setFont n s).
Proof. intros d. apply Nat.le_refl. Qed.

Lemma grows_setFontSize s : grows (setFontSize s).
Proof. intros d. apply Nat.le_refl. Qed.

Lemma grows_setTextColor r g b : grows (setTextColor r g b).
Proof. intros d. apply Nat.le_refl. Qed.

Lemma grows_setFillColor r g b : grows (setFillColor r g b).
Proof. intros d. apply Nat.le_refl. Qed.

Lemma grows_setPage n : grows (setPage n).
Proof. intros d. apply Nat.le_refl. Qed.

Lemma grows_addPage : grows addPage.
Proof. intros d. simpl. rewrite length_app. simpl. lia. Qed.

Lemma keeps_call (f : jsPDF -> jsPDF) : grows f -> keeps has_a_page (call f).
Proof.
  intros G b Pb. unfold has_a_page, page_count in *. simpl.
  specialize (G (pdf b)). lia.
Qed.

Lemma keeps_set_y (v : Q) : keeps has_a_page (set_y v).
Proof. intros b Pb. exact Pb. Qed.

Lemma keeps_advance (v : Q) : keeps has_a_page (advance v).
Proof. intros b Pb. exact Pb. Qed.

Create HintDb pdf_pages.
#[local] Hint Resolve grows_text grows_rect grows_roundedRect grows_circle
  grows_setFont grows_setFontSize grows_setTextColor grows_setFillColor
  grows_setPage grows_addPage : pdf_pages.

(** One step through a sequence of calls. *)
Ltac keeps_step :=
  first
    [ apply keeps_bind; [|intros ?]
    | apply keeps_ret
    | apply keeps_get_y
    | apply keeps_split
    | apply keeps_set_y
    | apply keeps_advance
    | apply keeps_call; auto with pdf_pages
    | apply keeps_when
    | apply keeps_if_text; intros ?
    | apply keeps_if_items; intros ?
    | apply keeps_if_present; intros ?
    | apply keeps_forEach; intros ? ].

Section Pages.
Context `{Canvas}.

Lemma keeps_addNewPageIfNeeded (h : Q) : keeps has_a_page (addNewPageIfNeeded h).
Proof.
  unfold addNewPageIfNeeded. keeps_step; [keeps_step|].
  destruct (gt _ _); repeat keeps_step.
Qed.

Lemma keeps_addSectionTitle (t : string) : keeps has_a_page (addSectionTitle t).
Proof.
  unfold addSectionTitle.
  keeps_step; [apply keeps_addNewPageIfNeeded|]. repeat keeps_step.
Qed.

Lemma keeps_addBulletList (items : list string) (c : rgb) :
  keeps has_a_page (addBulletList items c).
Proof.
  unfold addBulletList. destruct c as [[r g] b].
  do 3 (keeps_step; [keeps_step|]).
  keeps_step; [|keeps_step].
  keeps_step. keeps_step; [keeps_step|].
  keeps_step; [apply keeps_addNewPageIfNeeded|]. repeat keeps_step.
Qed.

Lemma keeps_addParagraph (s : string) : keeps has_a_page (addParagraph s).
Proof.
  unfold addParagraph.
  do 4 (keeps_step; [keeps_step|]).
  keeps_step; [apply keeps_addNewPageIfNeeded|]. repeat keeps_step.
Qed.

Lemma keeps_addKeyValue (l v : string) : keeps has_a_page (addKeyValue l v).
Proof. unfold addKeyValue. repeat keeps_step. Qed.

Lemma keeps_addSubheading (t : string) (r g b : Z) :
  keeps has_a_page (addSubheading t r g b).
Proof.
  unfold addSubheading.
  do 3 (keeps_step; [keeps_step|]).
  keeps_step; [apply keeps_addNewPageIfNeeded|]. repeat keeps_step.
Qed.

#[local] Hint Resolve keeps_addNewPageIfNeeded keeps_addSectionTitle
  keeps_addBulletList keeps_addParagraph keeps_addKeyValue
  keeps_addSubheading : pdf_pages.

Ltac keeps_all := repeat (first [ solve [auto with pdf_pages] | keeps_step ]).

Lemma keeps_drawContent analysis genome job :
  keeps has_a_page (drawContent analysis genome job).
Proof.
  unfold drawContent, drawHeader, drawCandidateInfo, drawJobInfo, drawFitScore,
    drawCareerTrajectory, drawLocationAndWorkStyle, drawProfessionalCredibility.
  keeps_all.
Qed.

(** The content pass leaves at least one page. *)
Lemma contentPass_has_a_page analysis genome job :
  has_a_page (contentPass analysis genome job).
Proof.
  apply keeps_drawContent. unfold has_a_page, page_count. simpl. lia.
Qed.

End Pages.

(** *** The footer pass *)

Definition footer_state : text_state :=
  {| fontName := "helvetica"; fontStyle := "normal";
     fontSize := 8; textColor := (150, 150, 150)%Z |}.

Section Footers.
Context `{Canvas}.

(** The footer of page [i] of [total]: one centred line, ten units
    above the bottom edge. *)
Definition footer (i total : nat) : draw :=
  Text [footerText i total] (pageWidth / 2) (pageHeight - 10) AlignCenter
    footer_state.

(** The pages [ps], numbered from [i], each with its footer added. *)
Fixpoint stamped (i total : nat) (ps : list (list draw)) : list (list draw) :=
  match ps with
  | [] => []
  | p :: r => (p ++ [footer i total])%list :: stamped (S i) total r
  end.

Lemma stamped_length i total ps :
  List.length (stamped i total ps) = List.length ps.
Proof. revert i. induction ps as [|p r IH]; intros i; simpl; auto. Qed.

Lemma stamped_nth i total ps k p :
  nth_error ps k = Some p ->
  nth_error (stamped i total ps) k = Some (p ++ [footer (i + k) total])%list.
Proof.
  revert i k. induction ps as [|q r IH]; intros i [|k]; simpl; try discriminate.
  - intros [= ->]. now rewrite Nat.add_0_r.
  - intros E. rewrite (IH (S i) k E). now rewrite Nat.add_succ_r.
Qed.

Lemma draw_at_app (done todo : list (list draw)) (p : list draw) (x : draw) :
  draw_at (List.length done) x (done ++ p :: todo)%list
  = (done ++ (p ++ [x]) :: todo)%list.
Proof. induction done as [|q done IH]; simpl; [reflexivity | now rewrite IH]. Qed.

Lemma stampFooter_pages (total : nat) (done todo : list (list draw))
  (p : list draw) (b : builder) :
  pages (pdf b) = (done ++ p :: todo)%list ->
  pages (pdf (snd (stampFooter total (S (List.length done)) b)))
  = (done ++ (p ++ [footer (S (List.length done)) total]) :: todo)%list.
Proof.
  intros E. unfold stampFooter, bind, call. simpl.
  rewrite Nat.sub_0_r, E. apply draw_at_app.
Qed.

(** The loop, started at page [length done + 1] with the pages before
    it already stamped, stamps the remaining ones. *)
Lemma stamp_loop (total : nat) (todo done : list (list draw)) (b : builder) :
  pages (pdf b) = (done ++ todo)%list ->
  pages (pdf (snd (forEach (seq (S (List.length done)) (List.length todo))
                           (stampFooter total) b)))
  = (done ++ stamped (S (List.length done)) total todo)%list.
Proof.
  revert done b. induction todo as [|p todo IH]; intros done b E; simpl.
  - exact E.
  - rewrite snd_bind.
    pose proof (stampFooter_pages total done todo p b E) as E1.
    set (b1 := snd (stampFooter total (S (List.length done)) b)) in *.
    specialize (IH (done ++ [p ++ [footer (S (List.length done)) total]])%list b1).
    rewrite length_app, Nat.add_1_r in IH. simpl in IH.
    rewrite <- app_assoc in IH. simpl in IH.
    rewrite (IH E1). now rewrite <- app_assoc.
Qed.

Lemma drawFooters_pages (b : builder) :
  pages (pdf (snd (drawFooters b)))
  = stamped 1 (page_count b) (pages (pdf b)).
Proof.
  unfold drawFooters, internal_pages_length. simpl. rewrite Nat.sub_0_r.
  exact (stamp_loop (page_count b) (pages (pdf b)) [] b eq_refl).
Qed.

(** The pages of the saved document are the pages of the content pass,
    each with its footer. *)
Lemma generateAnalysisPDF_pages analysis genome job :
  pages (snd (generateAnalysisPDF analysis genome job))
  = stamped 1 (page_count (contentPass analysis genome job))
      (pages (pdf (contentPass analysis genome job))).
Proof.
  unfold generateAnalysisPDF, contentPass. cbn [snd].
  rewrite snd_bind. apply drawFooters_pages.
Qed.

Lemma stamped_page (b : builder) (i : nat) :
  (1 <= i <= page_count b)%nat ->
  exists p,
    nth_error (pages (pdf b)) (i - 1) = Some p /\
    nth_error (stamped 1 (page_count b) (pages (pdf b))) (i - 1)
    = Some (p ++ [footer i (page_count b)])%list.
Proof.
  intros [L U]. unfold page_count in *.
  destruct (nth_error (pages (pdf b)) (i - 1)) as [p|] eqn:E.
  - exists p. split; [reflexivity|].
    rewrite (stamped_nth 1 _ _ _ _ E).
    replace (1 + (i - 1))%nat with i by lia. reflexivity.
  - apply nth_error_None in E. lia.
Qed.

(** C5. With [n] the number of pages the content pass produced
    ([page_count] of its final state): the saved document has those
    [n] pages (at least one), and page [i] is the page the content
    pass drew followed by one more text, centred at half the page
    width, reading [Page i of n • Torre Candidate Fit Analysis]. *)
Theorem footer_on_every_page analysis genome job (i : nat) :
  (1 <= i <= page_count (contentPass analysis genome job))%nat ->
  (1 <= page_count (contentPass analysis genome job))%nat /\
  List.length (pages (snd (generateAnalysisPDF analysis genome job)))
  = page_count (contentPass analysis genome job) /\
  exists p,
    nth_error (pages (pdf (contentPass analysis genome job))) (i - 1) = Some p /\
    nth_error (pages (snd (generateAnalysisPDF analysis genome job))) (i - 1)
    = Some (p ++ [Text [("Page " ++ Str.of_nat i ++ " of "
                           ++ Str.of_nat (page_count (contentPass analysis genome job))
                           ++ " • Torre Candidate Fit Analysis")%string]
                    (pageWidth / 2) (pageHeight - 10) AlignCenter
                    footer_state])%list.
Proof.
  intros B. rewrite generateAnalysisPDF_pages.
  pose proof (contentPass_has_a_page analysis genome job) as P.
  revert B P. generalize (contentPass analysis genome job). intros b B P.
  split; [exact P|]. split; [apply stamped_length|].
  exact (stamped_page b i B).
Qed.

End Footers.

(** *** A worked example: Jane Doe and the Senior Designer opening *)

Definition jane : GenomeResponse :=
  {| person := {| name := Some "Jane Doe";
                  professionalHeadline := Some "Product Designer" |};
     jobs := None |}.

Definition senior_designer : JobDetails :=
  {| objective := "Senior Designer";
     organizations := Some [{| org_name := Some "Acme" |}] |}.

Definition strong_match : CandidateFitAnalysisResult :=
  {| jobSummary := Some "A design role at Acme.";
     overallFitScore := Some "Strong Match";
     matchingSkillsAndStrengths := Some ["Figma"; "UX research"];
     areasForDevelopment := None;
     recommendations := None; careerTrajectory := None;
     locationAndWorkStyle := None; professionalCredibility := None |}.

Lemma footer_on_every_page_witness :
  exists p,
    nth_error (pages (snd (@generateAnalysisPDF RefCanvas.a4
                             strong_match jane senior_designer))) 0
    = Some (p ++ [Text ["Page 1 of 1 • Torre Candidate Fit Analysis"]
                    (210 / 2) (297 - 10) AlignCenter footer_state])%list.
Proof.
  destruct (@footer_on_every_page RefCanvas.a4 strong_match jane senior_designer 1)
    as (_ & _ & p & _ & E).
  - vm_compute. split; apply le_n.
  - exists p. exact E.
Defined.

(** *** The file name *)

(** C9. The name is [Candidate_Fit_], a candidate part, an underscore,
    a job part and [.pdf].  The candidate part is the name with every
    run of white space replaced by one underscore, or [Unknown] when
    there is no name; the job part is the first 30 characters of the
    objective treated the same way.  Neither part has white space left.
    For Jane Doe and the Senior Designer opening the name is
    [Candidate_Fit_Jane_Doe_Senior_Designer.pdf]. *)
Theorem fileName_shape (genome : GenomeResponse) (job : JobDetails) :
  (exists candidate position : string,
      fileName genome job
      = "Candidate_Fit_" ++ candidate ++ "_" ++ position ++ ".pdf"
      /\ (forall n, name (person genome) = Some n -> Str.nonempty n = true ->
                    candidate = Str.replace_ws n)
      /\ (name (person genome) = None \/ name (person genome) = Some EmptyString ->
          candidate = "Unknown")
      /\ position = Str.substring0 30 (Str.replace_ws (objective job))
      /\ String.length position
         = Nat.min 30 (String.length (Str.replace_ws (objective job)))
      /\ Str.free_of Str.is_space candidate = true
      /\ Str.free_of Str.is_space position = true)
  /\ (forall c ws r,
         Str.is_space c = true -> StrFacts.all_space ws = true ->
         StrFacts.starts_solid r = true ->
         Str.replace_ws (String c ws ++ r) = String "_" (Str.replace_ws r))
  /\ (forall c r,
         Str.is_space c = false ->
         Str.replace_ws (String c r) = String c (Str.replace_ws r))
  /\ fileName jane senior_designer = "Candidate_Fit_Jane_Doe_Senior_Designer.pdf"
  /\ Str.includes (fileName jane senior_designer) "Jane_Doe" = true
  /\ Str.includes (fileName jane senior_designer) "Senior_Designer" = true.
Proof.
  split; [|split; [exact StrFacts.replace_ws_run|split;
                   [exact StrFacts.replace_ws_solid|repeat split; reflexivity]]].
  exists (text_or (option_map Str.replace_ws (name (person genome))) "Unknown"),
         (Str.substring0 30 (Str.replace_ws (objective job))).
  split; [reflexivity|]. split; [|split; [|split; [|split; [|split]]]].
  - intros n E N. rewrite E. simpl. now rewrite StrFacts.replace_ws_nonempty, N.
  - intros [E|E]; rewrite E; reflexivity.
  - reflexivity.
  - apply StrFacts.substring0_length.
  - destruct (name (person genome)) as [n|]; simpl; [|reflexivity].
    destruct (Str.nonempty (Str.replace_ws n)); [|reflexivity].
    apply StrFacts.replace_ws_from_free.
  - apply (StrFacts.free_of_prefix _ _ _ (StrFacts.substring0_prefix _ _)).
    apply StrFacts.replace_ws_from_free.
Qed.

Definition long_title : JobDetails :=
  {| objective := "Head of   Product Design and	Research (Remote, Americas)";
     organizations := None |}.

Lemma fileName_shape_witness :
  Str.replace_ws "Jane   Doe" = "Jane_Doe" /\
  @fileName {| person := {| name := Some EmptyString;
                            professionalHeadline := None |}; jobs := None |}
            long_title
  = "Candidate_Fit_Unknown_Head_of_Product_Design_and_Res.pdf".
Proof.
  split.
  - pose proof (proj1 (proj2 (fileName_shape jane senior_designer))) as R.
    specialize (R " "%char "  " "Doe" eq_refl eq_refl eq_refl).
    pose proof (proj1 (proj2 (proj2 (fileName_shape jane senior_designer)))) as K.
    rewrite (K "J"%char _ eq_refl), (K "a"%char _ eq_refl),
      (K "n"%char _ eq_refl), (K "e"%char _ eq_refl).
    simpl in R. rewrite R. reflexivity.
  - reflexivity.
Defined.

(** *** Which sections are drawn *)

(** Everything drawn, page after page. *)
Definition drawn (b : builder) : list draw := List.concat (pages (pdf b)).

Definition face (style : string) (size : Q) (r g b : Z) : text_state :=
  {| fontName := "helvetica"; fontStyle := style;
     fontSize := size; textColor := (r, g, b) |}.

(** An optional string that is absent or empty, an optional list that
    is absent or empty. *)
Definition blank (s : option string) : Prop := s = None \/ s = Some EmptyString.
Definition no_items (l : option (list string)) : Prop := l = None \/ l = Some [].

Section Sections.
Context `{Canvas}.

(** The header block and the two identity blocks, the same in every
    report. *)
Definition header_block : list draw :=
  [ Rect 0 0 pageWidth 45 (245, 245, 250)%Z;
    Text ["Candidate Fit Analysis"] margin 20 AlignLeft (face "bold" 20 30 30 35);
    Text ["Generated on " ++ todayLongDate] margin 30 AlignLeft
      (face "normal" 10 100 100 100) ].

Definition candidate_block (genome : GenomeResponse) : list draw :=
  [ RoundedRect margin (55 - 5) contentWidth 25 3 3 (250, 250, 255)%Z;
    Text [text_or (name (person genome)) "Unknown Candidate"]
      (margin + 5) (55 + 5) AlignLeft (face "bold" 12 30 30 35);
    Text [text_or (professionalHeadline (person genome)) EmptyString]
      (margin + 5) (55 + 12) AlignLeft (face "normal" 9 100 100 100) ].

Definition job_block (job : JobDetails) : list draw :=
  [ Text ["Position:"] margin (55 + 30) AlignLeft (face "bold" 10 80 80 80);
    Text [objective job] (margin + 25) (55 + 30) AlignLeft
      (face "normal" 10 30 30 35);
    Text ["Company:"] margin (55 + 30 + 6) AlignLeft (face "bold" 10 80 80 80);
    Text [text_or (first_organization_name job) "Unknown"]
      (margin + 25) (55 + 30 + 6) AlignLeft (face "normal" 10 30 30 35) ].

(** The job-summary section: its title, then the wrapped summary. *)
Definition summary_section (s : string) (y1 y2 : Q) : list draw :=
  [ Text ["Job Summary"] margin y1 AlignLeft (face "bold" 14 80 80 80);
    Text (splitTextToSize (face "normal" 10 60 60 60) s contentWidth)
      margin y2 AlignLeft (face "normal" 10 60 60 60) ].

(** The document is being written on its last page, which is how
    the content pass leaves it after every step. *)
Definition on_last_page (d : jsPDF) : Prop :=
  currentPage d = List.length (pages d) /\ (1 <= List.length (pages d))%nat.

Lemma draw_at_last (x : draw) (ps : list (list draw)) :
  (1 <= List.length ps)%nat ->
  List.concat (draw_at (List.length ps - 1) x ps) = (List.concat ps ++ [x])%list.
Proof.
  induction ps as [|p [|q r] IH]; simpl; intros L.
  - lia.
  - now rewrite !app_nil_r.
  - simpl in IH. rewrite Nat.sub_0_r in IH.
    rewrite IH by lia. now rewrite app_assoc.
Qed.

Lemma put_drawn (x : draw) (d : jsPDF) :
  on_last_page d ->
  on_last_page (put x d) /\
  List.concat (pages (put x d)) = (List.concat (pages d) ++ [x])%list.
Proof.
  intros [C L]. unfold on_last_page. simpl.
  rewrite draw_at_length, C. repeat split; auto.
  now apply draw_at_last.
Qed.

Lemma text_drawn lines (x y0 : Q) (a : alignment) (d : jsPDF) :
  on_last_page d ->
  on_last_page (text lines x y0 a d) /\
  List.concat (pages (text lines x y0 a d))
  = (List.concat (pages d) ++ [Text lines x y0 a (textState d)])%list.
Proof. apply put_drawn. Qed.

Lemma addPage_drawn (d : jsPDF) :
  on_last_page d ->
  on_last_page (addPage d) /\
  List.concat (pages (addPage d)) = List.concat (pages d).
Proof.
  intros [C L]. unfold on_last_page. simpl.
  rewrite length_app, concat_app. simpl.
  rewrite app_nil_r. repeat split; lia.
Qed.

(** What each operation leaves, [b1] being the state after its page
    check. *)
Lemma addNewPageIfNeeded_run (h : Q) (b : builder) :
  snd (addNewPageIfNeeded h b)
  = if gt (y b + h) (pageHeight - margin)
    then {| pdf := addPage (pdf b); y := margin |}
    else b.
Proof.
  unfold addNewPageIfNeeded, bind, get_y.
  destruct (gt (y b + h) (pageHeight - margin)); reflexivity.
Qed.

Lemma addSectionTitle_run (title : string) (b : builder) :
  let b1 := snd (addNewPageIfNeeded 20 b) in
  snd (addSectionTitle title b)
  = {| pdf := text [title] margin (y b1) AlignLeft
                (setTextColor 80 80 80
                   (setFontSize 14 (setFont "helvetica" "bold" (pdf b1))));
       y := y b1 + 8 |}.
Proof.
  unfold addSectionTitle. rewrite snd_bind.
  destruct (addNewPageIfNeeded 20 b) as [c b1]. reflexivity.
Qed.

Lemma addParagraph_run (s : string) (b : builder) :
  let d := setTextColor 60 60 60
             (setFontSize 10 (setFont "helvetica" "normal" (pdf b))) in
  let lines := splitTextToSize (textState d) s contentWidth in
  let b1 := snd (addNewPageIfNeeded (count lines * 5 + 5)
                   {| pdf := d; y := y b |}) in
  snd (addParagraph s b)
  = {| pdf := text lines margin (y b1) AlignLeft (pdf b1);
       y := y b1 + (count lines * 5 + 5) |}.
Proof.
  unfold addParagraph, bind, call, split, get_y, advance. cbv beta iota zeta.
  cbn [pdf y].
  destruct (addNewPageIfNeeded _ _) as [c b1]. reflexivity.
Qed.

Lemma addKeyValue_run (label value : string) (b : builder) :
  let d1 := setTextColor 100 100 100
              (setFontSize 10 (setFont "helvetica" "bold" (pdf b))) in
  let labelLines := splitTextToSize (textState d1) (label ++ ":") 50 in
  let d2 := setTextColor 60 60 60
              (setFont "helvetica" "normal"
                 (text labelLines margin (y b) AlignLeft d1)) in
  let valueLines := splitTextToSize (textState d2) value (contentWidth - 55) in
  snd (addKeyValue label value b)
  = {| pdf := text valueLines (margin + 55) (y b) AlignLeft d2;
       y := y b + (inject_Z (Z.of_nat (Nat.max (List.length labelLines)
                                              (List.length valueLines))) * 5 + 3) |}.
Proof. reflexivity. Qed.

Lemma snd_seq {A B} (m : M A) (k : M B) (b : builder) :
  snd (bind m (fun _ => k) b) = snd (k (snd (m b))).
Proof. apply snd_bind. Qed.

(** The page check changes neither what is drawn nor the settings. *)
Lemma addNewPageIfNeeded_drawn (h : Q) (b : builder) :
  on_last_page (pdf b) ->
  let b1 := snd (addNewPageIfNeeded h b) in
  on_last_page (pdf b1) /\ drawn b1 = drawn b /\
  textState (pdf b1) = textState (pdf b) /\
  fillColor (pdf b1) = fillColor (pdf b).
Proof.
  intros L. cbv zeta. rewrite addNewPageIfNeeded_run.
  destruct (gt (y b + h) (pageHeight - margin)); [|now auto].
  destruct (addPage_drawn (pdf b) L) as [L1 D1]. now auto.
Qed.

Lemma addSectionTitle_drawn (title : string) (b : builder) :
  on_last_page (pdf b) ->
  exists y1,
    on_last_page (pdf (snd (addSectionTitle title b))) /\
    drawn (snd (addSectionTitle title b))
    = (drawn b ++ [Text [title] margin y1 AlignLeft (face "bold" 14 80 80 80)])%list.
Proof.
  intros L. rewrite addSectionTitle_run.
  destruct (addNewPageIfNeeded_drawn 20 b L) as (L1 & D1 & _ & _).
  set (b1 := snd (addNewPageIfNeeded 20 b)) in *.
  exists (y b1). unfold drawn, text. cbn [pdf].
  match goal with |- context [put ?x ?d] =>
    destruct (put_drawn x d) as [L2 D2]; [exact L1|] end.
  split; [exact L2|]. rewrite D2. cbn [pages setTextColor setFontSize setFont
    with_text_state]. fold (drawn b1). rewrite D1. reflexivity.
Qed.

Lemma addParagraph_drawn (s : string) (b : builder) :
  on_last_page (pdf b) ->
  exists y2,
    on_last_page (pdf (snd (addParagraph s b))) /\
    drawn (snd (addParagraph s b))
    = (drawn b
         ++ [Text (splitTextToSize (face "normal" 10 60 60 60) s contentWidth)
               margin y2 AlignLeft (face "normal" 10 60 60 60)])%list.
Proof.
  intros L. rewrite addParagraph_run. cbv zeta.
  change (textState (setTextColor 60 60 60
            (setFontSize 10 (setFont "helvetica" "normal" (pdf b)))))
    with (face "normal" 10 60 60 60).
  set (lines := splitTextToSize (face "normal" 10 60 60 60) s contentWidth).
  match goal with |- context [addNewPageIfNeeded ?h ?b0] =>
    destruct (addNewPageIfNeeded_drawn h b0 L) as (L1 & D1 & T1 & _);
    set (b1 := snd (addNewPageIfNeeded h b0)) in * end.
  exists (y b1). unfold drawn, text in *. cbn [pdf] in *.
  destruct (put_drawn (Text lines margin (y b1) AlignLeft (textState (pdf b1)))
              (pdf b1) L1) as [L2 D2].
  split; [exact L2|]. rewrite D2, D1, T1. reflexivity.
Qed.

Lemma drawn_advance (v : Q) (b : builder) : drawn (snd (advance v b)) = drawn b.
Proof. reflexivity. Qed.

(** The state after the header and the two identity blocks. *)
Definition identity_state (genome : GenomeResponse) (job : JobDetails) : builder :=
  snd (drawJobInfo job (snd (drawCandidateInfo genome (snd (drawHeader start))))).

Lemma identity_state_drawn genome job :
  on_last_page (pdf (identity_state genome job)) /\
  drawn (identity_state genome job)
  = (header_block ++ candidate_block genome ++ job_block job)%list.
Proof. split; [split; [reflexivity | apply Nat.le_refl] | reflexivity]. Qed.

Lemma contentPass_only_summary (analysis : CandidateFitAnalysisResult)
  (genome : GenomeResponse) (job : JobDetails) (s : string) :
  jobSummary analysis = Some s ->
  Str.nonempty s = true ->
  blank (overallFitScore analysis) ->
  no_items (matchingSkillsAndStrengths analysis) ->
  no_items (areasForDevelopment analysis) ->
  no_items (recommendations analysis) ->
  careerTrajectory analysis = None ->
  locationAndWorkStyle analysis = None ->
  professionalCredibility analysis = None ->
  contentPass analysis genome job
  = snd (advance 5 (snd (addParagraph s
           (snd (addSectionTitle "Job Summary" (identity_state genome job)))))).
Proof.
  destruct analysis as [js score skills gaps recs career loc cred].
  cbn [jobSummary overallFitScore matchingSkillsAndStrengths areasForDevelopment
       recommendations careerTrajectory locationAndWorkStyle
       professionalCredibility].
  intros -> N B Bs Bg Br -> -> ->.
  unfold contentPass, drawContent, identity_state.
  cbn [jobSummary overallFitScore matchingSkillsAndStrengths areasForDevelopment
       recommendations careerTrajectory locationAndWorkStyle
       professionalCredibility].
  destruct B as [-> | ->], Bs as [-> | ->], Bg as [-> | ->], Br as [-> | ->];
    cbn [if_text if_items if_present when Str.nonempty]; rewrite N;
    cbn [when]; rewrite !snd_seq; cbn [ret snd]; reflexivity.
Qed.

End Sections.

Definition summary_only : CandidateFitAnalysisResult :=
  {| jobSummary := Some "A design role at Acme.";
     overallFitScore := Some EmptyString;
     matchingSkillsAndStrengths := Some [];
     areasForDevelopment := None;
     recommendations := Some []; careerTrajectory := None;
     locationAndWorkStyle := None; professionalCredibility := None |}.

Definition empty_trajectory : CandidateFitAnalysisResult :=
  {| jobSummary := Some "A design role at Acme.";
     overallFitScore := None;
     matchingSkillsAndStrengths := None;
     areasForDevelopment := None;
     recommendations := None;
     careerTrajectory :=
       Some {| summary := Some EmptyString; growthIndicators := Some [];
               alignmentWithRole := Some EmptyString |};
     locationAndWorkStyle := None; professionalCredibility := None |}.

Definition paragraphs : string := Str.repeat "word " 459.
Definition assessment : string := Str.repeat "remote " 20.

Definition crowded : CandidateFitAnalysisResult :=
  {| jobSummary := Some paragraphs;
     overallFitScore := None;
     matchingSkillsAndStrengths := None;
     areasForDevelopment := None;
     recommendations := None;
     careerTrajectory := None;
     locationAndWorkStyle :=
       Some {| locationCompatibility := Some assessment;
               remoteWorkAlignment := Some assessment;
               commitmentLevelMatch := Some assessment;
               potentialConcerns := None |};
     professionalCredibility := None |}.

(** C6, as stated, fails.  Here nothing but the job summary is set, and
    the career-trajectory object is there with every field empty: its
    section title is drawn, with nothing under it, so the document is
    not the header, the identity blocks and the summary alone. *)
Lemma empty_section_title_drawn :
  drawn (@contentPass RefCanvas.a4 empty_trajectory jane senior_designer)
  = (@header_block RefCanvas.a4 ++ @candidate_block RefCanvas.a4 jane
       ++ job_block senior_designer
       ++ @summary_section RefCanvas.a4 "A design role at Acme." 103 111
       ++ [Text ["Career Trajectory & Growth"] 20 126 AlignLeft
             (face "bold" 14 80 80 80)])%list
  /\ forall y1 y2 : Q,
      drawn (@contentPass RefCanvas.a4 empty_trajectory jane senior_designer)
      <> (@header_block RefCanvas.a4 ++ @candidate_block RefCanvas.a4 jane
            ++ job_block senior_designer
            ++ @summary_section RefCanvas.a4 "A design role at Acme." y1 y2)%list.
Proof.
  assert (E : drawn (@contentPass RefCanvas.a4 empty_trajectory jane senior_designer)
              = (@header_block RefCanvas.a4 ++ @candidate_block RefCanvas.a4 jane
                   ++ job_block senior_designer
                   ++ @summary_section RefCanvas.a4 "A design role at Acme." 103 111
                   ++ [Text ["Career Trajectory & Growth"] 20 126 AlignLeft
                         (face "bold" 14 80 80 80)])%list)
    by (vm_compute; reflexivity).
  split; [exact E|].
  intros y1 y2 C. rewrite E in C.
  apply (f_equal (@List.length draw)) in C. simpl in C. discriminate.
Qed.

(** *** Where blocks start *)

Section Positions.
Context `{Canvas}.

Lemma gt_true (a b : Q) : gt a b = true <-> b < a.
Proof.
  unfold gt. rewrite negb_true_iff. split.
  - intros E. apply Qnot_le_lt. intros L.
    apply Qle_bool_iff in L. congruence.
  - intros L. destruct (Qle_bool a b) eqn:E; [|reflexivity].
    apply Qle_bool_iff in E. exfalso. exact (Qlt_not_le _ _ L E).
Qed.

Lemma gt_false (a b : Q) : gt a b = false <-> a <= b.
Proof.
  unfold gt. rewrite negb_false_iff. apply Qle_bool_iff.
Qed.

(** After the page check for a block of height [h], the cursor is
    between the two margins; when the block fits on an empty page, it
    ends above the bottom margin. *)
Lemma addNewPageIfNeeded_fits (h : Q) (b : builder) :
  0 <= h ->
  margin <= y b ->
  margin <= pageHeight - margin ->
  let b1 := snd (addNewPageIfNeeded h b) in
  margin <= y b1 <= pageHeight - margin /\
  (margin + h <= pageHeight - margin -> y b1 + h <= pageHeight - margin).
Proof.
  intros P L F. cbv zeta. rewrite addNewPageIfNeeded_run.
  destruct (gt (y b + h) (pageHeight - margin)) eqn:G.
  - simpl. repeat split; auto using Qle_refl.
  - apply gt_false in G. repeat split; auto. lra.
Qed.

(** A section title starts between the two margins. *)
Lemma addSectionTitle_start (title : string) (b : builder) :
  on_last_page (pdf b) ->
  margin <= y b ->
  margin <= pageHeight - margin ->
  exists y1,
    drawn (snd (addSectionTitle title b))
    = (drawn b ++ [Text [title] margin y1 AlignLeft (face "bold" 14 80 80 80)])%list
    /\ margin <= y1 <= pageHeight - margin.
Proof.
  intros L M F. rewrite addSectionTitle_run.
  destruct (addNewPageIfNeeded_drawn 20 b L) as (L1 & D1 & _ & _).
  assert (P : 0 <= 20) by (unfold Qle; simpl; lia).
  destruct (addNewPageIfNeeded_fits 20 b P M F) as [M1 _].
  set (b1 := snd (addNewPageIfNeeded 20 b)) in *.
  exists (y b1). split; [|exact M1].
  unfold drawn, text in *. cbn [pdf].
  match goal with |- context [put ?x ?d] =>
    destruct (put_drawn x d) as [_ D2]; [exact L1|] end.
  rewrite D2. cbn [pages setTextColor setFontSize setFont with_text_state].
  rewrite D1. reflexivity.
Qed.

Lemma count_nonneg (l : list string) : 0 <= count l.
Proof. unfold count. change 0 with (inject_Z 0). rewrite <- Zle_Qle. lia. Qed.

(** So does a paragraph. *)
Lemma addParagraph_start (s : string) (b : builder) :
  on_last_page (pdf b) ->
  margin <= y b ->
  margin <= pageHeight - margin ->
  exists y2,
    drawn (snd (addParagraph s b))
    = (drawn b
         ++ [Text (splitTextToSize (face "normal" 10 60 60 60) s contentWidth)
               margin y2 AlignLeft (face "normal" 10 60 60 60)])%list
    /\ margin <= y2 <= pageHeight - margin.
Proof.
  intros L M F. rewrite addParagraph_run. cbv zeta.
  change (textState (setTextColor 60 60 60
            (setFontSize 10 (setFont "helvetica" "normal" (pdf b)))))
    with (face "normal" 10 60 60 60).
  set (lines := splitTextToSize (face "normal" 10 60 60 60) s contentWidth).
  assert (P : 0 <= count lines * 5 + 5) by (pose proof (count_nonneg lines); lra).
  match goal with |- context [addNewPageIfNeeded ?h ?b0] =>
    destruct (addNewPageIfNeeded_drawn h b0 L) as (L1 & D1 & T1 & _);
    destruct (addNewPageIfNeeded_fits h b0 P M F) as [M1 _];
    set (b1 := snd (addNewPageIfNeeded h b0)) in * end.
  exists (y b1). split; [|exact M1].
  unfold drawn, text in *. cbn [pdf] in *.
  destruct (put_drawn (Text lines margin (y b1) AlignLeft (textState (pdf b1)))
              (pdf b1) L1) as [_ D2].
  rewrite D2, D1, T1. reflexivity.
Qed.

(** A key/value pair is drawn where the cursor is, wherever that is:
    no page is added and the cursor is not moved first. *)
Lemma addKeyValue_start (label value : string) (b : builder) :
  on_last_page (pdf b) ->
  exists labelLines valueLines,
    drawn (snd (addKeyValue label value b))
    = (drawn b
         ++ [Text labelLines margin (y b) AlignLeft (face "bold" 10 100 100 100);
             Text valueLines (margin + 55) (y b) AlignLeft
               (face "normal" 10 60 60 60)])%list
    /\ page_count (snd (addKeyValue label value b)) = page_count b.
Proof.
  intros L. rewrite addKeyValue_run. cbv zeta.
  set (d1 := setTextColor 100 100 100
               (setFontSize 10 (setFont "helvetica" "bold" (pdf b)))).
  set (labelLines := splitTextToSize (textState d1) (label ++ ":") 50).
  assert (L1 : on_last_page d1) by exact L.
  destruct (text_drawn labelLines margin (y b) AlignLeft d1 L1) as [L2 D2].
  set (d2 := setTextColor 60 60 60
               (setFont "helvetica" "normal"
                  (text labelLines margin (y b) AlignLeft d1))) in *.
  set (valueLines := splitTextToSize (textState d2) value (contentWidth - 55)).
  assert (L3 : on_last_page d2) by exact L2.
  destruct (text_drawn valueLines (margin + 55) (y b) AlignLeft d2 L3) as [L4 D4].
  exists labelLines, valueLines. unfold drawn, page_count. cbn [pdf].
  split.
  - rewrite D4.
    change (pages d2) with (pages (text labelLines margin (y b) AlignLeft d1)).
    rewrite D2, <- app_assoc. reflexivity.
  - destruct L4 as [C4 _], L as [C _]. rewrite <- C4, <- C. reflexivity.
Qed.

End Positions.

(** C1: the key/value pair that starts below the page.  On an A4 page,
    after a job summary of 27 lines, the section [Location & Work
    Style] starts at 256 with three assessments of three lines each.
    The pairs are drawn at 264, 282 and 300: the third one starts below
    the bottom edge (297) of the only page, and no page was added,
    although the pair (18 high) passes the bottom margin. *)
Theorem key_value_starts_below_page :
  page_count (@contentPass RefCanvas.a4 crowded jane senior_designer) = 1%nat /\
  In (Text ["Commitment:"] 20 300 AlignLeft (face "bold" 10 100 100 100))
     (drawn (@contentPass RefCanvas.a4 crowded jane senior_designer)) /\
  @pageHeight RefCanvas.a4 < 300 /\
  gt (300 + 18) (@pageHeight RefCanvas.a4 - margin) = true.
Proof.
  split; [vm_compute; reflexivity|].
  split; [|split; [reflexivity | vm_compute; reflexivity]].
  vm_compute. do 17 right. left. reflexivity.
Qed.

End ReportFacts.

(** ** What the content pass draws, section by section *)

Module SectionFacts.
Import Torre Report ReportFacts.
Local Open Scope pdf_scope.

(** A drawing instruction without its height on the page. *)
Definition unplaced (d : draw) : draw :=
  match d with
  | Text lines x _ a st => Text lines x 0 a st
  | Rect x _ w h f => Rect x 0 w h f
  | RoundedRect x _ w h rx ry f => RoundedRect x 0 w h rx ry f
  | Circle x _ r f => Circle x 0 r f
  end.

(** What a document shows, in the order of drawing, heights apart. *)
Definition shown (d : jsPDF) : list draw := map unplaced (List.concat (pages d)).

(** The title of a section: one line in bold 14. *)
Definition is_title (d : draw) : option string :=
  match d with
  | Text [t] _ _ _ st =>
      if String.eqb (fontStyle st) "bold" && Qeq_bool (fontSize st) 14
      then Some t else None
  | _ => None
  end.

Fixpoint section_titles (l : list draw) : list string :=
  match l with
  | [] => []
  | d :: r =>
      match is_title d with
      | Some t => t :: section_titles r
      | None => section_titles r
      end
  end.

(** A section that is there when its text is not empty, when its list
    is not empty, when its object is present. *)
Definition text_section {A} (o : option string) (marks : string -> list A) : list A :=
  match o with
  | Some s => if Str.nonempty s then marks s else []
  | None => []
  end.

Definition list_section {A} (o : option (list string)) (marks : list string -> list A)
  : list A :=
  match o with
  | Some (i :: r) => marks (i :: r)
  | _ => []
  end.

Definition nested_section {A B} (o : option B) (marks : B -> list A) : list A :=
  match o with
  | Some c => marks c
  | None => []
  end.

(** The titles that the report must show for an analysis. *)
Definition expected_titles (analysis : CandidateFitAnalysisResult) : list string :=
  (text_section (jobSummary analysis) (fun _ => ["Job Summary"])
   ++ list_section (matchingSkillsAndStrengths analysis)
        (fun _ => ["Matching Skills & Strengths"])
   ++ list_section (areasForDevelopment analysis) (fun _ => ["Areas for Development"])
   ++ list_section (recommendations analysis) (fun _ => ["Recommendations"])
   ++ nested_section (careerTrajectory analysis)
        (fun _ => ["Career Trajectory & Growth"])
   ++ nested_section (locationAndWorkStyle analysis)
        (fun _ => ["Location & Work Style"])
   ++ nested_section (professionalCredibility analysis)
        (fun _ => ["Professional Credibility"]))%list.

Section Marks.
Context `{Canvas}.

Definition body : text_state := face "normal" 10 60 60 60.

Definition title_mark (t : string) : draw :=
  Text [t] margin 0 AlignLeft (face "bold" 14 80 80 80).

Definition paragraph_mark (s : string) : draw :=
  Text (splitTextToSize body s contentWidth) margin 0 AlignLeft body.

Definition bullet_mark (colour : rgb) (item : string) : list draw :=
  [ Circle (margin + 2) 0 (3 # 2) colour;
    Text (splitTextToSize body item (contentWidth - 10)) (margin + 8) 0 AlignLeft body ].

Definition bullet_marks (colour : rgb) (items : list string) : list draw :=
  flat_map (bullet_mark colour) items.

Definition subheading_mark (t : string) (r g b : Z) : draw :=
  Text [t] margin 0 AlignLeft (face "bold" 11 r g b).

Definition pair_marks (label value : string) : list draw :=
  [ Text (splitTextToSize (face "bold" 10 100 100 100) (label ++ ":") 50)
      margin 0 AlignLeft (face "bold" 10 100 100 100);
    Text (splitTextToSize body value (contentWidth - 55)) (margin + 55) 0 AlignLeft body ].

Definition score_marks (score : string) : list draw :=
  [ RoundedRect margin 0 contentWidth 20 3 3 (230, 245, 230)%Z;
    Text [("Overall Fit Score: " ++ score)%string] (margin + 5) 0 AlignLeft
      (face "bold" 12 30 120 30) ].

Definition sublist_marks (t : string) (r g b : Z) (items : list string) : list draw :=
  subheading_mark t r g b :: bullet_marks (r, g, b) items.

Definition career_marks (c : CareerTrajectory) : list draw :=
  (title_mark "Career Trajectory & Growth"
   :: text_section (summary c) (fun s => [paragraph_mark s])
   ++ list_section (growthIndicators c)
        (fun items => subheading_mark "Growth Indicators:" 120 80 180
                      :: bullet_marks (156, 39, 176)%Z items)
   ++ text_section (alignmentWithRole c) (pair_marks "Role Alignment"))%list.

Definition location_marks (l : LocationAndWorkStyle) : list draw :=
  (title_mark "Location & Work Style"
   :: text_section (locationCompatibility l) (pair_marks "Location")
   ++ text_section (remoteWorkAlignment l) (pair_marks "Remote Work")
   ++ text_section (commitmentLevelMatch l) (pair_marks "Commitment")
   ++ list_section (potentialConcerns l)
        (sublist_marks "Potential Concerns:" 255 152 0))%list.

Definition credibility_marks (p : ProfessionalCredibility) : list draw :=
  (title_mark "Professional Credibility"
   :: text_section (profileQuality p) (pair_marks "Profile Quality")
   ++ list_section (professionalPresence p)
        (sublist_marks "Professional Presence:" 0 150 136)
   ++ list_section (credibilityIndicators p)
        (sublist_marks "Credibility Indicators:" 0 150 136))%list.

(** What the report shows after its opening blocks: for each part of
    the analysis, in the order of the report, what that part is drawn
    as, and nothing for a part that is not there. *)
Definition outline (analysis : CandidateFitAnalysisResult) : list draw :=
  (text_section (overallFitScore analysis) score_marks
   ++ text_section (jobSummary analysis)
        (fun s => [title_mark "Job Summary"; paragraph_mark s])
   ++ list_section (matchingSkillsAndStrengths analysis)
        (fun items => title_mark "Matching Skills & Strengths"
                      :: bullet_marks (76, 175, 80)%Z items)
   ++ list_section (areasForDevelopment analysis)
        (fun items => title_mark "Areas for Development"
                      :: bullet_marks (255, 193, 7)%Z items)
   ++ list_section (recommendations analysis)
        (fun items => title_mark "Recommendations"
                      :: bullet_marks (66, 165, 245)%Z items)
   ++ nested_section (careerTrajectory analysis) career_marks
   ++ nested_section (locationAndWorkStyle analysis) location_marks
   ++ nested_section (professionalCredibility analysis) credibility_marks)%list.

End Marks.

(** *** The document, call by call *)

Lemma shown_put (x : draw) (d : jsPDF) :
  on_last_page d -> shown (put x d) = (shown d ++ [unplaced x])%list.
Proof.
  intros L. unfold shown. destruct (put_drawn x d L) as [_ E].
  now rewrite E, map_app.
Qed.

Lemma last_put (x : draw) (d : jsPDF) : on_last_page d -> on_last_page (put x d).
Proof. intros L. now destruct (put_drawn x d L). Qed.

Lemma shown_addPage (d : jsPDF) : on_last_page d -> shown (addPage d) = shown d.
Proof.
  intros L. unfold shown. destruct (addPage_drawn d L) as [_ E]. now rewrite E.
Qed.

Lemma last_addPage (d : jsPDF) : on_last_page d -> on_last_page (addPage d).
Proof. intros L. now destruct (addPage_drawn d L). Qed.

(** [m] only adds [marks] to what the document shows, and leaves it on
    its last page. *)
Definition emits {A} (m : M A) (marks : list draw) : Prop :=
  forall b, on_last_page (pdf b) ->
            on_last_page (pdf (snd (m b))) /\
            shown (pdf (snd (m b))) = (shown (pdf b) ++ marks)%list.

Lemma emits_seq {A} (m : M A) (k : M unit) (l1 l2 l : list draw) :
  emits m l1 -> emits k l2 -> l = (l1 ++ l2)%list -> emits (m ;; k) l.
Proof.
  intros E1 E2 -> b L. rewrite snd_bind.
  destruct (E1 b L) as [L1 S1]. destruct (E2 _ L1) as [L2 S2].
  split; [exact L2|]. now rewrite S2, S1, app_assoc.
Qed.

Lemma emits_if_text (o : option string) (k : string -> M unit)
  (marks : string -> list draw) :
  (forall t, emits (k t) (marks t)) -> emits (if_text o k) (text_section o marks).
Proof.
  intros E. destruct o as [t|]; simpl.
  - destruct (Str.nonempty t); simpl; [apply E|].
    intros b L. split; [exact L | now rewrite app_nil_r].
  - intros b L. split; [exact L | now rewrite app_nil_r].
Qed.

Lemma emits_if_items (o : option (list string)) (k : list string -> M unit)
  (marks : list string -> list draw) :
  (forall t, emits (k t) (marks t)) -> emits (if_items o k) (list_section o marks).
Proof.
  intros E. destruct o as [[|i r]|]; simpl; try apply E;
    intros b L; (split; [exact L | now rewrite app_nil_r]).
Qed.

Lemma emits_if_present {B} (o : option B) (k : B -> M unit) (marks : B -> list draw) :
  (forall c, emits (k c) (marks c)) -> emits (if_present o k) (nested_section o marks).
Proof.
  intros E. destruct o as [c|]; simpl; [apply E|].
  intros b L. split; [exact L | now rewrite app_nil_r].
Qed.

(** The last page of a goal's document, from the outside in, and what
    it shows. *)
Ltac last_page :=
  lazymatch goal with
  | |- on_last_page (text _ _ _ _ _) => apply last_put; last_page
  | |- on_last_page (rect _ _ _ _ _) => apply last_put; last_page
  | |- on_last_page (roundedRect _ _ _ _ _ _ _) => apply last_put; last_page
  | |- on_last_page (circle _ _ _ _) => apply last_put; last_page
  | |- on_last_page (addPage _) => apply last_addPage; last_page
  | |- on_last_page (setFont _ _ ?d) => change (on_last_page d); last_page
  | |- on_last_page (setFontSize _ ?d) => change (on_last_page d); last_page
  | |- on_last_page (setTextColor _ _ _ ?d) => change (on_last_page d); last_page
  | |- on_last_page (setFillColor _ _ _ ?d) => change (on_last_page d); last_page
  | |- on_last_page _ => assumption
  end.

Ltac show_all :=
  repeat lazymatch goal with
    | |- context [shown (text ?l ?x ?y ?a ?d)] =>
        change (text l x y a d) with (put (Text l x y a (textState d)) d);
        rewrite (shown_put (Text l x y a (textState d)) d) by last_page
    | |- context [shown (roundedRect ?x ?y ?w ?h ?rx ?ry ?d)] =>
        change (roundedRect x y w h rx ry d)
          with (put (RoundedRect x y w h rx ry (fillColor d)) d);
        rewrite (shown_put (RoundedRect x y w h rx ry (fillColor d)) d) by last_page
    | |- context [shown (circle ?x ?y ?r ?d)] =>
        change (circle x y r d) with (put (Circle x y r (fillColor d)) d);
        rewrite (shown_put (Circle x y r (fillColor d)) d) by last_page
    | |- context [shown (addPage ?d)] => rewrite (shown_addPage d) by last_page
    | |- context [shown (setFont ?n ?s ?d)] =>
        change (shown (setFont n s d)) with (shown d)
    | |- context [shown (setFontSize ?s ?d)] =>
        change (shown (setFontSize s d)) with (shown d)
    | |- context [shown (setTextColor ?r ?g ?b ?d)] =>
        change (shown (setTextColor r g b d)) with (shown d)
    | |- context [shown (setFillColor ?r ?g ?b ?d)] =>
        change (shown (setFillColor r g b d)) with (shown d)
    end.

(** Run a block on a state, both branches of its page check, and
    compare what it shows. *)
Ltac emit :=
  let b := fresh "b" in
  let L := fresh "L" in
  intros b L;
  unfold addSectionTitle, addParagraph, addKeyValue, addSubheading, drawFitScore,
    addNewPageIfNeeded, bind, call, get_y, set_y, advance, split, ret;
  cbn [fst snd pdf y];
  try (destruct (gt _ _); cbn [fst snd pdf y]);
  (split; [last_page | show_all; rewrite <- ?app_assoc; reflexivity]).

Section Blocks.
Context `{Canvas}.

Lemma emits_advance (v : Q) : emits (advance v) [].
Proof. intros b L. split; [exact L | now rewrite app_nil_r]. Qed.

Lemma emits_drawFitScore (score : string) :
  emits (drawFitScore score) (score_marks score).
Proof. emit. Qed.

Lemma emits_addSectionTitle (title : string) :
  emits (addSectionTitle title) [title_mark title].
Proof. emit. Qed.

Lemma emits_addParagraph (s : string) : emits (addParagraph s) [paragraph_mark s].
Proof. emit. Qed.

Lemma emits_addSubheading (title : string) (r g b : Z) :
  emits (addSubheading title r g b) [subheading_mark title r g b].
Proof. emit. Qed.

Lemma emits_addKeyValue (label value : string) :
  emits (addKeyValue label value) (pair_marks label value).
Proof. emit. Qed.

Lemma emits_role_alignment (value : string) :
  emits (addNewPageIfNeeded 15 ;; addKeyValue "Role Alignment" value)
    (pair_marks "Role Alignment" value).
Proof. emit. Qed.

(** One item of a bulleted list, under the text settings of the list. *)
Lemma bullet_step (r g b : Z) (item : string) (b0 : builder) :
  on_last_page (pdf b0) -> textState (pdf b0) = body ->
  on_last_page
    (pdf (snd ((lines <- split item (contentWidth - 10) ;;
                addNewPageIfNeeded (count lines * 5 + 3) ;;
                call (setFillColor r g b) ;;
                y0 <- get_y ;;
                call (circle (margin + 2) (y0 - (3 # 2)) (3 # 2)) ;;
                call (text lines (margin + 8) y0 AlignLeft) ;;
                advance (count lines * 5 + 3)) b0))) /\
  textState
    (pdf (snd ((lines <- split item (contentWidth - 10) ;;
                addNewPageIfNeeded (count lines * 5 + 3) ;;
                call (setFillColor r g b) ;;
                y0 <- get_y ;;
                call (circle (margin + 2) (y0 - (3 # 2)) (3 # 2)) ;;
                call (text lines (margin + 8) y0 AlignLeft) ;;
                advance (count lines * 5 + 3)) b0))) = body /\
  shown
    (pdf (snd ((lines <- split item (contentWidth - 10) ;;
                addNewPageIfNeeded (count lines * 5 + 3) ;;
                call (setFillColor r g b) ;;
                y0 <- get_y ;;
                call (circle (margin + 2) (y0 - (3 # 2)) (3 # 2)) ;;
                call (text lines (margin + 8) y0 AlignLeft) ;;
                advance (count lines * 5 + 3)) b0)))
  = (shown (pdf b0) ++ bullet_mark (r, g, b) item)%list.
Proof.
  intros L T.
  unfold addNewPageIfNeeded, bind, call, get_y, set_y, advance, split, ret.
  cbn [fst snd pdf y]. rewrite T.
  destruct (gt _ _); cbn [fst snd pdf y];
    (split; [last_page | split; [exact T|]]);
    show_all; rewrite <- ?app_assoc;
    cbn [textState circle put setFillColor addPage unplaced fillColor];
    rewrite T; reflexivity.
Qed.

Lemma bullets_from (r g b : Z) (items : list string) (b0 : builder) :
  on_last_page (pdf b0) -> textState (pdf b0) = body ->
  on_last_page
    (pdf (snd (forEach items
                 (fun item =>
                    lines <- split item (contentWidth - 10) ;;
                    addNewPageIfNeeded (count lines * 5 + 3) ;;
                    call (setFillColor r g b) ;;
                    y0 <- get_y ;;
                    call (circle (margin + 2) (y0 - (3 # 2)) (3 # 2)) ;;
                    call (text lines (margin + 8) y0 AlignLeft) ;;
                    advance (count lines * 5 + 3)) b0))) /\
  shown
    (pdf (snd (forEach items
                 (fun item =>
                    lines <- split item (contentWidth - 10) ;;
                    addNewPageIfNeeded (count lines * 5 + 3) ;;
                    call (setFillColor r g b) ;;
                    y0 <- get_y ;;
                    call (circle (margin + 2) (y0 - (3 # 2)) (3 # 2)) ;;
                    call (text lines (margin + 8) y0 AlignLeft) ;;
                    advance (count lines * 5 + 3)) b0)))
  = (shown (pdf b0) ++ bullet_marks (r, g, b) items)%list.
Proof.
  revert b0. induction items as [|item items IH]; intros b0 L T.
  - split; [exact L | now rewrite app_nil_r].
  - cbn [forEach]. rewrite snd_seq.
    destruct (bullet_step r g b item b0 L T) as (L1 & T1 & S1).
    destruct (IH _ L1 T1) as [L2 S2].
    split; [exact L2|].
    rewrite S2, S1, <- app_assoc. reflexivity.
Qed.

Lemma emits_addBulletList (items : list string) (c : rgb) :
  emits (addBulletList items c) (bullet_marks c items).
Proof.
  destruct c as [[r g] b]. intros b0 L. unfold addBulletList.
  rewrite !snd_seq.
  match goal with |- context [forEach items ?f ?s] =>
    destruct (bullets_from r g b items s) as [L1 S1]; [exact L | reflexivity |]
  end.
  split; [exact L1 | exact S1].
Qed.

(** One block after the other, by the shape of the program. *)
Ltac emit_all :=
  lazymatch goal with
  | |- emits (bind (addNewPageIfNeeded _) _) _ => apply emits_role_alignment
  | |- emits (bind _ _) _ =>
      eapply emits_seq; [emit_all | emit_all | reflexivity]
  | |- emits (if_text _ _) _ => eapply emits_if_text; intros ?; emit_all
  | |- emits (if_items _ _) _ => eapply emits_if_items; intros ?; emit_all
  | |- emits (if_present _ _) _ => eapply emits_if_present; intros ?; emit_all
  | |- emits (addSectionTitle _) _ => apply emits_addSectionTitle
  | |- emits (addParagraph _) _ => apply emits_addParagraph
  | |- emits (addBulletList _ _) _ => apply emits_addBulletList
  | |- emits (addSubheading _ _ _ _) _ => apply emits_addSubheading
  | |- emits (addKeyValue _ _) _ => apply emits_addKeyValue
  | |- emits (drawFitScore _) _ => apply emits_drawFitScore
  | |- emits (advance _) _ => apply emits_advance
  end.

Lemma shown_drawn (b : builder) : shown (pdf b) = map unplaced (drawn b).
Proof. reflexivity. Qed.

Lemma content_emits analysis genome job (b0 : builder) :
  on_last_page
    (pdf (snd (drawJobInfo job (snd (drawCandidateInfo genome (snd (drawHeader b0)))))))
  -> map unplaced (drawn (snd (drawContent analysis genome job b0)))
     = (map unplaced
          (drawn (snd (drawJobInfo job
                         (snd (drawCandidateInfo genome (snd (drawHeader b0)))))))
          ++ outline analysis)%list.
Proof.
  rewrite <- !shown_drawn.
  unfold drawContent. do 3 rewrite snd_seq.
  match goal with |- on_last_page (pdf ?s) -> _ => generalize s end.
  unfold drawCareerTrajectory, drawLocationAndWorkStyle, drawProfessionalCredibility.
  intros b L.
  match goal with |- shown (pdf (snd (?m b))) = _ =>
    cut (emits m (outline analysis)); [intros E; exact (proj2 (E b L))|]
  end.
  clear b L.
  eapply emits_seq; [emit_all | emit_all | reflexivity].
Qed.

Lemma contentPass_outline analysis genome job :
  map unplaced (drawn (contentPass analysis genome job))
  = (map unplaced (drawn (identity_state genome job)) ++ outline analysis)%list.
Proof.
  unfold contentPass, identity_state. apply content_emits.
  exact (proj1 (identity_state_drawn genome job)).
Qed.

(** What the content pass shows: the three opening blocks, then the
    outline of the analysis. *)
Lemma contentPass_shows analysis genome job :
  map unplaced (drawn (contentPass analysis genome job))
  = (map unplaced (header_block ++ candidate_block genome ++ job_block job)
       ++ outline analysis)%list.
Proof.
  exact (eq_trans (contentPass_outline analysis genome job)
           (f_equal (fun l => (map unplaced l ++ outline analysis)%list)
              (proj2 (identity_state_drawn genome job)))).
Qed.

(** *** The section titles *)

Lemma section_titles_app (l1 l2 : list draw) :
  section_titles (l1 ++ l2) = (section_titles l1 ++ section_titles l2)%list.
Proof.
  induction l1 as [|d l1 IH]; [reflexivity|]. cbn [app section_titles].
  destruct (is_title d); [cbn [app]|]; now rewrite IH.
Qed.

Lemma section_titles_unplaced (l : list draw) :
  section_titles (map unplaced l) = section_titles l.
Proof.
  induction l as [|d l IH]; [reflexivity|]. cbn [map section_titles].
  replace (is_title (unplaced d)) with (is_title d)
    by (destruct d as [[|t [|u r]] x y0 a st| | |]; reflexivity).
  now rewrite IH.
Qed.

Lemma bullet_marks_titles (c : rgb) (items : list string) :
  section_titles (bullet_marks c items) = [].
Proof.
  induction items as [|item items IH]; [reflexivity|].
  unfold bullet_marks. cbn [flat_map]. rewrite section_titles_app.
  fold (bullet_marks c items). rewrite IH.
  unfold bullet_mark.
  destruct (splitTextToSize body item (contentWidth - 10)) as [|t [|u r]]; reflexivity.
Qed.

Lemma pair_marks_titles (label value : string) :
  section_titles (pair_marks label value) = [].
Proof.
  unfold pair_marks.
  destruct (splitTextToSize (face "bold" 10 100 100 100) (label ++ ":") 50)
    as [|t [|u r]];
    destruct (splitTextToSize body value (contentWidth - 55)) as [|t' [|u' r']];
    reflexivity.
Qed.

Lemma paragraph_mark_titles (s : string) : section_titles [paragraph_mark s] = [].
Proof.
  unfold paragraph_mark.
  destruct (splitTextToSize body s contentWidth) as [|t [|u r]]; reflexivity.
Qed.

Lemma sublist_marks_titles (t : string) (r g b : Z) (items : list string) :
  section_titles (sublist_marks t r g b items) = [].
Proof.
  unfold sublist_marks. change (section_titles (subheading_mark t r g b :: ?l))
    with (section_titles l). apply bullet_marks_titles.
Qed.

Lemma text_section_titles (o : option string) (marks : string -> list draw)
  (titles : string -> list string) :
  (forall s, section_titles (marks s) = titles s) ->
  section_titles (text_section o marks) = text_section o titles.
Proof. intros E. destruct o as [s|]; simpl; [destruct (Str.nonempty s)|]; auto. Qed.

Lemma list_section_titles (o : option (list string)) (marks : list string -> list draw)
  (titles : list string -> list string) :
  (forall s, section_titles (marks s) = titles s) ->
  section_titles (list_section o marks) = list_section o titles.
Proof. intros E. destruct o as [[|i r]|]; simpl; auto. Qed.

Lemma nested_section_titles {B} (o : option B) (marks : B -> list draw)
  (titles : B -> list string) :
  (forall c, section_titles (marks c) = titles c) ->
  section_titles (nested_section o marks) = nested_section o titles.
Proof. intros E. destruct o; simpl; auto. Qed.

Lemma text_section_nil {A} (o : option string) :
  text_section o (fun _ => @nil A) = [].
Proof. destruct o as [s|]; simpl; [destruct (Str.nonempty s)|]; reflexivity. Qed.

Lemma list_section_nil {A} (o : option (list string)) :
  list_section o (fun _ => @nil A) = [].
Proof. destruct o as [[|i r]|]; reflexivity. Qed.

Lemma titled_list_titles (t : string) (c : rgb) (items : list string) :
  section_titles (title_mark t :: bullet_marks c items) = [t].
Proof.
  change (section_titles (title_mark t :: bullet_marks c items))
    with (t :: section_titles (bullet_marks c items)).
  now rewrite bullet_marks_titles.
Qed.

Lemma career_marks_titles (c : CareerTrajectory) :
  section_titles (career_marks c) = ["Career Trajectory & Growth"].
Proof.
  unfold career_marks.
  change (section_titles (title_mark ?t :: ?l)) with (t :: section_titles l).
  rewrite !section_titles_app.
  rewrite (text_section_titles _ _ (fun _ => []))
    by (intros s; apply paragraph_mark_titles).
  rewrite (list_section_titles _ _ (fun _ => []))
    by (intros s; change (section_titles (subheading_mark ?t ?r ?g ?b :: ?l))
                    with (section_titles l); apply bullet_marks_titles).
  rewrite (text_section_titles _ _ (fun _ => []))
    by (intros s; apply pair_marks_titles).
  now rewrite !text_section_nil, list_section_nil.
Qed.

Lemma location_marks_titles (l : LocationAndWorkStyle) :
  section_titles (location_marks l) = ["Location & Work Style"].
Proof.
  unfold location_marks.
  change (section_titles (title_mark ?t :: ?r)) with (t :: section_titles r).
  rewrite !section_titles_app.
  rewrite !(text_section_titles _ _ (fun _ => []))
    by (intros s; apply pair_marks_titles).
  rewrite (list_section_titles _ _ (fun _ => []))
    by (intros s; apply sublist_marks_titles).
  now rewrite !text_section_nil, list_section_nil.
Qed.

Lemma credibility_marks_titles (p : ProfessionalCredibility) :
  section_titles (credibility_marks p) = ["Professional Credibility"].
Proof.
  unfold credibility_marks.
  change (section_titles (title_mark ?t :: ?r)) with (t :: section_titles r).
  rewrite !section_titles_app.
  rewrite (text_section_titles _ _ (fun _ => []))
    by (intros s; apply pair_marks_titles).
  rewrite !(list_section_titles _ _ (fun _ => []))
    by (intros s; apply sublist_marks_titles).
  now rewrite text_section_nil, !list_section_nil.
Qed.

Lemma outline_titles (analysis : CandidateFitAnalysisResult) :
  section_titles (outline analysis) = expected_titles analysis.
Proof.
  unfold outline, expected_titles. rewrite !section_titles_app.
  rewrite (text_section_titles (overallFitScore analysis) _ (fun _ => []))
    by (intros s; reflexivity).
  rewrite (text_section_titles (jobSummary analysis) _ (fun _ => ["Job Summary"]))
    by (intros s; change (section_titles [title_mark ?t; paragraph_mark s])
                    with (t :: section_titles [paragraph_mark s]);
        now rewrite paragraph_mark_titles).
  rewrite (list_section_titles (matchingSkillsAndStrengths analysis) _
             (fun _ => ["Matching Skills & Strengths"]))
    by (intros s; apply titled_list_titles).
  rewrite (list_section_titles (areasForDevelopment analysis) _
             (fun _ => ["Areas for Development"]))
    by (intros s; apply titled_list_titles).
  rewrite (list_section_titles (recommendations analysis) _
             (fun _ => ["Recommendations"]))
    by (intros s; apply titled_list_titles).
  rewrite (nested_section_titles _ _ (fun _ => ["Career Trajectory & Growth"]))
    by apply career_marks_titles.
  rewrite (nested_section_titles _ _ (fun _ => ["Location & Work Style"]))
    by apply location_marks_titles.
  rewrite (nested_section_titles _ _ (fun _ => ["Professional Credibility"]))
    by apply credibility_marks_titles.
  now rewrite text_section_nil.
Qed.

Lemma contentPass_titles analysis genome job :
  section_titles (drawn (contentPass analysis genome job)) = expected_titles analysis.
Proof.
  rewrite <- section_titles_unplaced, contentPass_shows.
  rewrite section_titles_app, outline_titles, section_titles_unplaced.
  reflexivity.
Qed.

(** With a job summary and nothing else, the report is its opening
    blocks and the summary section. *)
Lemma summary_only_drawn analysis genome job (s : string) :
  jobSummary analysis = Some s ->
  Str.nonempty s = true ->
  blank (overallFitScore analysis) ->
  no_items (matchingSkillsAndStrengths analysis) ->
  no_items (areasForDevelopment analysis) ->
  no_items (recommendations analysis) ->
  careerTrajectory analysis = None ->
  locationAndWorkStyle analysis = None ->
  professionalCredibility analysis = None ->
  exists y1 y2 : Q,
    drawn (contentPass analysis genome job)
    = (header_block ++ candidate_block genome ++ job_block job
         ++ summary_section s y1 y2)%list.
Proof.
  intros J N B Bs Bg Br C L P.
  rewrite (contentPass_only_summary analysis genome job s J N B Bs Bg Br C L P).
  destruct (identity_state_drawn genome job) as [L0 D0].
  destruct (addSectionTitle_drawn "Job Summary" _ L0) as (y1 & L1 & D1).
  destruct (addParagraph_drawn s _ L1) as (y2 & L2 & D2).
  exists y1, y2.
  rewrite drawn_advance, D2, D1, D0. unfold summary_section.
  rewrite <- !app_assoc. reflexivity.
Qed.

(** C6, amended.  For every analysis, what the content pass draws is,
    heights apart, the header block, the candidate block and the job
    block followed by the outline of the analysis: each part drawn when
    its text is not empty, its list is not empty or, for the three
    nested sections, its object is present, and nothing in the place of
    a part that is not there.  So the section titles drawn are those of
    the summary and of the three lists that are not empty, and those of
    the nested sections that are present, whatever their fields hold.
    The saved document is those pages with their footers.  With a job
    summary and nothing else (the score absent or empty, the three
    lists absent or empty, the three nested sections absent), the
    document is the three blocks, the title [Job Summary] and the
    wrapped summary. *)
Theorem sections_follow_data (analysis : CandidateFitAnalysisResult)
  (genome : GenomeResponse) (job : JobDetails) :
  map unplaced (drawn (contentPass analysis genome job))
  = (map unplaced (header_block ++ candidate_block genome ++ job_block job)
       ++ outline analysis)%list /\
  section_titles (drawn (contentPass analysis genome job)) = expected_titles analysis /\
  pages (snd (generateAnalysisPDF analysis genome job))
  = stamped 1 (page_count (contentPass analysis genome job))
      (pages (pdf (contentPass analysis genome job))) /\
  (forall s : string,
      jobSummary analysis = Some s ->
      Str.nonempty s = true ->
      blank (overallFitScore analysis) ->
      no_items (matchingSkillsAndStrengths analysis) ->
      no_items (areasForDevelopment analysis) ->
      no_items (recommendations analysis) ->
      careerTrajectory analysis = None ->
      locationAndWorkStyle analysis = None ->
      professionalCredibility analysis = None ->
      exists y1 y2 : Q,
        drawn (contentPass analysis genome job)
        = (header_block ++ candidate_block genome ++ job_block job
             ++ summary_section s y1 y2)%list).
Proof.
  split; [apply contentPass_shows|].
  split; [apply contentPass_titles|].
  split; [apply generateAnalysisPDF_pages|].
  apply summary_only_drawn.
Qed.

End Blocks.

Lemma sections_follow_data_witness :
  (exists y1 y2 : Q,
      drawn (@contentPass RefCanvas.a4 summary_only jane senior_designer)
      = (@header_block RefCanvas.a4 ++ @candidate_block RefCanvas.a4 jane
           ++ job_block senior_designer
           ++ @summary_section RefCanvas.a4 "A design role at Acme." y1 y2)%list) /\
  section_titles (drawn (@contentPass RefCanvas.a4 empty_trajectory jane senior_designer))
  = ["Job Summary"; "Career Trajectory & Growth"].
Proof.
  split.
  - refine (proj2 (proj2 (proj2 (@sections_follow_data RefCanvas.a4 summary_only jane
                                   senior_designer)))
              "A design role at Acme." eq_refl eq_refl _ _ _ _ eq_refl eq_refl eq_refl).
    + right; reflexivity.
    + right; reflexivity.
    + left; reflexivity.
    + right; reflexivity.
  - exact (proj1 (proj2 (@sections_follow_data RefCanvas.a4 empty_trajectory jane
                           senior_designer))).
Defined.

End SectionFacts.

(* ================================================================== *)
(** * Part IV: properties of the rest of the program *)
(* ================================================================== *)

(** ** Letter case and words *)

Module WordsFacts.
Import Words.

(** Facts checked on each of the 256 characters. *)
Ltac each_char c := destruct c as [[] [] [] [] [] [] [] []]; reflexivity.

Lemma to_lower_idempotent (c : ascii) : to_lower (to_lower c) = to_lower c.
Proof. each_char c. Qed.

Lemma to_lower_upper (c : ascii) : to_lower (to_upper c) = to_lower c.
Proof. each_char c. Qed.

Lemma to_upper_hyphen (c : ascii) : Ascii.eqb (to_upper c) "-" = Ascii.eqb c "-".
Proof. each_char c. Qed.

Lemma is_word_upper (c : ascii) : is_word (to_upper c) = is_word c.
Proof. each_char c. Qed.

Lemma to_upper_idempotent (c : ascii) : to_upper (to_upper c) = to_upper c.
Proof. each_char c. Qed.

Lemma map_chars_append (f : ascii -> ascii) (a b : string) :
  map_chars f (a ++ b) = map_chars f a ++ map_chars f b.
Proof. induction a as [|c a IH]; simpl; [reflexivity | now rewrite IH]. Qed.

Lemma map_chars_length (f : ascii -> ascii) (s : string) :
  String.length (map_chars f s) = String.length s.
Proof. induction s as [|c s IH]; simpl; [reflexivity | now rewrite IH]. Qed.

Lemma toLowerCase_idempotent (s : string) :
  toLowerCase (toLowerCase s) = toLowerCase s.
Proof.
  unfold toLowerCase. induction s as [|c s IH]; simpl; [reflexivity|].
  now rewrite to_lower_idempotent, IH.
Qed.

Lemma capitalize_from_length (w : bool) (s : string) :
  String.length (capitalize_from w s) = String.length s.
Proof.
  revert w. induction s as [|c s IH]; intros w; simpl; [reflexivity | now rewrite IH].
Qed.

Lemma capitalize_from_lower (w : bool) (s : string) :
  toLowerCase (capitalize_from w s) = toLowerCase s.
Proof.
  revert w. unfold toLowerCase.
  induction s as [|c s IH]; intros w; simpl; [reflexivity|].
  rewrite IH. destruct (is_word c && negb w); [now rewrite to_lower_upper | reflexivity].
Qed.

Definition is_hyphen (c : ascii) : bool := Ascii.eqb c "-".

Lemma capitalize_from_hyphens (w : bool) (s : string) :
  Str.free_of is_hyphen (capitalize_from w s) = Str.free_of is_hyphen s.
Proof.
  revert w. induction s as [|c s IH]; intros w; simpl; [reflexivity|].
  rewrite IH. unfold is_hyphen.
  destruct (is_word c && negb w); [now rewrite to_upper_hyphen | reflexivity].
Qed.

Lemma hyphens_to_spaces_free (s : string) :
  Str.free_of is_hyphen (hyphens_to_spaces s) = true.
Proof.
  unfold hyphens_to_spaces, is_hyphen.
  induction s as [|c s IH]; simpl; [reflexivity|].
  rewrite IH. destruct (Ascii.eqb c "-") eqn:E; simpl; [reflexivity | now rewrite E].
Qed.

(** Capitalising twice changes nothing more. *)
Lemma capitalize_from_idempotent (w : bool) (s : string) :
  capitalize_from w (capitalize_from w s) = capitalize_from w s.
Proof.
  revert w. induction s as [|c s IH]; intros w; simpl; [reflexivity|].
  destruct (is_word c && negb w) eqn:E.
  - rewrite is_word_upper. rewrite E, to_upper_idempotent, IH. reflexivity.
  - rewrite E, IH. reflexivity.
Qed.

End WordsFacts.

(** ** The label helpers *)

Module LabelsFacts.
Import Words WordsFacts Table Labels.

Lemma get_or_fallback (table : list (string * string)) (key fallback : string) :
  own table key = None -> inherited key = false ->
  get_or table key fallback = Shown fallback.
Proof. intros O I. unfold get_or. now rewrite O, I. Qed.

Lemma own_In (table : list (string * string)) (key v : string) :
  own table key = Some v -> In (key, v) table.
Proof.
  induction table as [|[k w] r IH]; simpl; [discriminate|].
  destruct (String.eqb k key) eqn:E.
  - apply String.eqb_eq in E. intros [= ->]. left. now subst.
  - intros O. right. now apply IH.
Qed.

(** The label of a code that is in no table (and is not the name of an
    inherited member): the code itself, every hyphen turned into a space
    and the first letter of every word in upper case. *)
Lemma title_case (code : string) :
  let label := capitalize_words (hyphens_to_spaces code) in
  String.length label = String.length code /\
  Str.free_of is_hyphen label = true /\
  toLowerCase label = toLowerCase (hyphens_to_spaces code) /\
  capitalize_words label = label.
Proof.
  cbv zeta. unfold capitalize_words. repeat split.
  - unfold hyphens_to_spaces. now rewrite capitalize_from_length, map_chars_length.
  - rewrite capitalize_from_hyphens. apply hyphens_to_spaces_free.
  - apply capitalize_from_lower.
  - apply capitalize_from_idempotent.
Qed.

(** [spaced] is [code] with a space in the place of every hyphen. *)
Definition respaced (code spaced : string) : Prop :=
  String.length spaced = String.length code /\
  forall n c, String.get n code = Some c ->
              String.get n spaced = Some (if Ascii.eqb c "-" then " "%char else c).

(** The character at [n] starts a word: it is a word character and the
    one before it, if any, is not. *)
Definition starts_word (s : string) (n : nat) : bool :=
  match String.get n s with
  | Some c =>
      is_word c &&
      negb (match n with
            | O => false
            | S k => match String.get k s with Some b => is_word b | None => false end
            end)
  | None => false
  end.

(** [label] is [text] with the first character of every word in upper
    case, and every other character as it is. *)
Definition titled (text label : string) : Prop :=
  String.length label = String.length text /\
  forall n c, String.get n text = Some c ->
              String.get n label
              = Some (if starts_word text n then to_upper c else c).

Lemma map_chars_get (f : ascii -> ascii) (s : string) (n : nat) :
  String.get n (map_chars f s) = option_map f (String.get n s).
Proof.
  revert n. induction s as [|a s IH]; intros [|n]; simpl; auto.
Qed.

Lemma hyphens_to_spaces_respaced (code : string) :
  respaced code (hyphens_to_spaces code).
Proof.
  split; [apply map_chars_length|].
  intros n c G. unfold hyphens_to_spaces. now rewrite map_chars_get, G.
Qed.

Lemma capitalize_from_get (w : bool) (s : string) (n : nat) (c : ascii) :
  String.get n s = Some c ->
  String.get n (capitalize_from w s)
  = Some (if is_word c &&
             negb (match n with
                   | O => w
                   | S k => match String.get k s with
                            | Some b => is_word b
                            | None => false
                            end
                   end)
          then to_upper c else c).
Proof.
  revert w n. induction s as [|a s IH]; intros w [|n]; simpl; try discriminate.
  - now intros [= ->].
  - intros G. rewrite (IH (is_word a) n G). destruct n as [|k]; reflexivity.
Qed.

Lemma capitalize_words_titled (text : string) : titled text (capitalize_words text).
Proof.
  split; [apply capitalize_from_length|].
  intros n c G. unfold capitalize_words, starts_word.
  rewrite (capitalize_from_get false text n c G), G. now destruct n.
Qed.

(** The label of a code that is in no table, with its hyphens turned
    into spaces first. *)
Definition spaced_title (code label : string) : Prop :=
  (exists spaced, respaced code spaced /\ titled spaced label) /\
  String.length label = String.length code /\
  Str.free_of is_hyphen label = true /\
  toLowerCase label = toLowerCase (hyphens_to_spaces code).

Lemma spaced_title_of (code : string) :
  spaced_title code (capitalize_words (hyphens_to_spaces code)).
Proof.
  destruct (title_case code) as (L & F & W & _).
  split; [|auto].
  exists (hyphens_to_spaces code).
  split; [apply hyphens_to_spaces_respaced | apply capitalize_words_titled].
Qed.

(** The codes of the tables get the labels of the tables.  Any other
    code (the twelve inherited names apart) gets a label made from the
    code: for a type, a fluency and a commitment, every hyphen becomes a
    space and then the first character of every word is put in upper
    case; for a proficiency the hyphens stay and the first character of
    every word is put in upper case.  Such a label has the length of the
    code and differs from it only by the case of letters and, the
    proficiency apart, by the spaces. *)
Theorem labels_of_codes (code : string) :
  Forall (fun kv => formatType (fst kv) = Shown (snd kv)) typeMap /\
  Forall (fun kv => formatProficiency (fst kv) = Shown (snd kv)) profMap /\
  Forall (fun kv => formatFluency (fst kv) = Shown (snd kv)) fluencyMap /\
  Forall (fun kv => formatCommitment (fst kv) = Shown (snd kv)) commitMap /\
  (own typeMap code = None -> inherited code = false ->
   exists label, formatType code = Shown label /\ spaced_title code label) /\
  (own fluencyMap code = None -> inherited code = false ->
   exists label, formatFluency code = Shown label /\ spaced_title code label) /\
  (own commitMap code = None -> inherited code = false ->
   exists label, formatCommitment code = Shown label /\ spaced_title code label) /\
  (own profMap code = None -> inherited code = false ->
   exists label,
     formatProficiency code = Shown label /\
     titled code label /\
     toLowerCase label = toLowerCase code).
Proof.
  split; [repeat constructor|].
  split; [repeat constructor|].
  split; [repeat constructor|].
  split; [repeat constructor|].
  split; [|split; [|split]].
  - intros O I. exists (capitalize_words (hyphens_to_spaces code)).
    split; [now apply get_or_fallback | apply spaced_title_of].
  - intros O I. exists (capitalize_words (hyphens_to_spaces code)).
    split; [now apply get_or_fallback | apply spaced_title_of].
  - intros O I. exists (capitalize_words (hyphens_to_spaces code)).
    split; [now apply get_or_fallback | apply spaced_title_of].
  - intros O I. exists (capitalize_words code).
    split; [now apply get_or_fallback|].
    split; [apply capitalize_words_titled | apply capitalize_from_lower].
Qed.

Lemma labels_of_codes_witness :
  formatType "remote-first-gig" = Shown "Remote First Gig" /\
  formatFluency "near-native" = Shown "Near Native" /\
  formatCommitment "half-time" = Shown "Half Time" /\
  formatProficiency "some-level" = Shown "Some-Level" /\
  (exists label,
      formatFluency "near-native" = Shown label /\ spaced_title "near-native" label).
Proof.
  destruct (labels_of_codes "near-native") as (_ & _ & _ & _ & _ & F & _).
  repeat split; try reflexivity.
  exact (F eq_refl eq_refl).
Defined.

(** *** The badge of a fit score *)

Definition green : badge := {| bg := "bg-green-500/20"; text := "text-green-400" |}.
Definition emerald : badge := {| bg := "bg-emerald-500/20"; text := "text-emerald-400" |}.
Definition yellow : badge := {| bg := "bg-yellow-500/20"; text := "text-yellow-400" |}.
Definition orange : badge := {| bg := "bg-orange-500/20"; text := "text-orange-400" |}.
Definition blue : badge := {| bg := "bg-blue-500/20"; text := "text-blue-400" |}.

(** The badge depends on the score through its lower case only, so the
    case of the letters does not matter; the word [strong], in any case
    and anywhere in the score, gives green whatever else the score says;
    the four scores the prompt asks for get four different badges. *)
Theorem fit_score_badges (score : string) :
  getFitScoreColor (toLowerCase score) = getFitScoreColor score /\
  (forall a w b, toLowerCase w = "strong" ->
                 getFitScoreColor (a ++ w ++ b) = green) /\
  In (getFitScoreColor score) [green; emerald; yellow; orange; blue] /\
  map getFitScoreColor
    ["Strong Match"; "Good Match"; "Partial Match"; "Needs Development"]
  = [green; emerald; yellow; orange] /\
  NoDup [green; emerald; yellow; orange; blue].
Proof.
  split; [|split; [|split; [|split]]].
  - unfold getFitScoreColor. cbv zeta. now rewrite toLowerCase_idempotent.
  - intros a w b W. unfold getFitScoreColor. cbv zeta.
    unfold toLowerCase in *. rewrite !map_chars_append, W.
    now rewrite StrFacts.includes_middle.
  - unfold getFitScoreColor. cbv zeta.
    repeat match goal with
           | |- context [if ?c then _ else _] => destruct c
           end; simpl; auto 6.
  - reflexivity.
  - repeat constructor; simpl; intuition discriminate.
Qed.

Lemma fit_score_badges_witness :
  getFitScoreColor "Not a STRONG match, only partial" = green.
Proof.
  exact (proj1 (proj2 (fit_score_badges EmptyString))
           "Not a " "STRONG" " match, only partial" eq_refl).
Defined.

(** *** Theme colours *)

Definition is_hex_digit (c : ascii) : bool :=
  let n := nat_of_ascii c in
  (((48 <=? n) && (n <=? 57)) || ((97 <=? n) && (n <=? 102)))%nat.

(** [#] and six hexadecimal digits in lower case. *)
Definition is_hex_colour (s : string) : bool :=
  match s with
  | String "#" r => (String.length r =? 6)%nat && Str.free_of (fun c => negb (is_hex_digit c)) r
  | _ => false
  end.

(** Whatever the theme is (the twelve inherited names apart), the colour
    is a seven-character hexadecimal colour: one of the table or the
    default [#cdff50]. *)
Theorem theme_colour_is_hex (theme : string) :
  inherited theme = false ->
  exists colour,
    Theme.getThemeColor theme = Shown colour /\ is_hex_colour colour = true.
Proof.
  intros I. unfold Theme.getThemeColor, get_or. rewrite I.
  destruct (own Theme.themeMap theme) as [v|] eqn:O.
  - apply own_In in O.
    assert (A : forallb (fun kv => Str.nonempty (snd kv) && is_hex_colour (snd kv))
                  Theme.themeMap = true) by reflexivity.
    rewrite forallb_forall in A. specialize (A _ O). simpl in A.
    apply andb_true_iff in A as [N X]. rewrite N. now exists v.
  - now exists "#cdff50".
Qed.

Lemma theme_colour_is_hex_witness :
  exists colour,
    Theme.getThemeColor "teal500" = Shown colour /\ is_hex_colour colour = true.
Proof. exact (theme_colour_is_hex "teal500" eq_refl). Defined.

End LabelsFacts.

(** ** The brace span of [parseAIResponse] *)

Module SpanFacts.
Import Str StrFacts AI.

(** [s] has no character [c]. *)
Definition lacks (c : ascii) (s : string) : bool :=
  free_of (fun a => Ascii.eqb a c) s.

(** An opening brace with a closing brace somewhere after it. *)
Fixpoint has_span (s : string) : bool :=
  match s with
  | EmptyString => false
  | String c r => (Ascii.eqb c "{" && negb (lacks "}" r)) || has_span r
  end.

Lemma from_first_split (c : ascii) (s t : string) :
  from_first c s = Some t ->
  exists pre r, s = pre ++ String c r /\ t = String c r /\ lacks c pre = true.
Proof.
  induction s as [|a s IH]; simpl; [discriminate|].
  destruct (Ascii.eqb a c) eqn:E.
  - apply Ascii.eqb_eq in E. subst a. intros [= <-].
    now exists EmptyString, s.
  - intros F. destruct (IH F) as (pre & r & -> & -> & L).
    exists (String a pre), r. unfold lacks in *. simpl. now rewrite E, L.
Qed.

Lemma from_first_found (c : ascii) (pre r : string) :
  lacks c pre = true -> from_first c (pre ++ String c r) = Some (String c r).
Proof.
  unfold lacks. induction pre as [|a pre IH]; simpl; intros L.
  - now rewrite Ascii.eqb_refl.
  - apply andb_true_iff in L as [La L]. apply negb_true_iff in La.
    rewrite La. now apply IH.
Qed.

Lemma upto_last_lacks (c : ascii) (s : string) :
  upto_last c s = None <-> lacks c s = true.
Proof.
  unfold lacks. induction s as [|a s IH]; simpl; [easy|].
  destruct (upto_last c s) as [p|].
  - split; [discriminate|]. intros L. apply andb_true_iff in L as [_ L].
    apply IH in L. discriminate.
  - destruct (Ascii.eqb a c); simpl; [easy|].
    split; intros _; [now apply IH | reflexivity].
Qed.

Lemma upto_last_split (c : ascii) (s p : string) :
  upto_last c s = Some p ->
  exists body post, s = body ++ String c post /\ p = body ++ String c EmptyString
                    /\ lacks c post = true.
Proof.
  revert p. induction s as [|a s IH]; simpl; intros p; [discriminate|].
  destruct (upto_last c s) as [q|] eqn:U.
  - intros [= <-]. destruct (IH q eq_refl) as (body & post & -> & -> & L).
    now exists (String a body), post.
  - destruct (Ascii.eqb a c) eqn:E; [|discriminate].
    apply Ascii.eqb_eq in E. subst a. intros [= <-].
    exists EmptyString, s. repeat split. now apply upto_last_lacks.
Qed.

Lemma upto_last_found (c : ascii) (body post : string) :
  lacks c post = true ->
  upto_last c (body ++ String c post) = Some (body ++ String c EmptyString).
Proof.
  intros L. induction body as [|a body IH]; simpl.
  - apply upto_last_lacks in L. rewrite L. now rewrite Ascii.eqb_refl.
  - now rewrite IH.
Qed.

Lemma match_braces_found (pre body post : string) :
  lacks "{" pre = true -> lacks "}" post = true ->
  match_braces (pre ++ String "{" (body ++ String "}" post))
  = Some (String "{" (body ++ "}")).
Proof.
  intros Lpre Lpost. unfold match_braces.
  rewrite (from_first_found "{" pre _ Lpre).
  now rewrite (upto_last_found "}" body post Lpost).
Qed.

Lemma has_span_lacks (s : string) : lacks "{" s = true -> has_span s = false.
Proof.
  unfold lacks. induction s as [|a s IH]; simpl; [reflexivity|].
  intros L. apply andb_true_iff in L as [La L]. apply negb_true_iff in La.
  rewrite La. simpl. now apply IH.
Qed.

Lemma has_span_append (pre r : string) :
  lacks "{" pre = true -> has_span (pre ++ r) = has_span r.
Proof.
  unfold lacks. induction pre as [|a pre IH]; simpl; [reflexivity|].
  intros L. apply andb_true_iff in L as [La L]. apply negb_true_iff in La.
  rewrite La. simpl. now apply IH.
Qed.

Lemma lacks_found (c : ascii) (body post : string) :
  lacks c (body ++ String c post) = false.
Proof.
  unfold lacks. induction body as [|a b IH]; simpl.
  - now rewrite Ascii.eqb_refl.
  - now rewrite IH, andb_false_r.
Qed.

Lemma has_span_unclosed (s : string) : lacks "}" s = true -> has_span s = false.
Proof.
  unfold lacks. induction s as [|a r IH]; simpl; [reflexivity|].
  intros L. apply andb_true_iff in L as [_ L].
  fold (lacks "}" r). unfold lacks. rewrite L. simpl.
  rewrite andb_false_r. now apply IH.
Qed.

Lemma has_span_unopened (s : string) : from_first "{" s = None -> has_span s = false.
Proof.
  induction s as [|a r IH]; simpl; [reflexivity|].
  destruct (Ascii.eqb a "{"); [discriminate|]. simpl. exact IH.
Qed.

Lemma match_braces_has_span (text : string) :
  match_braces text = None <-> has_span text = false.
Proof.
  unfold match_braces.
  destruct (from_first "{" text) as [t|] eqn:F.
  - destruct (from_first_split _ _ _ F) as (pre & r & -> & -> & L).
    rewrite (has_span_append pre _ L). simpl.
    destruct (upto_last "}" r) as [p|] eqn:U.
    + destruct (upto_last_split _ _ _ U) as (body & post & -> & _ & _).
      rewrite lacks_found. split; discriminate.
    + apply upto_last_lacks in U. rewrite U, (has_span_unclosed r U).
      split; reflexivity.
  - rewrite (has_span_unopened text F). split; reflexivity.
Qed.

(** The span that the fallback parses is the widest one: it starts at the
    first opening brace of the text and ends at its last closing brace,
    whatever lies between, braces included.  There is a span exactly when
    some opening brace has a closing brace after it.  So when the direct
    parse throws, [parseAIResponse] completes as [JSON.parse] does on
    everything from the first opening to the last closing brace. *)
Theorem fallback_parses_widest_span `{Host} (text : string) :
  (forall m,
      match_braces text = Some m <->
      exists pre body post,
        text = pre ++ String "{" (body ++ String "}" post) /\
        lacks "{" pre = true /\ lacks "}" post = true /\
        m = String "{" (body ++ "}")) /\
  (match_braces text = None <-> has_span text = false) /\
  (forall pre body post e,
      text = pre ++ String "{" (body ++ String "}" post) ->
      lacks "{" pre = true -> lacks "}" post = true ->
      JSON_parse text = Throw e ->
      parseAIResponse text = JSON_parse (String "{" (body ++ "}"))).
Proof.
  split; [|split; [apply match_braces_has_span|]].
  - intros m. split.
    + unfold match_braces.
      destruct (from_first "{" text) as [t|] eqn:F; [|discriminate].
      destruct (from_first_split _ _ _ F) as (pre & r & -> & -> & L).
      destruct (upto_last "}" r) as [p|] eqn:U; [|discriminate].
      destruct (upto_last_split _ _ _ U) as (body & post & -> & -> & L').
      intros [= <-]. now exists pre, body, post.
    + intros (pre & body & post & -> & L & L' & ->).
      now apply match_braces_found.
  - intros pre body post e -> L L' E.
    unfold parseAIResponse. rewrite E.
    now rewrite (match_braces_found pre body post L L').
Qed.

(** Two objects side by side are parsed as one text, which is not JSON. *)
Definition first_object : string := RefJSON.stringify (JObject [("a", JNumber 1)]).
Definition second_object : string := RefJSON.stringify (JObject [("b", JNumber 2)]).

Lemma fallback_parses_widest_span_witness :
  @parseAIResponse RefJSON.host (first_object ++ " and " ++ second_object)
  = Throw RefJSON.syntax_error.
Proof.
  refine (eq_trans
    (proj2 (proj2 (@fallback_parses_widest_span RefJSON.host
                     (first_object ++ " and " ++ second_object)))
       EmptyString
       (substring 1 (String.length (first_object ++ " and " ++ second_object) - 2)
          (first_object ++ " and " ++ second_object))
       EmptyString RefJSON.syntax_error _ _ _ _) _); vm_compute; reflexivity.
Defined.

End SpanFacts.

(** ** The job description of the prompt *)

Module DescriptionFacts.
Import Description.

(** A complete tag: an opening bracket with a closing bracket after it. *)
Fixpoint has_tag (s : string) : bool :=
  match s with
  | EmptyString => false
  | String c r => (Ascii.eqb c "<" && contains ">" r) || has_tag r
  end.

Lemma strip_from_unclosed (s : string) :
  contains ">" s = false -> strip_from false s = s.
Proof.
  unfold contains. induction s as [|c r IH]; simpl; [reflexivity|].
  intros C. apply negb_false_iff, andb_true_iff in C as [Cc C].
  unfold contains in *. rewrite C. simpl. rewrite andb_false_r.
  rewrite IH; [reflexivity | now rewrite C].
Qed.

Lemma strip_from_clean (b : bool) (s : string) : has_tag (strip_from b s) = false.
Proof.
  revert b. induction s as [|c r IH]; intros b; simpl; [reflexivity|].
  destruct b.
  - destruct (Ascii.eqb c ">"); apply IH.
  - destruct (Ascii.eqb c "<" && contains ">" r) eqn:E; simpl.
    + apply IH.
    + rewrite IH, orb_false_r.
      destruct (Ascii.eqb c "<"); [|reflexivity]. simpl in *.
      now rewrite (strip_from_unclosed r E), E.
Qed.

Lemma strip_from_length (b : bool) (s : string) :
  (String.length (strip_from b s) <= String.length s)%nat.
Proof.
  revert b. induction s as [|c r IH]; intros b; simpl; [lia|].
  destruct b.
  - destruct (Ascii.eqb c ">"); [specialize (IH false) | specialize (IH true)]; lia.
  - destruct (Ascii.eqb c "<" && contains ">" r); simpl;
      [specialize (IH true) | specialize (IH false)]; lia.
Qed.

Lemma strip_tags_untagged (s : string) : has_tag s = false -> strip_tags s = s.
Proof.
  unfold strip_tags. induction s as [|c r IH]; simpl; [reflexivity|].
  intros T. apply orb_false_iff in T as [T1 T2]. now rewrite T1, IH.
Qed.

Lemma contains_substring0 (c : ascii) (n : nat) (s : string) :
  contains c s = false -> contains c (Str.substring0 n s) = false.
Proof.
  unfold contains, Str.substring0. revert n.
  induction s as [|a r IH]; intros [|n]; simpl; try reflexivity.
  intros C. apply negb_false_iff, andb_true_iff in C as [Ca C].
  rewrite Ca. simpl. apply IH. now rewrite C.
Qed.

Lemma has_tag_substring0 (n : nat) (s : string) :
  has_tag s = false -> has_tag (Str.substring0 n s) = false.
Proof.
  revert n. induction s as [|a r IH]; intros [|n]; simpl; try reflexivity.
  intros T. apply orb_false_iff in T as [T1 T2].
  change (substring 0 n r) with (Str.substring0 n r).
  rewrite (IH n T2), orb_false_r.
  destruct (Ascii.eqb a "<"); [|reflexivity]. simpl in *.
  now apply contains_substring0.
Qed.

(** Stripping the tags of a description leaves no complete tag (no
    opening bracket with a closing bracket after it), never makes the text
    longer, leaves a text without a complete tag as it is, and so changes
    nothing when done twice.  The description that goes into the prompt is
    never empty, has at most 2000 characters and no complete tag. *)
Theorem description_has_no_tag (s : string) (details : option (list Detail)) :
  has_tag (strip_tags s) = false /\
  (String.length (strip_tags s) <= String.length s)%nat /\
  (has_tag s = false -> strip_tags s = s) /\
  strip_tags (strip_tags s) = strip_tags s /\
  Str.nonempty (jobDescription details) = true /\
  (String.length (jobDescription details) <= 2000)%nat /\
  has_tag (jobDescription details) = false.
Proof.
  split; [apply strip_from_clean|].
  split; [apply strip_from_length|].
  split; [apply strip_tags_untagged|].
  split; [apply strip_tags_untagged, strip_from_clean|].
  unfold jobDescription.
  destruct (find_responsibilities details) as [d|]; [|repeat split; simpl; lia].
  destruct (content d) as [c|]; [|repeat split; simpl; lia].
  simpl. destruct (Str.nonempty (Str.substring0 2000 (strip_tags c))) eqn:N;
    [|repeat split; simpl; lia].
  split; [exact N|]. split.
  - rewrite StrFacts.substring0_length. lia.
  - apply has_tag_substring0, strip_from_clean.
Qed.

Lemma description_has_no_tag_witness :
  strip_tags "Budgets > 10k, teams < 5 people" = "Budgets > 10k, teams < 5 people" /\
  strip_tags "<p>Design <b>systems</b></p> for x < y" = " Design  systems   for x < y".
Proof.
  split.
  - exact (proj1 (proj2 (proj2 (description_has_no_tag
                    "Budgets > 10k, teams < 5 people" None))) eq_refl).
  - reflexivity.
Defined.

End DescriptionFacts.

(** ** More on the [POST] handler of [/api/ai] *)

Module RouteCalls.
Import Route.

Lemma on_error_status (error : thrown) : status (on_error error) = 500%Z.
Proof.
  destruct error as [kind message|]; simpl; [|reflexivity].
  now destruct (Str.includes message "API key").
Qed.

(** Whatever the request, the environment and the SDK do: the handler
    answers with 200, 400 or 500 and calls the SDK at most once; once
    when it answers 200, not at all when it answers 400, when the body
    cannot be read or when the body is [null]. *)
Theorem POST_calls_the_SDK_at_most_once `{SDK} (e : env)
  (request_json : completion json) :
  let response := fst (POST e request_json) in
  let calls := snd (POST e request_json) in
  (List.length calls <= 1)%nat /\
  In (status response) [200; 400; 500]%Z /\
  (status response = 200%Z -> List.length calls = 1%nat) /\
  (status response = 400%Z -> calls = []) /\
  ((exists error, request_json = Throw error) \/ request_json = Return JNull ->
   status response = 500%Z /\ calls = []).
Proof.
  cbv zeta. unfold POST.
  destruct request_json as [b|error].
  - destruct (destructure b) as [[[p s] m]|error] eqn:D.
    + assert (N : (exists error, Return b = Throw error) \/ Return b = Return JNull
                  -> False).
      { intros [[error E]|E]; [discriminate|].
        injection E as ->. simpl in D. discriminate. }
      destruct (truthy_opt p); simpl;
        [destruct (generateText e _) as [g|error]; simpl|];
        rewrite ?on_error_status;
        (split; [simpl; lia|]); (split; [simpl; auto|]);
        (split; [intros; try discriminate; reflexivity|]);
        (split; [intros; try discriminate; reflexivity|]);
        intros X; destruct (N X).
    + simpl. rewrite on_error_status.
      repeat split; simpl; auto; try lia; intros; discriminate.
  - simpl. rewrite on_error_status.
    repeat split; simpl; auto; try lia; intros; discriminate.
Qed.

Lemma POST_calls_the_SDK_at_most_once_witness :
  snd (@POST RefSDK.sdk RouteFacts.no_key (Return JNull)) = [] /\
  status (fst (@POST RefSDK.sdk RouteFacts.no_key (Return JNull))) = 500%Z.
Proof.
  destruct (@POST_calls_the_SDK_at_most_once RefSDK.sdk RouteFacts.no_key
              (Return JNull)) as (_ & _ & _ & _ & N).
  destruct (N (or_intror eq_refl)) as [S C]. now split.
Defined.

(** What is sent to the SDK is the body's prompt and system prompt as
    they are, the prompt being truthy, and a model name that is always
    truthy: the body's [model] when that is truthy, otherwise the name
    that [getGeminiModel] would use (the environment's [GOOGLE_MODEL] if
    set and not empty, else [gemini-2.5-flash-lite]). *)
Theorem POST_forwards_the_body `{SDK} (e : env) (b : json) (p s m : option json)
  (call : generation_request) :
  destructure b = Return (p, s, m) ->
  In call (snd (POST e (Return b))) ->
  prompt call = p /\ system call = s /\
  truthy_opt p = true /\ truthy (model call) = true /\
  (truthy_opt m = true -> Some (model call) = m) /\
  (truthy_opt m = false ->
   model call = JString (Labels.getGeminiModel_name None (GOOGLE_MODEL e))).
Proof.
  intros D I. unfold POST in I. rewrite D in I.
  destruct (truthy_opt p) eqn:T; simpl in I; [|contradiction].
  assert (E : call = {| model := or_else m
                                   (or_else (option_map JString (GOOGLE_MODEL e))
                                      (JString "gemini-2.5-flash-lite"));
                        system := s; prompt := p |}).
  { destruct (generateText e _); simpl in I; destruct I as [<-|[]]; reflexivity. }
  subst call. simpl. repeat split; auto.
  - destruct m as [v|]; simpl.
    + destruct (truthy v) eqn:V; [exact V|].
      destruct (GOOGLE_MODEL e) as [g|]; simpl; [|reflexivity].
      destruct (Str.nonempty g) eqn:G; [exact G | reflexivity].
    + destruct (GOOGLE_MODEL e) as [g|]; simpl; [|reflexivity].
      destruct (Str.nonempty g) eqn:G; [exact G | reflexivity].
  - destruct m as [v|]; simpl; [|discriminate]. now intros ->.
  - intros F. unfold Labels.getGeminiModel_name, Torre.text_or.
    assert (O : or_else m (or_else (option_map JString (GOOGLE_MODEL e))
                             (JString "gemini-2.5-flash-lite"))
                = or_else (option_map JString (GOOGLE_MODEL e))
                    (JString "gemini-2.5-flash-lite")).
    { destruct m as [v|]; simpl in *; [now rewrite F | reflexivity]. }
    rewrite O. destruct (GOOGLE_MODEL e) as [g|]; simpl; [|reflexivity].
    now destruct (Str.nonempty g).
Qed.

Definition with_model : json :=
  JObject [("prompt", JString "Say hello"); ("model", JString "gemini-pro");
           ("systemPrompt", JString "Be brief")].

Definition good_key : env :=
  {| GOOGLE_MODEL := Some "gemini-2.0-flash";
     GOOGLE_GENERATIVE_AI_API_KEY := Some "valid-key" |}.

Lemma POST_forwards_the_body_witness :
  snd (@POST RefSDK.sdk good_key (Return with_model))
  = [{| model := JString "gemini-pro"; system := Some (JString "Be brief");
        prompt := Some (JString "Say hello") |}].
Proof.
  assert (I : In {| model := JString "gemini-pro"; system := Some (JString "Be brief");
                    prompt := Some (JString "Say hello") |}
                 (snd (@POST RefSDK.sdk good_key (Return with_model))))
    by (left; reflexivity).
  pose proof (@POST_forwards_the_body RefSDK.sdk good_key with_model
                (Some (JString "Say hello")) (Some (JString "Be brief"))
                (Some (JString "gemini-pro")) _ eq_refl I) as (_ & _ & _ & _ & _).
  reflexivity.
Defined.

(** When the SDK returns, the answer is 200 and its body carries the
    generated text and the finish reason, and the usage exactly when the
    SDK gave one; it is the answer to the one call made. *)
Theorem POST_success `{SDK} (e : env) (b : json) (p s m : option json)
  (g : generation) :
  destructure b = Return (p, s, m) ->
  truthy_opt p = true ->
  generateText e (RouteFacts.request_of e p s m) = Return g ->
  exists members,
    POST e (Return b)
    = (NextResponse_json (JObject members) 200, [RouteFacts.request_of e p s m]) /\
    lookup "text" members = Some (JString (text g)) /\
    lookup "finishReason" members = Some (JString (finishReason g)) /\
    lookup "usage" members = usage g /\
    lookup "error" members = None.
Proof.
  intros D T G. rewrite (RouteFacts.POST_after_call e b p s m D T), G.
  eexists. split; [reflexivity|].
  destruct (usage g) as [u|]; repeat split; reflexivity.
Qed.

Lemma POST_success_witness :
  exists members,
    @POST RefSDK.sdk good_key (Return with_model)
    = (NextResponse_json (JObject members) 200,
       [RouteFacts.request_of good_key (Some (JString "Say hello"))
          (Some (JString "Be brief")) (Some (JString "gemini-pro"))]) /\
    lookup "text" members = Some (JString "echo: Say hello").
Proof.
  destruct (@POST_success RefSDK.sdk good_key with_model
              (Some (JString "Say hello")) (Some (JString "Be brief"))
              (Some (JString "gemini-pro"))
              {| text := "echo: Say hello"; usage := None; finishReason := "stop" |}
              eq_refl eq_refl eq_refl) as (members & E & X & _).
  exists members. now split.
Defined.

End RouteCalls.

(** ** The search proxy *)

Module SearchFacts.
Import Http SearchRoute.

(** The request that the proxy sends upstream for a body and a query. *)
Definition upstream_request `{Host} (b : JSON.json) (params : list (string * string))
  : request :=
  {| url := upstream_url (Torre.text_or (get "size" params) "10");
     method := "POST";
     headers := json_headers;
     body := Some (JSON_stringify b) |}.

(** The proxy hands on what the upstream service answered: the JSON body
    unchanged and the status unchanged, whatever the status is, so that an
    upstream error arrives as that error and not as a success. *)
Theorem search_proxy_forwards `{Host} `{Network} `{Next}
  (b : JSON.json) (params : list (string * string)) (upstream : response)
  (data : JSON.json) :
  fetch (upstream_request b params) = Return upstream ->
  json upstream = Return data ->
  response_init_error (status upstream) = None ->
  POST (Return b) params
  = (Route.NextResponse_json data (status upstream), [upstream_request b params]).
Proof.
  intros F J N. unfold POST. fold (upstream_request b params).
  now rewrite F, J, N.
Qed.

Lemma search_proxy_forwards_witness :
  @POST RefJSON.host RefNet.configured RefNet.next
    (Return (JObject [("and", JArray [])])) [("lang", "es"); ("size", "5")]
  = (Route.NextResponse_json RefNet.no_results 200,
     [@upstream_request RefJSON.host (JObject [("and", JArray [])])
        [("lang", "es"); ("size", "5")]]).
Proof.
  apply (@search_proxy_forwards RefJSON.host RefNet.configured RefNet.next
           (JObject [("and", JArray [])]) [("lang", "es"); ("size", "5")]
           {| status := 200; statusText := "OK"; json := Return RefNet.no_results |});
    reflexivity.
Defined.

(** Whatever happens, the proxy answers and sends at most one request
    upstream, none when the body of its own request cannot be read.  The
    request it sends is a POST of the body to the fixed search address,
    where only [size] comes from the query (10 when it is missing or
    empty): any other parameter of the query, such as a currency or a
    language, has no effect.  Every failure is answered 500. *)
Theorem search_proxy_requests `{Host} `{Network} `{Next}
  (request_json : completion JSON.json) (params params' : list (string * string)) :
  (List.length (snd (POST request_json params)) <= 1)%nat /\
  ((exists error, request_json = Throw error) ->
   snd (POST request_json params) = [] /\
   Route.status (fst (POST request_json params)) = 500%Z) /\
  (forall b, request_json = Return b ->
             snd (POST request_json params) = [upstream_request b params]) /\
  (get "size" params = None \/ get "size" params = Some EmptyString ->
   forall b, url (upstream_request b params) = upstream_url "10") /\
  (get "size" params = get "size" params' ->
   snd (POST request_json params) = snd (POST request_json params')) /\
  (forall b error, request_json = Return b ->
                   fetch (upstream_request b params) = Throw error ->
                   fst (POST request_json params) = on_error error).
Proof.
  split; [|split; [|split; [|split; [|split]]]].
  - unfold POST. destruct request_json as [b|e]; simpl; [|lia].
    destruct (fetch _) as [r|e]; simpl; [|lia].
    destruct (json r); simpl; [|lia].
    destruct (response_init_error _); simpl; lia.
  - intros [error ->]. now split.
  - intros b ->. unfold POST. fold (upstream_request b params).
    destruct (fetch _) as [r|e]; simpl; [|reflexivity].
    destruct (json r); simpl; [|reflexivity].
    now destruct (response_init_error _).
  - intros [G|G] b; unfold upstream_request; simpl; now rewrite G.
  - intros G. unfold POST. rewrite G.
    destruct request_json as [b|e]; [|reflexivity].
    destruct (fetch _) as [r|e]; [|reflexivity].
    destruct (json r); [|reflexivity].
    now destruct (response_init_error _).
  - intros b error -> F. unfold POST. fold (upstream_request b params).
    now rewrite F.
Qed.

Lemma search_proxy_requests_witness :
  url (@upstream_request RefJSON.host JNull [("lang", "es")]) = upstream_url "10" /\
  snd (@POST RefJSON.host RefNet.configured RefNet.next
         (Throw RefJSON.syntax_error) [("size", "5")]) = [].
Proof.
  destruct (@search_proxy_requests RefJSON.host RefNet.configured RefNet.next
              (Throw RefJSON.syntax_error) [("lang", "es")] [("size", "5")])
    as (_ & _ & _ & D & _).
  destruct (@search_proxy_requests RefJSON.host RefNet.configured RefNet.next
              (Throw RefJSON.syntax_error) [("size", "5")] [])
    as (_ & T & _).
  split.
  - exact (D (or_introl eq_refl) JNull).
  - exact (proj1 (T (ex_intro _ RefJSON.syntax_error eq_refl))).
Defined.

End SearchFacts.

(** ** The client *)

Module ClientFacts.
Import Http Client.

Definition count (b : bool) : nat := if b then 1 else 0.

Definition truthy_text (s : option string) : bool :=
  match s with Some t => Str.nonempty t | None => false end.

(** A text field of a filter that is present is not empty. *)
Definition filled (name : string) (e : JSON.json) : bool :=
  match e with
  | JObject [(_, JObject fields)] =>
      match lookup name fields with
      | Some (JString t) => Str.nonempty t
      | Some _ => false
      | None => true
      end
  | _ => false
  end.

Lemma in_app_2 {A} (x : A) (a b c d : list A) : In x b -> In x (a ++ b ++ c ++ d).
Proof. intros I. apply in_or_app. right. apply in_or_app. now left. Qed.

Lemma in_app_3 {A} (x : A) (a b c d : list A) : In x c -> In x (a ++ b ++ c ++ d).
Proof.
  intros I. apply in_or_app. right. apply in_or_app. right.
  apply in_or_app. now left.
Qed.

Lemma in_app_4 {A} (x : A) (a b c d : list A) : In x d -> In x (a ++ b ++ c ++ d).
Proof.
  intros I. apply in_or_app. right. apply in_or_app. right.
  apply in_or_app. now right.
Qed.

(** One filter for a keyword that is not empty, one for the language,
    one for each skill, one for a status that is not empty: an empty
    keyword or status adds no filter, and without any of the four the
    list is empty.  The keyword goes with the language of the search as
    its locale.  A language whose fluency is missing or empty asks for
    [conversational], a skill whose proficiency is missing or empty for
    [proficient], and a fluency or proficiency that is given is sent as
    it is: no filter is sent with an empty fluency or proficiency. *)
Theorem search_filters (filters : SearchFilters) (lang : string) :
  List.length (andFilters filters lang)
  = (count (truthy_text (keyword filters))
     + count (match language filters with Some _ => true | None => false end)
     + List.length (default (skills filters) [])
     + count (truthy_text (Client.status filters)))%nat /\
  (forall k, keyword filters = Some k -> Str.nonempty k = true ->
     In (entry "keywords" [("term", JString k); ("locale", JString lang)])
        (andFilters filters lang)) /\
  (forall l, language filters = Some l ->
     (fluency l = None \/ fluency l = Some EmptyString ->
      In (entry "language"
            [("term", JString (term l)); ("fluency", JString "conversational")])
         (andFilters filters lang)) /\
     (forall f, fluency l = Some f -> Str.nonempty f = true ->
      In (entry "language" [("term", JString (term l)); ("fluency", JString f)])
         (andFilters filters lang))) /\
  (forall sk skill, skills filters = Some sk -> In skill sk ->
     (proficiency skill = None \/ proficiency skill = Some EmptyString ->
      In (entry "skill/role"
            [("text", JString (Client.text skill));
             ("proficiency", JString "proficient")])
         (andFilters filters lang)) /\
     (forall pr, proficiency skill = Some pr -> Str.nonempty pr = true ->
      In (entry "skill/role"
            [("text", JString (Client.text skill)); ("proficiency", JString pr)])
         (andFilters filters lang))) /\
  (forall st, Client.status filters = Some st -> Str.nonempty st = true ->
     In (entry "status" [("code", JString st)]) (andFilters filters lang)) /\
  forallb (filled "fluency") (andFilters filters lang) = true /\
  forallb (filled "proficiency") (andFilters filters lang) = true.
Proof.
  unfold andFilters.
  destruct filters as [k l sk st]; cbn [keyword language skills Client.status].
  split; [|split; [|split; [|split; [|split; [|split]]]]].
  - rewrite !length_app.
    replace (List.length match sk with Some l0 => map _ l0 | None => [] end)
      with (List.length (default sk [])) by (destruct sk; simpl; now rewrite ?length_map).
    generalize (List.length (default sk [])); intro n.
    destruct k as [k|], l, st as [st|]; cbn [truthy_text];
      try destruct (Str.nonempty k); try destruct (Str.nonempty st);
      cbn [count List.length Nat.add]; lia.
  - intros k0 [= ->] N. apply in_or_app. left. rewrite N. now left.
  - intros l0 [= ->]. split.
    + intros F. apply in_app_2. left.
      destruct F as [-> | ->]; reflexivity.
    + intros f F N. apply in_app_2. left. rewrite F.
      unfold Torre.text_or. now rewrite N.
  - intros sk0 skill [= ->] I. split.
    + intros F. apply in_app_3. apply in_map_iff. exists skill.
      split; [|exact I]. destruct F as [-> | ->]; reflexivity.
    + intros pr F N. apply in_app_3. apply in_map_iff. exists skill.
      split; [|exact I]. rewrite F. unfold Torre.text_or. now rewrite N.
  - intros st0 [= ->] N. apply in_app_4. rewrite N. now left.
  - rewrite !forallb_app. repeat (apply andb_true_iff; split).
    + destruct k as [k|]; [destruct (Str.nonempty k)|]; reflexivity.
    + destruct l as [[t f]|]; [|reflexivity]. simpl.
      unfold Torre.text_or. destruct f as [f|]; [|reflexivity].
      destruct (Str.nonempty f) eqn:N; simpl; now rewrite ?N.
    + destruct sk as [sk|]; [|reflexivity].
      induction sk as [|x r IH]; [reflexivity|]. simpl. exact IH.
    + destruct st as [st|]; [destruct (Str.nonempty st)|]; reflexivity.
  - rewrite !forallb_app. repeat (apply andb_true_iff; split).
    + destruct k as [k|]; [destruct (Str.nonempty k)|]; reflexivity.
    + destruct l as [[t f]|]; reflexivity.
    + destruct sk as [sk|]; [|reflexivity].
      induction sk as [|[t pr] r IH]; [reflexivity|]. simpl.
      unfold Torre.text_or. destruct pr as [pr|]; [|exact IH].
      destruct (Str.nonempty pr) eqn:N; simpl; now rewrite ?N.
    + destruct st as [st|]; [destruct (Str.nonempty st)|]; reflexivity.
Qed.

(** A search for designers who speak English and know Figma, with the
    fluency left out and an empty proficiency and status. *)
Definition designers : SearchFilters :=
  {| keyword := Some "designer";
     language := Some {| term := "en"; fluency := None |};
     skills := Some [{| Client.text := "figma"; proficiency := Some EmptyString |}];
     Client.status := Some EmptyString |}.

Lemma search_filters_witness :
  andFilters designers "es"
  = [ entry "keywords" [("term", JString "designer"); ("locale", JString "es")];
      entry "language" [("term", JString "en"); ("fluency", JString "conversational")];
      entry "skill/role" [("text", JString "figma");
                          ("proficiency", JString "proficient")] ] /\
  In (entry "language" [("term", JString "en"); ("fluency", JString "conversational")])
     (andFilters designers "es") /\
  In (entry "skill/role" [("text", JString "figma");
                          ("proficiency", JString "proficient")])
     (andFilters designers "es").
Proof.
  destruct (search_filters designers "es") as (_ & _ & L & S & _).
  split; [reflexivity|]. split.
  - exact (proj1 (L _ eq_refl) (or_introl eq_refl)).
  - refine (proj1 (S _ {| Client.text := "figma"; proficiency := Some EmptyString |}
                     eq_refl _) (or_intror eq_refl)).
    left. reflexivity.
Defined.

Section Failures.
Context `{Host} `{Network} `{Url}.

(** A response outside 200..299 makes each of the three calls of the
    client throw an [Error] whose message is the call's own prefix, a
    colon and the status text; the body of such a response is not read.
    A [fetch] that rejects is passed on as it is. *)
Theorem client_failures (r : response) (filters : SearchFilters)
  (options : SearchOptions) (id : string) :
  (Http.status r < 200 \/ 299 < Http.status r)%Z ->
  (fetch (search_request filters options) = Return r ->
   searchOpportunities filters options
   = Throw (ErrorObject "Error" ("Search failed: " ++ statusText r))) /\
  (fetch (get_request ("/api/jobs/" ++ id)) = Return r ->
   getJobDetails id
   = Throw (ErrorObject "Error" ("Failed to fetch job details: " ++ statusText r))) /\
  (fetch (get_request ("/api/genome/" ++ id)) = Return r ->
   getGenome id
   = Throw (ErrorObject "Error" ("Failed to fetch genome: " ++ statusText r))) /\
  (forall error, fetch (search_request filters options) = Throw error ->
                 searchOpportunities filters options = Throw error) /\
  (forall error, fetch (get_request ("/api/jobs/" ++ id)) = Throw error ->
                 getJobDetails id = Throw error) /\
  (forall error, fetch (get_request ("/api/genome/" ++ id)) = Throw error ->
                 getGenome id = Throw error).
Proof.
  intros S.
  assert (O : ok r = false).
  { unfold ok. destruct S as [S|S].
    - apply andb_false_iff. left. apply Z.leb_gt. exact S.
    - apply andb_false_iff. right. apply Z.leb_gt. exact S. }
  unfold searchOpportunities, getJobDetails, getGenome, expect_ok.
  repeat split; intros; repeat match goal with E : fetch _ = _ |- _ => rewrite E end;
    rewrite ?O; reflexivity.
Qed.

End Failures.

Lemma client_failures_witness :
  @getGenome RefNet.configured "nobody"
  = Throw (ErrorObject "Error" "Failed to fetch genome: Not Found").
Proof.
  refine (proj1 (proj2 (proj2
    (@client_failures RefJSON.host RefNet.configured RefNet.url
       {| Http.status := 404; statusText := "Not Found";
          json := Return (JObject [("message", JString "Not found")]) |}
       {| keyword := None; language := None; skills := None; Client.status := None |}
       {| size := None; currency := None; periodicity := None; lang := None |}
       "nobody" _))) eq_refl).
  right. reflexivity.
Defined.

End ClientFacts.

(** ** The fit-analysis dialog *)

Module DialogFacts.
Import Http Dialog.

Definition start_state (name : string) : state :=
  {| username := name; step := input; genome := None; analysis := None;
     error := None |}.

Lemma nonempty_append_r (a b : string) :
  Str.nonempty b = true -> Str.nonempty (a ++ b) = true.
Proof. destruct a; [trivial | reflexivity]. Qed.

Lemma nonempty_append_l (a b : string) :
  Str.nonempty a = true -> Str.nonempty (a ++ b) = true.
Proof. destruct a; [discriminate | reflexivity]. Qed.

(** The prompt is never empty, whatever the template and the input. *)
Lemma prompt_nonempty `{Prompt.Template} (input : Prompt.CandidateFitAnalysisInput) :
  Str.nonempty (Prompt.generateCandidateFitPrompt input) = true.
Proof.
  unfold Prompt.generateCandidateFitPrompt.
  apply nonempty_append_r, nonempty_append_l. reflexivity.
Qed.

Section Handler.
Context `{Host} `{Network} `{Prompt.Template} `{Page}.

(** The prompt that the dialog builds for a profile. *)
Definition prompt_for (profile : Torre.GenomeResponse) : string :=
  Prompt.generateCandidateFitPrompt {| Prompt.job := job; Prompt.genome := profile |}.

(** A user name that is empty or only white space: nothing happens, the
    state is as it was and no request is made.  Otherwise the handler
    never ends in the loading step and never changes the user name:
    either it ends in the result step with no error message, or it is
    back at the input step with an error message and the analysis that
    was shown before. *)
Theorem handleAnalyze_outcome (s : state) :
  (Str.nonempty (Words.trim (username s)) = false -> handleAnalyze s = (s, [])) /\
  (Str.nonempty (Words.trim (username s)) = true ->
   username (fst (handleAnalyze s)) = username s /\
   ((step (fst (handleAnalyze s)) = result /\ error (fst (handleAnalyze s)) = None)
    \/ (step (fst (handleAnalyze s)) = input /\
        (exists message, error (fst (handleAnalyze s)) = Some message) /\
        analysis (fst (handleAnalyze s)) = analysis s))).
Proof.
  unfold handleAnalyze. split; intros N; rewrite N; cbn [negb]; [reflexivity|].
  assert (F : forall g err (trace : list request),
             username (fst (failed s g err, trace)) = username s /\
             ((step (fst (failed s g err, trace)) = result /\
               error (fst (failed s g err, trace)) = None)
              \/ (step (fst (failed s g err, trace)) = input /\
                  (exists message, error (fst (failed s g err, trace)) = Some message) /\
                  analysis (fst (failed s g err, trace)) = analysis s))).
  { intros g err trace. split; [reflexivity|]. right.
    split; [reflexivity|]. split; [eexists|]; reflexivity. }
  destruct (Client.getGenome _) as [data|err]; [|apply F].
  destruct (read_genome data) as [profile|err]; [|apply F].
  destruct (fetch _) as [r|err]; [|apply F].
  destruct (ok r); cbn [negb];
    (destruct (json r) as [v|err]; [|apply F]);
    (destruct (member v _) as [m|err]; [|apply F]); [|apply F].
  destruct (parse_text m) as [parsed|err]; [|apply F].
  split; [reflexivity|]. left. split; reflexivity.
Qed.

(** The requests of one run, in order: the profile is asked for first,
    under the trimmed user name, and the analysis after it, with the
    prompt made from that profile.  The analysis is asked for at most
    once, and not at all when the profile could not be fetched or
    read. *)
Theorem handleAnalyze_requests (s : state) :
  Str.nonempty (Words.trim (username s)) = true ->
  (snd (handleAnalyze s) = [genome_request (Words.trim (username s))] \/
   exists data profile,
     Client.getGenome (Words.trim (username s)) = Return data /\
     read_genome data = Return profile /\
     snd (handleAnalyze s)
     = [genome_request (Words.trim (username s)); ai_request (prompt_for profile)]) /\
  (forall err, Client.getGenome (Words.trim (username s)) = Throw err ->
               handleAnalyze s
               = (failed s (genome s) err, [genome_request (Words.trim (username s))])) /\
  (forall data err, Client.getGenome (Words.trim (username s)) = Return data ->
                    read_genome data = Throw err ->
                    handleAnalyze s
                    = (failed s (stored data) err,
                       [genome_request (Words.trim (username s))])).
Proof.
  intros N. unfold handleAnalyze. rewrite N. cbn [negb].
  split; [|split].
  - destruct (Client.getGenome _) as [data|err]; [|left; reflexivity].
    destruct (read_genome data) as [profile|err] eqn:R; [|left; reflexivity].
    right. exists data, profile. split; [reflexivity|]. split; [exact R|].
    fold (prompt_for profile).
    destruct (fetch _) as [r|err]; [|reflexivity].
    destruct (ok r); cbn [negb];
      (destruct (json r) as [v|err]; [|reflexivity]);
      (destruct (member v _) as [m|err]; [|reflexivity]); [|reflexivity].
    destruct (parse_text m); reflexivity.
  - intros err G. now rewrite G.
  - intros data err G R. now rewrite G, R.
Qed.

(** What the user is told when the analysis service answers outside
    200..299 with a JSON object: the object's [error] when that is a text
    that is not empty, and [AI analysis failed] when there is none or an
    empty one.  The profile fetched for the run stays stored. *)
Theorem handleAnalyze_service_error (s : state) (data : JSON.json)
  (profile : Torre.GenomeResponse) (r : response)
  (members : list (string * JSON.json)) :
  Str.nonempty (Words.trim (username s)) = true ->
  Client.getGenome (Words.trim (username s)) = Return data ->
  read_genome data = Return profile ->
  fetch (ai_request (prompt_for profile)) = Return r ->
  ok r = false ->
  json r = Return (JObject members) ->
  genome (fst (handleAnalyze s)) = stored data /\
  step (fst (handleAnalyze s)) = input /\
  (forall message, lookup "error" members = Some (JString message) ->
                   Str.nonempty message = true ->
                   error (fst (handleAnalyze s)) = Some message) /\
  (lookup "error" members = None \/
   lookup "error" members = Some (JString EmptyString) ->
   error (fst (handleAnalyze s)) = Some "AI analysis failed").
Proof.
  intros N G R F O J. unfold handleAnalyze. rewrite N. cbn [negb].
  rewrite G, R. fold (prompt_for profile). rewrite F, O. cbn [negb].
  rewrite J. cbn [member].
  split; [reflexivity|]. split; [reflexivity|]. split.
  - intros message L M. rewrite L. cbn. now rewrite M.
  - intros [L|L]; rewrite L; reflexivity.
Qed.

(** When the analysis service answers within 200..299 with an object
    whose [text] is a string that [parseAIResponse] can read, the dialog
    shows the result: the parsed value is the analysis, the profile is
    stored and no error is shown.  When [parseAIResponse] throws, the
    user is back at the input step with the message of what it threw. *)
Theorem handleAnalyze_answer (s : state) (data : JSON.json)
  (profile : Torre.GenomeResponse) (r : response)
  (members : list (string * JSON.json)) (text : string) :
  Str.nonempty (Words.trim (username s)) = true ->
  Client.getGenome (Words.trim (username s)) = Return data ->
  read_genome data = Return profile ->
  fetch (ai_request (prompt_for profile)) = Return r ->
  ok r = true ->
  json r = Return (JObject members) ->
  lookup "text" members = Some (JString text) ->
  (forall parsed, AI.parseAIResponse text = Return parsed ->
                  fst (handleAnalyze s)
                  = {| username := username s; step := result;
                       genome := stored data; analysis := stored parsed;
                       error := None |}) /\
  (forall err, AI.parseAIResponse text = Throw err ->
               fst (handleAnalyze s) = failed s (stored data) err).
Proof.
  intros N G R F O J L. unfold handleAnalyze. rewrite N. cbn [negb].
  rewrite G, R. fold (prompt_for profile). rewrite F, O. cbn [negb].
  rewrite J. cbn [member]. rewrite L. cbn [parse_text].
  split; [intros parsed P | intros err P]; now rewrite P.
Qed.

End Handler.

Definition jane_profile : Torre.GenomeResponse :=
  {| Torre.person := {| Torre.name := Some "Jane Doe";
                        Torre.professionalHeadline := Some "Product Designer" |};
     Torre.jobs := None |}.

Definition not_configured_response : response :=
  {| Http.status := 500; statusText := "Internal Server Error";
     json := Return (Route.error_body
                       "Google API key not configured. Set GOOGLE_GENERATIVE_AI_API_KEY environment variable.") |}.

(** A template whose prompt shows the shape of the answer, as the
    program's own does; the reference SDK echoes it. *)
Definition shape_template : Prompt.Template :=
  {| Prompt.before_remote_line := fun _ => "Analyze the fit of the candidate. ";
     Prompt.after_remote_line := fun _ => " Respond with a JSON object such as {}" |}.

Definition echo : string :=
  "echo: " ++ @prompt_for shape_template RefNet.page jane_profile.

Definition echo_response : response :=
  {| Http.status := 200; statusText := "OK";
     json := Return (JObject [("text", JString echo); ("finishReason", JString "stop")]) |}.

Lemma handleAnalyze_outcome_witness :
  @handleAnalyze RefJSON.host RefNet.configured RefNet.template RefNet.page
    (start_state "   ")
  = (start_state "   ", []) /\
  username (fst (@handleAnalyze RefJSON.host RefNet.configured RefNet.template
                   RefNet.page (start_state "  janedoe ")))
  = "  janedoe ".
Proof.
  split.
  - exact (proj1 (@handleAnalyze_outcome RefJSON.host RefNet.configured
                    RefNet.template RefNet.page (start_state "   ")) eq_refl).
  - exact (proj1 (proj2 (@handleAnalyze_outcome RefJSON.host RefNet.configured
                           RefNet.template RefNet.page (start_state "  janedoe "))
                    eq_refl)).
Defined.

Lemma handleAnalyze_requests_witness :
  @handleAnalyze RefJSON.host RefNet.configured RefNet.template RefNet.page
    (start_state "nobody")
  = (@failed (start_state "nobody") None
       (ErrorObject "Error" "Failed to fetch genome: Not Found"),
     [genome_request "nobody"]).
Proof.
  exact (proj1 (proj2 (@handleAnalyze_requests RefJSON.host RefNet.configured
                         RefNet.template RefNet.page (start_state "nobody") eq_refl))
           (ErrorObject "Error" "Failed to fetch genome: Not Found") eq_refl).
Defined.

Lemma handleAnalyze_service_error_witness :
  error (fst (@handleAnalyze RefJSON.host RefNet.unconfigured RefNet.template
                RefNet.page (start_state "  janedoe ")))
  = Some "Google API key not configured. Set GOOGLE_GENERATIVE_AI_API_KEY environment variable.".
Proof.
  assert (F : @fetch RefNet.unconfigured
                (@ai_request RefJSON.host
                   (@prompt_for RefNet.template RefNet.page jane_profile))
              = Return not_configured_response) by (vm_compute; reflexivity).
  destruct (@handleAnalyze_service_error RefJSON.host RefNet.unconfigured
              RefNet.template RefNet.page (start_state "  janedoe ")
              RefNet.profile jane_profile not_configured_response
              [("error", JString "Google API key not configured. Set GOOGLE_GENERATIVE_AI_API_KEY environment variable.")]
              eq_refl eq_refl eq_refl F eq_refl eq_refl) as (_ & _ & M & _).
  exact (M _ eq_refl eq_refl).
Defined.

Lemma handleAnalyze_answer_witness :
  fst (@handleAnalyze RefJSON.host RefNet.configured shape_template RefNet.page
         (start_state "  janedoe "))
  = {| username := "  janedoe "; step := result; genome := Some RefNet.profile;
       analysis := Some (JObject []); error := None |}.
Proof.
  assert (F : @fetch RefNet.configured
                (@ai_request RefJSON.host
                   (@prompt_for shape_template RefNet.page jane_profile))
              = Return echo_response) by (vm_compute; reflexivity).
  assert (P : @AI.parseAIResponse RefJSON.host echo = Return (JObject []))
    by (vm_compute; reflexivity).
  exact (proj1 (@handleAnalyze_answer RefJSON.host RefNet.configured shape_template
                  RefNet.page (start_state "  janedoe ") RefNet.profile jane_profile
                  echo_response _ echo eq_refl eq_refl eq_refl F eq_refl eq_refl
                  eq_refl)
           (JObject []) P).
Defined.

(** ** The dialog and the route together *)

Section Served.
Context `{Host} `{Route.SDK} `{Prompt.Template} `{Page}.

(** The object that the dialog writes into the body of its request. *)
Definition request_object (profile : Torre.GenomeResponse) : JSON.json :=
  JObject [("prompt", JString (prompt_for profile));
           ("systemPrompt", JString CANDIDATE_FIT_SYSTEM_PROMPT)].

Lemma destructure_request (p s : string) :
  Route.destructure (JObject [("prompt", JString p); ("systemPrompt", JString s)])
  = Return (Some (JString p), Some (JString s), None).
Proof. reflexivity. Qed.

(** The request that the dialog sends is one that the route accepts:
    when the server reads the body as the dialog wrote it, the answer is
    never 400, because the prompt is never empty; the SDK is called
    exactly once, with that prompt, the fixed system prompt, and the
    model of the environment (the dialog names none). *)
Theorem dialog_request_is_served (e : Route.env) (profile : Torre.GenomeResponse)
  (text : string) :
  body (ai_request (prompt_for profile)) = Some text ->
  JSON_parse text = Return (request_object profile) ->
  snd (Route.POST e (JSON_parse text))
  = [{| Route.model :=
          JString (Labels.getGeminiModel_name None (Route.GOOGLE_MODEL e));
        Route.system := Some (JString CANDIDATE_FIT_SYSTEM_PROMPT);
        Route.prompt := Some (JString (prompt_for profile)) |}] /\
  Route.status (fst (Route.POST e (JSON_parse text))) <> 400%Z /\
  (Route.status (fst (Route.POST e (JSON_parse text))) = 200%Z \/
   Route.status (fst (Route.POST e (JSON_parse text))) = 500%Z).
Proof.
  intros _ P. rewrite P. unfold request_object.
  rewrite (RouteFacts.POST_after_call e _ _ _ _
             (destructure_request (prompt_for profile) CANDIDATE_FIT_SYSTEM_PROMPT)
             (prompt_nonempty _)).
  assert (M : RouteFacts.request_of e (Some (JString (prompt_for profile)))
                (Some (JString CANDIDATE_FIT_SYSTEM_PROMPT)) None
              = {| Route.model :=
                     JString (Labels.getGeminiModel_name None (Route.GOOGLE_MODEL e));
                   Route.system := Some (JString CANDIDATE_FIT_SYSTEM_PROMPT);
                   Route.prompt := Some (JString (prompt_for profile)) |}).
  { unfold RouteFacts.request_of. f_equal.
    unfold RouteFacts.chosen_model, Labels.getGeminiModel_name, Torre.text_or.
    cbn [or_else]. destruct (Route.GOOGLE_MODEL e) as [g|]; simpl; [|reflexivity].
    now destruct (Str.nonempty g). }
  rewrite M.
  destruct (Route.generateText e _) as [g|err]; cbn [fst snd].
  - split; [reflexivity|]. split; [discriminate | left; reflexivity].
  - rewrite RouteCalls.on_error_status.
    split; [reflexivity|]. split; [discriminate | right; reflexivity].
Qed.

End Served.

Lemma dialog_request_is_served_witness :
  Route.status
    (fst (@Route.POST RefSDK.sdk RouteCalls.good_key
            (RefJSON.parse
               (RefJSON.stringify
                  (@request_object RefNet.template RefNet.page jane_profile)))))
  <> 400%Z.
Proof.
  assert (P : RefJSON.parse
                (RefJSON.stringify
                   (@request_object RefNet.template RefNet.page jane_profile))
              = Return (@request_object RefNet.template RefNet.page jane_profile))
    by (vm_compute; reflexivity).
  exact (proj1 (proj2 (@dialog_request_is_served RefJSON.host RefSDK.sdk
                         RefNet.template RefNet.page RouteCalls.good_key
                         jane_profile _ eq_refl P))).
Defined.

End DialogFacts.

(** ** The pages of the report, for every analysis *)

Module LayoutFacts.
Import Torre Report ReportFacts.
Local Open Scope pdf_scope.

(** A text that starts neither left of the left margin nor above the
    top margin; other shapes are free. *)
Definition below_top (x : draw) : Prop :=
  match x with
  | Text _ x0 y0 _ _ => (margin <= x0)%Q /\ (margin <= y0)%Q
  | _ => True
  end.

Definition filled (p : list draw) : Prop := p <> [].

(** Page 1 starts with the instructions [L]. *)
Definition starts (L : list draw) (ps : list (list draw)) : Prop :=
  exists rest tl, ps = (L ++ rest)%list :: tl.

(** A document in the making: it is written on its last page, page 1
    starts with [L], no text is left of the left margin or above the top
    margin, and every page
    before the last holds something.  It is [full] when the last page
    holds something too. *)
Definition sound (L : list draw) (d : jsPDF) : Prop :=
  on_last_page d /\ starts L (pages d) /\
  Forall (Forall below_top) (pages d) /\
  Forall filled (removelast (pages d)).

Definition full (L : list draw) (d : jsPDF) : Prop :=
  sound L d /\ Forall filled (pages d).

Lemma draw_at_below (i : nat) (x : draw) (ps : list (list draw)) :
  below_top x -> Forall (Forall below_top) ps ->
  Forall (Forall below_top) (draw_at i x ps).
Proof.
  intros X. revert i. induction ps as [|p r IH]; intros i F; [destruct i; exact F|].
  inversion F as [|? ? Fp Fr]; subst.
  destruct i as [|k]; simpl; constructor; auto.
  apply Forall_app. split; [exact Fp | now constructor].
Qed.

Lemma draw_at_starts (L : list draw) (i : nat) (x : draw) (ps : list (list draw)) :
  starts L ps -> starts L (draw_at i x ps).
Proof.
  intros (rest & tl & ->). destruct i as [|k]; simpl.
  - exists (rest ++ [x])%list, tl. now rewrite app_assoc.
  - now exists rest, (draw_at k x tl).
Qed.

Lemma draw_at_filled (x : draw) (ps : list (list draw)) :
  (1 <= List.length ps)%nat ->
  Forall filled (removelast ps) ->
  Forall filled (draw_at (List.length ps - 1) x ps).
Proof.
  induction ps as [|p [|q r] IH]; intros N F.
  - simpl in N. lia.
  - simpl. constructor; [|constructor]. unfold filled. now destruct p.
  - change (removelast (p :: q :: r)) with (p :: removelast (q :: r)) in F.
    inversion F as [|? ? Fp Fr]; subst.
    replace (List.length (p :: q :: r) - 1)%nat with (S (List.length (q :: r) - 1))
      by (simpl; lia).
    cbn [draw_at]. constructor; [exact Fp|].
    apply IH; [simpl; lia | exact Fr].
Qed.

Lemma Forall_removelast {A} (P : A -> Prop) (l : list A) :
  Forall P l -> Forall P (removelast l).
Proof.
  induction l as [|a [|b r] IH]; intros F; [exact F | constructor |].
  inversion F; subst.
  change (removelast (a :: b :: r)) with (a :: removelast (b :: r)).
  constructor; auto.
Qed.

Lemma sound_same (L : list draw) (d d' : jsPDF) :
  pages d' = pages d -> currentPage d' = currentPage d -> sound L d -> sound L d'.
Proof. intros E1 E2 S. unfold sound, on_last_page. rewrite E1, E2. exact S. Qed.

Lemma full_same (L : list draw) (d d' : jsPDF) :
  pages d' = pages d -> currentPage d' = currentPage d -> full L d -> full L d'.
Proof.
  intros E1 E2 [S F]. split; [exact (sound_same L d d' E1 E2 S)|]. now rewrite E1.
Qed.

Lemma full_sound (L : list draw) (d : jsPDF) : full L d -> sound L d.
Proof. now intros [S _]. Qed.

Lemma full_put (L : list draw) (x : draw) (d : jsPDF) :
  sound L d -> below_top x -> full L (put x d).
Proof.
  intros ((C & N) & S & B & F) X.
  assert (G : Forall filled (draw_at (List.length (pages d) - 1) x (pages d)))
    by now apply draw_at_filled.
  unfold full, sound, on_last_page. cbn [pages currentPage put].
  rewrite draw_at_length, C.
  repeat split; auto.
  - now apply draw_at_starts.
  - now apply draw_at_below.
  - now apply Forall_removelast.
Qed.

Lemma sound_addPage (L : list draw) (d : jsPDF) : full L d -> sound L (addPage d).
Proof.
  intros (((C & N) & (rest & tl & S) & B & _) & F).
  unfold sound, on_last_page. cbn [pages currentPage addPage].
  rewrite removelast_last, length_app. simpl.
  repeat split; auto; try lia.
  - exists rest, (tl ++ [[]])%list. now rewrite S.
  - apply Forall_app. split; [exact B | repeat constructor].
Qed.

Section Calls.
Variable L : list draw.

Lemma full_text lines (x y0 : Q) (a : alignment) (d : jsPDF) :
  sound L d -> (margin <= x)%Q -> (margin <= y0)%Q -> full L (text lines x y0 a d).
Proof. intros S X Y. apply full_put; [exact S | now split]. Qed.

Lemma full_rect (x y0 w h : Q) (d : jsPDF) : sound L d -> full L (rect x y0 w h d).
Proof. intros S. now apply full_put. Qed.

Lemma full_roundedRect (x y0 w h rx ry : Q) (d : jsPDF) :
  sound L d -> full L (roundedRect x y0 w h rx ry d).
Proof. intros S. now apply full_put. Qed.

Lemma full_circle (x y0 r : Q) (d : jsPDF) : sound L d -> full L (circle x y0 r d).
Proof. intros S. now apply full_put. Qed.

Lemma sound_setFont n s d : sound L d -> sound L (setFont n s d).
Proof. now apply sound_same. Qed.

Lemma sound_setFontSize s d : sound L d -> sound L (setFontSize s d).
Proof. now apply sound_same. Qed.

Lemma sound_setTextColor r g b d : sound L d -> sound L (setTextColor r g b d).
Proof. now apply sound_same. Qed.

Lemma sound_setFillColor r g b d : sound L d -> sound L (setFillColor r g b d).
Proof. now apply sound_same. Qed.

Lemma full_setFont n s d : full L d -> full L (setFont n s d).
Proof. now apply full_same. Qed.

Lemma full_setFontSize s d : full L d -> full L (setFontSize s d).
Proof. now apply full_same. Qed.

Lemma full_setTextColor r g b d : full L d -> full L (setTextColor r g b d).
Proof. now apply full_same. Qed.

Lemma full_setFillColor r g b d : full L d -> full L (setFillColor r g b d).
Proof. now apply full_same. Qed.

End Calls.

(** The state between two blocks: the document is full and the cursor
    is not above the top margin. *)
Definition stable (L : list draw) (b : builder) : Prop :=
  full L (pdf b) /\ (margin <= y b)%Q.

Lemma lines_nonneg (n : nat) : (0 <= inject_Z (Z.of_nat n))%Q.
Proof. change 0%Q with (inject_Z 0). rewrite <- Zle_Qle. lia. Qed.

(** The document of a goal, from the outside in. *)
Ltac doc :=
  lazymatch goal with
  | |- full _ (text _ _ _ _ _) =>
      apply full_text; [doc | unfold margin; lra | unfold margin in *; lra]
  | |- full _ (rect _ _ _ _ _) => apply full_rect; doc
  | |- full _ (roundedRect _ _ _ _ _ _ _) => apply full_roundedRect; doc
  | |- full _ (circle _ _ _ _) => apply full_circle; doc
  | |- full _ (setFont _ _ _) => apply full_setFont; doc
  | |- full _ (setFontSize _ _) => apply full_setFontSize; doc
  | |- full _ (setTextColor _ _ _ _) => apply full_setTextColor; doc
  | |- full _ (setFillColor _ _ _ _) => apply full_setFillColor; doc
  | |- sound _ (setFont _ _ _) => apply sound_setFont; doc
  | |- sound _ (setFontSize _ _) => apply sound_setFontSize; doc
  | |- sound _ (setTextColor _ _ _ _) => apply sound_setTextColor; doc
  | |- sound _ (setFillColor _ _ _ _) => apply sound_setFillColor; doc
  | |- sound _ (addPage _) => apply sound_addPage; doc
  | |- sound _ _ => apply full_sound; doc
  | |- full _ _ => assumption
  end.

(** Run a block on a state, both branches of its page check. *)
Ltac run :=
  unfold addSectionTitle, addParagraph, addKeyValue, addSubheading, drawFitScore,
    addNewPageIfNeeded, bind, call, get_y, set_y, advance, split, ret;
  cbn [fst snd pdf y];
  try (destruct (gt _ _); cbn [fst snd pdf y]).

Ltac block :=
  let b := fresh "b" in
  let F := fresh "F" in
  let Y := fresh "Y" in
  intros b [F Y]; run; (split; cbn [pdf y]; [doc | unfold margin in *; try lra]).

Section Blocks.
Context `{Canvas}.
Variable L : list draw.

Lemma stable_advance (v : Q) : (0 <= v)%Q -> keeps (stable L) (advance v).
Proof. intros V. block. Qed.

Lemma stable_drawFitScore (score : string) : keeps (stable L) (drawFitScore score).
Proof. block. Qed.

Lemma stable_addSectionTitle (title : string) :
  keeps (stable L) (addSectionTitle title).
Proof. block. Qed.

Lemma stable_addParagraph (s : string) : keeps (stable L) (addParagraph s).
Proof.
  block;
    match goal with |- context [count ?l] => pose proof (count_nonneg l) end; lra.
Qed.

Lemma stable_addSubheading (title : string) (r g b : Z) :
  keeps (stable L) (addSubheading title r g b).
Proof. block. Qed.

Lemma stable_addKeyValue (label value : string) :
  keeps (stable L) (addKeyValue label value).
Proof.
  block.
  match goal with |- context [inject_Z (Z.of_nat ?n)] => pose proof (lines_nonneg n) end.
  lra.
Qed.

(** The one key/value pair that has a page check before it. *)
Lemma stable_role_alignment (value : string) :
  keeps (stable L) (addNewPageIfNeeded 15 ;; addKeyValue "Role Alignment" value).
Proof.
  block;
    match goal with |- context [inject_Z (Z.of_nat ?n)] => pose proof (lines_nonneg n) end;
    lra.
Qed.

Lemma stable_bullet (r g b : Z) (item : string) :
  keeps (stable L)
    (lines <- split item (contentWidth - 10) ;;
     addNewPageIfNeeded (count lines * 5 + 3) ;;
     call (setFillColor r g b) ;;
     y0 <- get_y ;;
     call (circle (margin + 2) (y0 - (3 # 2)) (3 # 2)) ;;
     call (text lines (margin + 8) y0 AlignLeft) ;;
     advance (count lines * 5 + 3)).
Proof.
  block;
    match goal with |- context [count ?l] => pose proof (count_nonneg l) end; lra.
Qed.

Lemma stable_call (f : jsPDF -> jsPDF) :
  (forall d, full L d -> full L (f d)) -> keeps (stable L) (call f).
Proof. intros K b [F Y]. split; [apply K, F | exact Y]. Qed.

Lemma stable_addBulletList (items : list string) (c : rgb) :
  keeps (stable L) (addBulletList items c).
Proof.
  unfold addBulletList. destruct c as [[r g] b].
  apply keeps_bind; [apply stable_call; intros d; apply full_setFont | intros _].
  apply keeps_bind; [apply stable_call; intros d; apply full_setFontSize | intros _].
  apply keeps_bind; [apply stable_call; intros d; apply full_setTextColor | intros _].
  apply keeps_bind; [|intros _; apply stable_advance; lra].
  apply keeps_forEach. intros item. apply stable_bullet.
Qed.

(** One block after the other, by the shape of the program. *)
Ltac pass :=
  lazymatch goal with
  | |- keeps _ (bind (addNewPageIfNeeded _) _) => apply stable_role_alignment
  | |- keeps _ (bind _ _) => apply keeps_bind; [pass | intros ?; pass]
  | |- keeps _ (if_text _ _) => apply keeps_if_text; intros ?; pass
  | |- keeps _ (if_items _ _) => apply keeps_if_items; intros ?; pass
  | |- keeps _ (if_present _ _) => apply keeps_if_present; intros ?; pass
  | |- keeps _ (addSectionTitle _) => apply stable_addSectionTitle
  | |- keeps _ (addParagraph _) => apply stable_addParagraph
  | |- keeps _ (addBulletList _ _) => apply stable_addBulletList
  | |- keeps _ (addSubheading _ _ _ _) => apply stable_addSubheading
  | |- keeps _ (addKeyValue _ _) => apply stable_addKeyValue
  | |- keeps _ (drawFitScore _) => apply stable_drawFitScore
  | |- keeps _ (advance _) => apply stable_advance; lra
  end.

Lemma stable_content analysis genome job (b0 : builder) :
  stable L (snd (drawJobInfo job (snd (drawCandidateInfo genome (snd (drawHeader b0))))))
  -> stable L (snd (drawContent analysis genome job b0)).
Proof.
  unfold drawContent. do 3 rewrite snd_seq.
  match goal with |- stable _ ?s -> _ => generalize s end.
  unfold drawCareerTrajectory, drawLocationAndWorkStyle, drawProfessionalCredibility.
  apply keeps_bind; [|intros ?]; pass.
Qed.

End Blocks.

Section Saved.
Context `{Canvas}.

(** The three blocks that open every report. *)
Definition opening (genome : GenomeResponse) (job : JobDetails) : list draw :=
  (header_block ++ candidate_block genome ++ job_block job)%list.

Lemma identity_state_stable genome job :
  stable (opening genome job) (identity_state genome job).
Proof.
  assert (E : pages (pdf (identity_state genome job)) = [opening genome job])
    by reflexivity.
  assert (C : currentPage (pdf (identity_state genome job)) = 1%nat) by reflexivity.
  assert (Y : y (identity_state genome job) = (55 + 30 + 6 + 12)%Q) by reflexivity.
  unfold stable, full, sound, on_last_page. rewrite E, C, Y.
  repeat split.
  - apply Nat.le_refl.
  - exists [], []. now rewrite app_nil_r.
  - constructor; [|constructor].
    unfold opening, header_block, candidate_block, job_block. cbn [app].
    repeat constructor; unfold margin; lra.
  - constructor.
  - constructor; [|constructor]. discriminate.
  - unfold margin. lra.
Qed.

Lemma contentPass_stable analysis genome job :
  stable (opening genome job) (contentPass analysis genome job).
Proof.
  unfold contentPass. apply stable_content.
  exact (identity_state_stable genome job).
Qed.

Lemma stamped_filled (i total : nat) (ps : list (list draw)) :
  Forall filled ps ->
  Forall (fun p => (2 <= List.length p)%nat) (stamped i total ps).
Proof.
  revert i. induction ps as [|p r IH]; intros i F; [constructor|].
  inversion F as [|? ? Fp Fr]; subst. simpl. constructor; [|now apply IH].
  rewrite length_app. simpl. destruct p; [now destruct Fp | simpl; lia].
Qed.

(** For every analysis, profile, job and page size, the saved report
    has no blank page: every page holds something that the content
    pass drew, and so at least two instructions with its footer.  A page
    is added only where something is drawn on it next. *)
Theorem report_has_no_blank_page analysis genome job :
  Forall (fun p => p <> []) (pages (pdf (contentPass analysis genome job))) /\
  Forall (fun p => (2 <= List.length p)%nat)
    (pages (snd (generateAnalysisPDF analysis genome job))).
Proof.
  destruct (contentPass_stable analysis genome job) as [[_ F] _].
  split; [exact F|].
  rewrite generateAnalysisPDF_pages. now apply stamped_filled.
Qed.

(** For every analysis and page size, page 1 of the saved report
    starts with the same ten instructions: the header band with the
    title and the date, the candidate's box with the name and the
    headline, and the position and the company, each at its fixed
    place.  Nothing of the analysis comes before them or moves them. *)
Theorem report_opens_with_identity analysis genome job :
  exists rest others,
    pages (snd (generateAnalysisPDF analysis genome job))
    = (header_block ++ candidate_block genome ++ job_block job ++ rest)%list :: others.
Proof.
  destruct (contentPass_stable analysis genome job)
    as [[(_ & (rest & tl & S) & _) _] _].
  rewrite generateAnalysisPDF_pages, S. cbn [stamped].
  eexists (rest ++ [_])%list, _. unfold opening.
  rewrite <- !app_assoc. reflexivity.
Qed.

(** For every analysis and page size, the content pass writes forward
    only: it ends on the last page of the document, with the cursor at
    or below the top margin, and no text that it drew starts left of
    the left margin or above the top margin. *)
Theorem content_stays_inside_top_left analysis genome job :
  currentPage (pdf (contentPass analysis genome job))
  = page_count (contentPass analysis genome job) /\
  (margin <= y (contentPass analysis genome job))%Q /\
  forall lines x0 y0 a st,
    In (Text lines x0 y0 a st) (drawn (contentPass analysis genome job)) ->
    (margin <= x0)%Q /\ (margin <= y0)%Q.
Proof.
  pose proof (contentPass_stable analysis genome job) as S. revert S.
  generalize (contentPass analysis genome job).
  intros b [[((C & _) & _ & B & _) _] Y].
  split; [exact C|]. split; [exact Y|].
  intros lines x0 y0 a st I. unfold drawn in I.
  apply in_concat in I. destruct I as (p & Ip & Ix).
  rewrite Forall_forall in B. specialize (B p Ip).
  rewrite Forall_forall in B. exact (B _ Ix).
Qed.

End Saved.

End LayoutFacts.
